(** * repochief-adapters: capability model, adapter registry, task router
      and orchestration strategy engine

    A shallow embedding of
      - [AIAgentAdapter.supportsFeature] and [getFeatureConfig]
        (base adapter class),
      - [AdapterRegistry]: registration, default versions, metrics,
        capability scores, matching and selection
        (src/AdapterRegistry.js),
      - [TaskRouter]: task analysis, cache keys, the routing cache and
        [route] (src/TaskRouter.js),
      - [OrchestrationStrategy]: the five strategies, their
        decomposition and aggregation rules, and [execute]
        (strategies/OrchestrationStrategy.js),
    followed by the properties established about them.

    Conventions of the embedding
      - JavaScript values that stay dynamic in the source (the stored
        capability profile) are values of [JsVal]; numbers are integers
        there, and only own properties exist (nothing is inherited from
        [Object.prototype]).
      - A JavaScript [Map] is an insertion-ordered association list
        ([OMap]): iteration order is observable in the source
        ([versions[0]], stable sorts).
      - Scores, averages and rates are exact rationals ([Q]).
      - A synchronous function that may throw returns a [Completion].
      - A promise is summarised by how it settles and after how many
        milliseconds ([Settle]); adapter calls thread an abstract adapter
        state, so that an adapter may answer differently from call to
        call.  Time passes in adapter calls only.
      - Text is ASCII: [toLowerCase], word boundaries and the default
        sort order are those of code units below 128.
      - The result objects of adapters have the properties of [Result]
        and no others that the engine reads (in particular no [task],
        [strategy] or [attempts] of their own).
      - A strategy overtaken by the timer of the fallback chain is
        followed up to the instant the timer fires; the adapter calls
        it starts after that instant are not part of the embedding. *)

From Stdlib Require Import List String Ascii Bool Arith ZArith QArith Lia.
From Stdlib Require Import DecimalString.
From Stdlib Require Import Sorted Permutation Lqa.
Import ListNotations.

Set Warnings "-register-all".

Local Close Scope Q_scope.

Local Open Scope string_scope.
Local Open Scope list_scope.

(* ================================================================== *)
(** ** JavaScript values *)
(* ================================================================== *)

Inductive JsVal : Type :=
| JUndefined
| JNull
| JBool (b : bool)
| JNum (n : Z)
| JStr (s : string)
| JArr (xs : list JsVal)
| JObj (fields : list (string * JsVal)).

(** Outcome of a synchronous call: a value, or a thrown error message. *)
Inductive Completion (A : Type) : Type :=
| Normal (a : A)
| Throw (msg : string).
Arguments Normal {A} a.
Arguments Throw {A} msg.

Definition bind {A B : Type} (c : Completion A) (k : A -> Completion B) : Completion B :=
  match c with
  | Normal a => k a
  | Throw m => Throw m
  end.

Notation "x <- c ;; k" := (bind c (fun x => k))
  (at level 61, c at next level, right associativity).

(** [Boolean(v)] and the truthiness test of [if (v)], [v || w], [!v]. *)
Definition truthy (v : JsVal) : bool :=
  match v with
  | JUndefined | JNull => false
  | JBool b => b
  | JNum n => negb (Z.eqb n 0)
  | JStr s => negb (String.eqb s "")
  | JArr _ | JObj _ => true
  end.

(** [typeof v === 'object'] (true of [null] as well). *)
Definition typeofObject (v : JsVal) : bool :=
  match v with
  | JNull | JArr _ | JObj _ => true
  | _ => false
  end.

Fixpoint assoc {V : Type} (k : string) (l : list (string * V)) : option V :=
  match l with
  | [] => None
  | (k', v) :: r => if String.eqb k k' then Some v else assoc k r
  end.

Definition natToString (n : nat) : string := NilZero.string_of_uint (Nat.to_uint n).

(** Canonical array index: the decimal numeral of [i] for some [i] below
    [len].  Found by search, so that only canonical numerals count. *)
Fixpoint indexOfKey (k : string) (len : nat) : option nat :=
  match len with
  | O => None
  | S i => if String.eqb k (natToString i) then Some i else indexOfKey k i
  end.

(** Own property read [v[k]] on an object or array; [undefined] when the
    property is missing.  Properties inherited from [Object.prototype]
    (such as [constructor]) are not part of the embedding. *)
Definition getProp (v : JsVal) (k : string) : JsVal :=
  match v with
  | JObj fs => match assoc k fs with Some x => x | None => JUndefined end
  | JArr xs =>
      if String.eqb k "length" then JNum (Z.of_nat (List.length xs))
      else match indexOfKey k (List.length xs) with
           | Some i => nth i xs JUndefined
           | None => JUndefined
           end
  | _ => JUndefined
  end.

(** [k in v]: a TypeError when [v] is not an object. *)
Definition inOp (k : string) (v : JsVal) : Completion bool :=
  match v with
  | JObj fs => Normal (match assoc k fs with Some _ => true | None => false end)
  | JArr xs =>
      Normal (String.eqb k "length"
              || match indexOfKey k (List.length xs) with Some _ => true | None => false end)
  | _ => Throw "TypeError: Cannot use 'in' operator"
  end.

(** [v.k] for a value that may be [null] or [undefined]. *)
Definition member (v : JsVal) (k : string) : Completion JsVal :=
  match v with
  | JUndefined | JNull => Throw "TypeError: Cannot read properties"
  | _ => Normal (getProp v k)
  end.

(* ------------------------------------------------------------------ *)
(** *** Strings *)

Fixpoint includes (needle hay : string) : bool :=
  String.prefix needle hay
  || match hay with
     | EmptyString => false
     | String _ r => includes needle r
     end.

(** [s.split('.')]: the pieces between dots, at least one piece. *)
Fixpoint splitDot (s : string) : list string :=
  match s with
  | EmptyString => [EmptyString]
  | String c r =>
      if Ascii.eqb c "."%char then EmptyString :: splitDot r
      else match splitDot r with
           | p :: ps => String c p :: ps
           | [] => [String c EmptyString]
           end
  end.

(** [Array.prototype.join] over strings where [undefined] prints as empty. *)
Fixpoint join (sep : string) (l : list (option string)) : string :=
  match l with
  | [] => ""
  | [x] => match x with Some s => s | None => "" end
  | x :: r => (match x with Some s => s | None => "" end) ++ sep ++ join sep r
  end.

(* ================================================================== *)
(** ** Insertion-ordered maps (JavaScript [Map]) *)
(* ================================================================== *)

Module OMap.
Definition t (V : Type) : Type := list (string * V).

Definition empty {V : Type} : t V := [].

Definition get {V : Type} (k : string) (m : t V) : option V := assoc k m.

Definition has {V : Type} (k : string) (m : t V) : bool :=
  match get k m with Some _ => true | None => false end.

(** [set] keeps the position of a key that is already present and
    appends a new key at the end. *)
Fixpoint set {V : Type} (k : string) (v : V) (m : t V) : t V :=
  match m with
  | [] => [(k, v)]
  | (k', v') :: r =>
      if String.eqb k k' then (k, v) :: r else (k', v') :: set k v r
  end.

Fixpoint delete {V : Type} (k : string) (m : t V) : t V :=
  match m with
  | [] => []
  | (k', v') :: r =>
      if String.eqb k k' then delete k r else (k', v') :: delete k r
  end.

Definition keys {V : Type} (m : t V) : list string := map fst m.

Definition size {V : Type} (m : t V) : nat := List.length m.

(** Representation invariant: a key occurs once. *)
Definition wf {V : Type} (m : t V) : Prop := NoDup (keys m).
End OMap.

(* ================================================================== *)
(** ** Capability model: [AIAgentAdapter] *)
(* ================================================================== *)

Module AIAgentAdapter.

(** [supportsFeature(feature)] of the base class, on the stored
    [_capabilities] value ([null] until a subclass sets it). *)
Definition supportsFeature (_capabilities : JsVal) (feature : string)
  : Completion JsVal :=
  if negb (truthy _capabilities) then Normal (JBool false)
  else
    (* top-level capabilities *)
    top <- inOp feature _capabilities ;;
    if top then Normal (JBool (truthy (getProp _capabilities feature)))
    else
      (* feature flags *)
      let features := getProp _capabilities "features" in
      flag <- (if truthy features then inOp feature features else Normal false) ;;
      if flag then
        let featureValue := getProp features feature in
        match featureValue with
        | JBool b => Normal (JBool b)
        | _ =>
            enabled <- member featureValue "enabled" ;;
            Normal (if truthy enabled then enabled else JBool false)
        end
      else
        (* sub-features, e.g. 'subAgents.delegationTypes' *)
        let fallthrough := Normal (JBool false) in
        if includes "." feature then
          match splitDot feature with
          | parent :: child :: _ =>
              hasParent <- inOp parent _capabilities ;;
              if hasParent then
                let parentValue := getProp _capabilities parent in
                if truthy parentValue && typeofObject parentValue then
                  hasChild <- inOp child parentValue ;;
                  if hasChild
                  then Normal (JBool (truthy (getProp parentValue child)))
                  else fallthrough
                else fallthrough
              else fallthrough
          | _ => fallthrough
          end
        else fallthrough.

(** [getFeatureConfig(feature)]: the [config] of a complex feature flag,
    else [null]. *)
Definition getFeatureConfig (_capabilities : JsVal) (feature : string)
  : Completion JsVal :=
  match _capabilities with
  | JUndefined | JNull => Normal JNull
  | _ =>
      let features := getProp _capabilities "features" in
      if negb (truthy features) then Normal JNull
      else
        let featureValue := getProp features feature in
        if typeofObject featureValue then
          config <- member featureValue "config" ;;
          Normal (if truthy config then config else JNull)
        else Normal JNull
  end.

(** What a caller sees of [supportsFeature] in a condition. *)
Definition holds (c : Completion JsVal) : bool :=
  match c with
  | Normal v => truthy v
  | Throw _ => false
  end.

End AIAgentAdapter.

(* ================================================================== *)
(** ** Data model *)
(* ================================================================== *)

(** The capability profile, with the shape of [AdapterCapabilitiesSchema]. *)
Record SubAgentCaps : Type := {
  supported : bool;
  sa_maxConcurrent : option Z;
  delegationTypes : option (list string)
}.

Inductive FeatureFlag : Type :=
| FlagBool (b : bool)
| FlagDetailed (enabled : bool) (config : JsVal).

Record Capabilities : Type := {
  maxContextTokens : Z;
  supportedLanguages : list string;
  cap_multiFile : bool;
  cap_streaming : bool;
  cap_subAgents : option SubAgentCaps;
  cap_features : list (string * FeatureFlag)
}.

Definition optField (k : string) (v : option JsVal) : list (string * JsVal) :=
  match v with Some x => [(k, x)] | None => [] end.

Definition subAgentsToJs (sa : SubAgentCaps) : JsVal :=
  JObj ([("supported", JBool (supported sa))]
        ++ optField "maxConcurrent" (option_map JNum (sa_maxConcurrent sa))
        ++ optField "delegationTypes"
             (option_map (fun l => JArr (map JStr l)) (delegationTypes sa))).

Definition flagToJs (f : FeatureFlag) : JsVal :=
  match f with
  | FlagBool b => JBool b
  | FlagDetailed e c => JObj [("enabled", JBool e); ("config", c)]
  end.

(** The profile as the object the base class stores in [_capabilities]. *)
Definition toJs (c : Capabilities) : JsVal :=
  JObj ([("maxContextTokens", JNum (maxContextTokens c));
         ("supportedLanguages", JArr (map JStr (supportedLanguages c)));
         ("multiFile", JBool (cap_multiFile c));
         ("streaming", JBool (cap_streaming c))]
        ++ optField "subAgents" (option_map subAgentsToJs (cap_subAgents c))
        ++ [("features", JObj (map (fun kv => (fst kv, flagToJs (snd kv))) (cap_features c)))]).

(** Tasks. [task_streaming] is [task.streaming === true]. *)
Record Context : Type := {
  files : option (list string);
  content : option string;
  code : option string
}.

Record VendorExt : Type := {
  ext_executionStrategy : option string;
  ext_subAgents : bool;
  ext_streaming : bool;
  ext_features : option (list string)
}.

Record Task : Type := {
  id : string;
  type : string;
  description : option string;
  context : option Context;
  extensions : option (list (string * VendorExt));
  complexity : option string;
  task_streaming : bool;
  executionStrategy : option string;
  role : option string;
  focus : option string
}.

(** [task.context?.files?.length || 0] *)
Definition fileCount (task : Task) : nat :=
  match context task with
  | Some c => match files c with Some fs => List.length fs | None => 0 end
  | None => 0
  end.

(** Execution results as adapters and the aggregation rules build them. *)
Record ParallelFailure : Type := { pf_task : string; pf_error : string }.

Record ParallelResults : Type := {
  pr_successful : nat;
  pr_failed : nat;
  pr_failures : list ParallelFailure
}.

Record Result : Type := {
  taskId : option string;
  status : option string;
  output : option string;
  error : option string;
  artifacts : option (list string);
  batchCount : option nat;
  parallelResults : option ParallelResults
}.

(** How a promise settles, and after how many milliseconds. *)
Inductive Settle (A : Type) : Type :=
| Resolved (a : A) (ms : N)
| Rejected (msg : string) (ms : N)
| Pending.
Arguments Resolved {A} a ms.
Arguments Rejected {A} msg ms.
Arguments Pending {A}.

Record FeatureConfig : Type := { maxConcurrent : option nat }.

Record Agent : Type := { agent_id : string; agent_role : string; agent_task : Task }.

Record Plan : Type := {
  orchestrationMode : string;
  subtasks : list Task;
  agents : list Agent
}.

(** The adapter contract the registry, router and strategy engine rely
    on.  [St] is the adapter's own mutable state; every execution entry
    point may read and change it. *)
Record Adapter (St : Type) : Type := {
  name : string;
  apiVersion : string;
  capabilities : Capabilities;
  supportsFeature : string -> bool;
  getFeatureConfig : string -> option FeatureConfig;
  executeTask : St -> Task -> Settle Result * St;
  executeWithSubAgents : option (St -> Plan -> Settle Result * St);
  executeWithStreaming : option (St -> Task -> Settle Result * St);
  hasGetVendorExtensions : bool
}.
Arguments name {St} _.
Arguments apiVersion {St} _.
Arguments capabilities {St} _.
Arguments supportsFeature {St} _ _.
Arguments getFeatureConfig {St} _ _.
Arguments executeTask {St} _ _ _.
Arguments executeWithSubAgents {St} _.
Arguments executeWithStreaming {St} _.
Arguments hasGetVendorExtensions {St} _.

(** Requirement profile handed to the registry. *)
Record Requirements : Type := {
  req_features : option (list string);
  minContextTokens : Z;
  req_languages : option (list string);
  req_multiFile : bool;
  req_streaming : bool;
  req_subAgents : bool
}.

(* ------------------------------------------------------------------ *)
(** *** Rational helpers *)

Definition Qltb (a b : Q) : bool := negb (Qle_bool b a).
Definition Qminb (a b : Q) : Q := if Qle_bool a b then a else b.
Definition QofNat (n : nat) : Q := inject_Z (Z.of_nat n).

(** Stable sort of [l], descending by [key]: the effect of
    [l.sort((a, b) => key(b) - key(a))]. *)
Fixpoint insertDesc {A : Type} (key : A -> Q) (x : A) (l : list A) : list A :=
  match l with
  | [] => [x]
  | y :: r => if Qltb (key x) (key y) then y :: insertDesc key x r else x :: y :: r
  end.

Definition sortDesc {A : Type} (key : A -> Q) (l : list A) : list A :=
  fold_right (insertDesc key) [] l.

(** [new Set(l)] read back in insertion order. *)
Fixpoint dedupe (l : list string) : list string :=
  match l with
  | [] => []
  | x :: r => x :: filter (fun y => negb (String.eqb x y)) (dedupe r)
  end.

Definition inList (x : string) (l : list string) : bool :=
  existsb (String.eqb x) l.

(* ================================================================== *)
(** ** Adapter registry: [AdapterRegistry] *)
(* ================================================================== *)

Module AdapterRegistry.

Section WithAdapterState.
Context {St : Type}.

(** A numeric property of a metrics object: absent, [NaN], or a number. *)
Inductive Num : Type :=
| NUndefined
| NaN
| Fin (q : Q).

(** An entry of [_metrics].  [isMap] marks the empty [Map] that
    [registerAdapter] stores under the bare adapter name; [recordMetrics]
    stores plain statistics objects under ["name:version"]. *)
Record Stats : Type := {
  isMap : bool;
  totalExecutions : Num;
  totalDuration : Num;
  failures : Num;
  avgDuration : Num;
  successRate : Num;
  lastUpdated : option Z
}.

Inductive Event : Type :=
| Registered (name version : string) (isDefault : bool)
| DefaultChanged (name version : string)
| Unregistered (name : string) (version : option string).

Record Registry : Type := {
  _adapters : OMap.t (OMap.t (Adapter St));
  _defaultVersions : OMap.t string;
  _metrics : OMap.t Stats;
  emitted : list Event
}.

(** [new AdapterRegistry()] *)
Definition create : Registry :=
  {| _adapters := OMap.empty; _defaultVersions := OMap.empty;
     _metrics := OMap.empty; emitted := [] |}.

(** [x || y] on optional strings: the empty string is falsy. *)
Definition orElse (x : option string) (y : string) : string :=
  match x with
  | Some s => if String.eqb s "" then y else s
  | None => y
  end.

Definition newMapEntry : Stats :=
  {| isMap := true; totalExecutions := NUndefined; totalDuration := NUndefined;
     failures := NUndefined; avgDuration := NUndefined; successRate := NUndefined;
     lastUpdated := None |}.

(** [registerAdapter(name, adapter, version = null, setAsDefault = true)].
    A missing adapter argument is [None]. *)
Definition registerAdapter (r : Registry) (name : string) (adapter : option (Adapter St))
    (version : option string) (setAsDefault : bool) : Completion Registry :=
  match adapter with
  | None => Throw "Name and adapter are required"
  | Some a =>
      if String.eqb name "" then Throw "Name and adapter are required"
      else
        (* Use adapter's version if not provided *)
        let adapterVersion := orElse version (apiVersion a) in
        (* Initialize name map if needed *)
        let adapters1 :=
          if negb (OMap.has name (_adapters r))
          then OMap.set name OMap.empty (_adapters r) else _adapters r in
        (* Register the adapter *)
        let versionMap :=
          match OMap.get name adapters1 with Some vm => vm | None => OMap.empty end in
        let adapters2 := OMap.set name (OMap.set adapterVersion a versionMap) adapters1 in
        (* Set as default if requested or if it's the first version *)
        let defaults :=
          if setAsDefault || negb (OMap.has name (_defaultVersions r))
          then OMap.set name adapterVersion (_defaultVersions r)
          else _defaultVersions r in
        (* Initialize metrics *)
        let metrics :=
          if negb (OMap.has name (_metrics r))
          then OMap.set name newMapEntry (_metrics r) else _metrics r in
        Normal {| _adapters := adapters2; _defaultVersions := defaults;
                  _metrics := metrics;
                  emitted := emitted r ++ [Registered name adapterVersion setAsDefault] |}
  end.

(** [getAdapter(name, version = null)] *)
Definition getAdapter (r : Registry) (name : string) (version : option string)
  : option (Adapter St) :=
  match OMap.get name (_adapters r) with
  | None => None
  | Some versionMap =>
      let targetVersion :=
        match version with
        | Some v => if String.eqb v "" then OMap.get name (_defaultVersions r) else Some v
        | None => OMap.get name (_defaultVersions r)
        end in
      match targetVersion with
      | None => None
      | Some v => if String.eqb v "" then None else OMap.get v versionMap
      end
  end.

(** [listAdapters()] *)
Definition listAdapters (r : Registry) : list string := OMap.keys (_adapters r).

(** [setDefaultVersion(name, version)] *)
Definition setDefaultVersion (r : Registry) (name version : string) : Completion Registry :=
  match OMap.get name (_adapters r) with
  | None => Throw ("Adapter " ++ name ++ " v" ++ version ++ " not found")
  | Some versionMap =>
      if negb (OMap.has version versionMap)
      then Throw ("Adapter " ++ name ++ " v" ++ version ++ " not found")
      else Normal {| _adapters := _adapters r;
                     _defaultVersions := OMap.set name version (_defaultVersions r);
                     _metrics := _metrics r;
                     emitted := emitted r ++ [DefaultChanged name version] |}
  end.

(** [unregisterAdapter(name, version = null)] *)
Definition unregisterAdapter (r : Registry) (name : string) (version : option string)
  : Registry :=
  match OMap.get name (_adapters r) with
  | None => r
  | Some versionMap0 =>
      let specific :=
        match version with
        | Some v => if String.eqb v "" then None else Some v
        | None => None
        end in
      let '(adapters, defaults) :=
        match specific with
        | Some v =>
            (* Remove specific version *)
            let versionMap := OMap.delete v versionMap0 in
            if Nat.eqb (OMap.size versionMap) 0 then
              (* Remove name entry if no versions left *)
              (OMap.delete name (_adapters r), OMap.delete name (_defaultVersions r))
            else
              let adapters := OMap.set name versionMap (_adapters r) in
              match OMap.get name (_defaultVersions r), OMap.keys versionMap with
              | Some d, first :: _ =>
                  (* Update default if we removed the default version *)
                  if String.eqb d v
                  then (adapters, OMap.set name first (_defaultVersions r))
                  else (adapters, _defaultVersions r)
              | _, _ => (adapters, _defaultVersions r)
              end
        | None =>
            (* Remove all versions *)
            (OMap.delete name (_adapters r), OMap.delete name (_defaultVersions r))
        end in
      {| _adapters := adapters; _defaultVersions := defaults;
         _metrics := _metrics r;
         emitted := emitted r ++ [Unregistered name version] |}
  end.

(* ------------------------------------------------------------------ *)
(** *** Performance tracking *)

Definition metricsKey (name version : string) : string := name ++ ":" ++ version.

Definition numIncr (n : Num) : Num :=
  match n with Fin q => Fin (q + 1)%Q | _ => NaN end.

Definition numAdd (n : Num) (d : Q) : Num :=
  match n with Fin q => Fin (q + d)%Q | _ => NaN end.

Definition numSub (a b : Num) : Num :=
  match a, b with Fin x, Fin y => Fin (x - y)%Q | _, _ => NaN end.

(** Division of numbers; a zero divisor is reported as [NaN]. *)
Definition numDiv (a b : Num) : Num :=
  match a, b with
  | Fin x, Fin y => if Qeq_bool y 0 then NaN else Fin (x / y)%Q
  | _, _ => NaN
  end.

(** [if (n)] on a numeric property *)
Definition numTruthy (n : Num) : bool :=
  match n with Fin q => negb (Qeq_bool q 0) | _ => false end.

Definition freshStats : Stats :=
  {| isMap := false; totalExecutions := Fin 0; totalDuration := Fin 0;
     failures := Fin 0; avgDuration := NUndefined; successRate := NUndefined;
     lastUpdated := None |}.

(** [recordMetrics(name, version, {duration, failed})]; [now] is the
    reading of [new Date()]. *)
Definition recordMetrics (r : Registry) (name version : string)
    (duration : option Q) (failed : bool) (now : Z) : Registry :=
  let key := metricsKey name version in
  let stats :=
    match OMap.get key (_metrics r) with Some s => s | None => freshStats end in
  let total := numIncr (totalExecutions stats) in
  let dur := numAdd (totalDuration stats)
               (match duration with Some d => d | None => 0 end) in
  let fails := if failed then numIncr (failures stats) else failures stats in
  let stats' :=
    {| isMap := isMap stats; totalExecutions := total; totalDuration := dur;
       failures := fails;
       (* Calculate derived metrics *)
       avgDuration := numDiv dur total;
       successRate := numDiv (numSub total fails) total;
       lastUpdated := Some now |} in
  {| _adapters := _adapters r; _defaultVersions := _defaultVersions r;
     _metrics := OMap.set key stats' (_metrics r); emitted := emitted r |}.

Definition defaultMetrics : Stats :=
  {| isMap := false; totalExecutions := Fin 0; totalDuration := Fin 0;
     failures := Fin 0; avgDuration := Fin 0; successRate := Fin 1;
     lastUpdated := None |}.

(** [getAdapterMetrics(name, version)] *)
Definition getAdapterMetrics (r : Registry) (name version : string) : Stats :=
  match OMap.get (metricsKey name version) (_metrics r) with
  | Some s => s
  | None => defaultMetrics
  end.

(* ------------------------------------------------------------------ *)
(** *** Capability scoring *)

(** The three counters of [_calculateCapabilityScore]. *)
Record Tally : Type := { score : Q; requiredCount : nat; matchedCount : nat }.

(** One required item worth [points]: counted as required, and as
    matched with its points when [ok]. *)
Definition require (ok : bool) (points : Q) (t : Tally) : Tally :=
  if ok
  then {| score := (score t + points)%Q; requiredCount := S (requiredCount t);
          matchedCount := S (matchedCount t) |}
  else {| score := score t; requiredCount := S (requiredCount t);
          matchedCount := matchedCount t |}.

(** No more items are matched than are required. *)
Definition counted (t : Tally) : Prop := matchedCount t <= requiredCount t.

(** Some required item is not matched. *)
Definition shortfall (t : Tally) : Prop := matchedCount t < requiredCount t.

(** Check required features *)
Definition scoreFeatures (adapter : Adapter St) (requirements : Requirements) (t : Tally)
  : Tally :=
  match req_features requirements with
  | Some fs => fold_left (fun acc feature => require (supportsFeature adapter feature) 10 acc) fs t
  | None => t
  end.

(** Check context window requirement *)
Definition scoreContext (adapter : Adapter St) (requirements : Requirements) (t : Tally)
  : Tally :=
  let required := minContextTokens requirements in
  if Z.eqb required 0 then t
  else
    let actual := maxContextTokens (capabilities adapter) in
    if Z.geb actual required then
      (* Bonus for significantly larger context *)
      let ratio := (inject_Z actual / inject_Z required)%Q in
      require true (5 + Qminb (ratio - 1) 5)%Q t
    else require false 0 t.

(** Check language support *)
Definition matchingLangs (adapter : Adapter St) (langs : list string) : list string :=
  filter (fun lang => inList lang (supportedLanguages (capabilities adapter))) (dedupe langs).

Definition scoreLanguages (adapter : Adapter St) (requirements : Requirements) (t : Tally)
  : Tally :=
  match req_languages requirements with
  | None => t
  | Some langs =>
      let requiredLangs := dedupe langs in
      let matching := matchingLangs adapter langs in
      if Nat.eqb (List.length matching) (List.length requiredLangs) then require true 5 t
      else if Nat.ltb 0 (List.length matching) then
        {| score := (score t
                     + (QofNat (List.length matching) / QofNat (List.length requiredLangs)) * 5)%Q;
           requiredCount := S (requiredCount t);
           matchedCount := matchedCount t |}
      else require false 0 t
  end.

(** Check specific capabilities *)
Definition capabilityChecks (requirements : Requirements) : list (bool * string * Q) :=
  [ (req_multiFile requirements, "multiFile", 3%Q);
    (req_streaming requirements, "streaming", 2%Q);
    (req_subAgents requirements, "subAgents.supported", 5%Q) ].

Definition scoreChecks (adapter : Adapter St) (requirements : Requirements) (t : Tally)
  : Tally :=
  fold_left
    (fun (acc : Tally) (check : bool * string * Q) =>
       let '(req, cap, points) := check in
       if req then require (supportsFeature adapter cap) points acc else acc)
    (capabilityChecks requirements) t.

Definition tally (adapter : Adapter St) (requirements : Requirements) : Tally :=
  scoreChecks adapter requirements
    (scoreLanguages adapter requirements
       (scoreContext adapter requirements
          (scoreFeatures adapter requirements
             {| score := 0; requiredCount := 0; matchedCount := 0 |}))).

(** [_calculateCapabilityScore(adapter, requirements)] *)
Definition _calculateCapabilityScore (adapter : Adapter St) (requirements : Requirements)
  : Q :=
  let t := tally adapter requirements in
  (* Return 0 if not all required features are met *)
  if Nat.ltb 0 (requiredCount t) && Nat.ltb (matchedCount t) (requiredCount t)
  then 0%Q
  else score t.

(* ------------------------------------------------------------------ *)
(** *** Matching and selection *)

Record Match : Type := {
  m_name : string;
  m_version : string;
  m_adapter : Adapter St;
  m_score : Q;
  m_capabilities : Capabilities
}.

Definition withScore (m : Match) (s : Q) : Match :=
  {| m_name := m_name m; m_version := m_version m; m_adapter := m_adapter m;
     m_score := s; m_capabilities := m_capabilities m |}.

(** The candidates in registration order, before sorting. *)
Definition candidates (r : Registry) (requirements : Requirements) : list Match :=
  flat_map
    (fun entry : string * OMap.t (Adapter St) =>
       let '(name, versionMap) := entry in
       flat_map
         (fun va : string * Adapter St =>
            let '(version, adapter) := va in
            let s := _calculateCapabilityScore adapter requirements in
            if Qltb 0 s
            then [ {| m_name := name; m_version := version; m_adapter := adapter;
                      m_score := s; m_capabilities := capabilities adapter |} ]
            else [])
         versionMap)
    (_adapters r).

(** [findMatchingAdapters(requirements)] *)
Definition findMatchingAdapters (r : Registry) (requirements : Requirements) : list Match :=
  (* Sort by score (highest first) *)
  sortDesc m_score (candidates r requirements).

Record Preferences : Type := {
  preferredAdapters : option (list string);
  considerPerformance : bool;
  fallbackStrategies : list string
}.

(** 50% boost for preferred adapters *)
Definition applyPreference (preferred : list string) (m : Match) : Match :=
  if inList (m_name m) preferred then withScore m (m_score m * (3 # 2))%Q else m.

(** Boost faster adapters, by at most 30%.  The code multiplies
    doubles; the product here is the exact one. *)
Definition applyPerformance (r : Registry) (m : Match) : Match :=
  let metrics := getAdapterMetrics r (m_name m) (m_version m) in
  match avgDuration metrics with
  | Fin avg =>
      if numTruthy (Fin avg) then
        let speedBoost := (1000 / avg)%Q in
        withScore m (m_score m * (1 + Qminb (speedBoost * (1 # 10)) (3 # 10)))%Q
      else m
  | _ => m
  end.

(** [selectOptimalAdapter(requirements, preferences = {})] *)
Definition selectOptimalAdapter (r : Registry) (requirements : Requirements)
    (preferences : Preferences) : option Match :=
  let matches := findMatchingAdapters r requirements in
  match matches with
  | [] => None
  | _ =>
      let matches1 :=
        match preferredAdapters preferences with
        | Some preferred => sortDesc m_score (map (applyPreference preferred) matches)
        | None => matches
        end in
      let matches2 :=
        if considerPerformance preferences
        then sortDesc m_score (map (applyPerformance r) matches1)
        else matches1 in
      hd_error matches2
  end.

(* ------------------------------------------------------------------ *)
(** *** Histories of a registry *)

(** A call that changes the registration tables. *)
Inductive Call : Type :=
| CallRegister (name : string) (adapter : option (Adapter St)) (version : option string)
               (setAsDefault : bool)
| CallSetDefault (name version : string)
| CallUnregister (name : string) (version : option string).

(** The registry after a call; a call that throws leaves it as it was. *)
Definition perform (r : Registry) (c : Call) : Registry :=
  match c with
  | CallRegister name adapter version setAsDefault =>
      match registerAdapter r name adapter version setAsDefault with
      | Normal r' => r'
      | Throw _ => r
      end
  | CallSetDefault name version =>
      match setDefaultVersion r name version with
      | Normal r' => r'
      | Throw _ => r
      end
  | CallUnregister name version => unregisterAdapter r name version
  end.

(** The registry reached from a new one by a sequence of calls *)
Definition after (calls : list Call) : Registry := fold_left perform calls create.

(** Every registered name has a non-empty version table and exactly one
    default version, which is one of its registered versions; a name
    that is not registered has no default. *)
Definition defaultsConsistent (r : Registry) : Prop :=
  forall name,
    match OMap.get name (_adapters r) with
    | Some versionMap =>
        versionMap <> []
        /\ exists! d, OMap.get name (_defaultVersions r) = Some d
                      /\ OMap.has d versionMap = true
    | None => OMap.get name (_defaultVersions r) = None
    end.

End WithAdapterState.
Arguments Registry St : clear implicits.
Arguments Match St : clear implicits.
Arguments Call St : clear implicits.

End AdapterRegistry.

(* ================================================================== *)
(** ** Task router: [TaskRouter] *)
(* ================================================================== *)

Module TaskRouter.

(* ------------------------------------------------------------------ *)
(** *** Text heuristics *)

Definition lowerChar (c : ascii) : ascii :=
  let n := nat_of_ascii c in
  if Nat.leb 65 n && Nat.leb n 90 then ascii_of_nat (n + 32) else c.

(** [s.toLowerCase()] on ASCII text *)
Fixpoint toLowerCase (s : string) : string :=
  match s with
  | EmptyString => EmptyString
  | String c r => String (lowerChar c) (toLowerCase r)
  end.

(** Word characters of a regular expression: letters, digits, underscore *)
Definition isWordChar (c : ascii) : bool :=
  let n := nat_of_ascii c in
  (Nat.leb 48 n && Nat.leb n 57) || (Nat.leb 65 n && Nat.leb n 90)
  || (Nat.leb 97 n && Nat.leb n 122) || Nat.eqb n 95.

Definition isWord (c : option ascii) : bool :=
  match c with Some a => isWordChar a | None => false end.

(** [\b] between two neighbouring positions *)
Definition boundary (prev next : option ascii) : bool := xorb (isWord prev) (isWord next).

Fixpoint stripPrefix (w s : string) : option string :=
  match w, s with
  | EmptyString, _ => Some s
  | String a w', String b s' => if Ascii.eqb a b then stripPrefix w' s' else None
  | String _ _, EmptyString => None
  end.

Definition firstChar (s : string) : option ascii :=
  match s with EmptyString => None | String c _ => Some c end.

Fixpoint lastChar (s : string) : option ascii :=
  match s with
  | EmptyString => None
  | String c EmptyString => Some c
  | String _ r => lastChar r
  end.

Definition wordHere (prev : option ascii) (w s : string) : bool :=
  match stripPrefix w s with
  | Some rest => boundary prev (firstChar w) && boundary (lastChar w) (firstChar rest)
  | None => false
  end.

(** [/\b(w1|w2|...)\b/.test(s)]; [prev] is the character before [s]. *)
Fixpoint testWords (prev : option ascii) (ws : list string) (s : string) : bool :=
  existsb (fun w => wordHere prev w s) ws
  || match s with
     | EmptyString => false
     | String c r => testWords (Some c) ws r
     end.

Definition languagePatterns : list (string * list string) :=
  [ ("javascript", ["javascript"; "js"; "node"; "npm"]);
    ("typescript", ["typescript"; "ts"; "tsx"]);
    ("python", ["python"; "py"; "pip"]);
    ("java", ["java"; "maven"; "gradle"]);
    ("go", ["go"; "golang"]);
    ("rust", ["rust"; "cargo"]);
    ("c++", ["c++"; "cpp"]) ].

Definition taskTypeFeatures : list (string * list string) :=
  [ ("comprehension", ["comprehension"; "explanation"]);
    ("generation", ["generation"; "refactoring"]);
    ("validation", ["validation"; "testing"]);
    ("exploration", ["exploration"; "debugging"]);
    ("refactoring", ["refactoring"; "generation"]);
    ("testing", ["testing"; "generation"]);
    ("documentation", ["documentation"; "generation"]) ].

Definition ceilDiv4 (n : nat) : nat := (n + 3) / 4.

Definition textTokens (s : option string) : nat :=
  match s with
  | Some t => if String.eqb t "" then 0 else ceilDiv4 (String.length t)
  | None => 0
  end.

(** [_estimateContextSize(context)] *)
Definition _estimateContextSize (c : Context) : nat :=
  (* Rough estimate: 500 tokens per file *)
  (match files c with Some fs => List.length fs * 500 | None => 0 end)
  (* Rough estimate: 1 token per 4 characters *)
  + textTokens (content c)
  + textTokens (code c).

(** [analyzeTask(task)]; reading [task.description] of a task without
    one throws. *)
Definition analyzeTask (task : Task) : Completion Requirements :=
  (* Analyze task type *)
  let features0 :=
    match assoc (type task) taskTypeFeatures with Some fs => fs | None => [] end in
  (* Analyze context size *)
  let '(minTokens, multi) :=
    match context task with
    | Some c =>
        (Z.of_nat (_estimateContextSize c),
         match files c with Some fs => Nat.ltb 1 (List.length fs) | None => false end)
    | None => (0%Z, false)
    end in
  match description task with
  | None => Throw "TypeError: Cannot read properties of undefined (reading 'toLowerCase')"
  | Some d =>
      let description := toLowerCase d in
      (* Language detection *)
      let languages :=
        map fst (filter (fun lp : string * list string => testWords None (snd lp) description)
                        languagePatterns) in
      (* Feature detection from description *)
      let streaming0 := includes "stream" description || includes "real-time" description in
      let subAgents0 :=
        includes "delegate" description || includes "sub-agent" description
        || includes "parallel" description || includes "distribute" description in
      (* Check for vendor-specific extensions *)
      let exts := match extensions task with Some es => map snd es | None => [] end in
      let subAgents1 := subAgents0 || existsb ext_subAgents exts in
      let streaming1 := streaming0 || existsb ext_streaming exts in
      let features1 :=
        features0
        ++ flat_map (fun e => match ext_features e with Some fs => fs | None => [] end) exts in
      Normal {| req_features := Some (dedupe features1);   (* Deduplicate features *)
                minContextTokens := minTokens;
                req_languages := Some languages;
                req_multiFile := multi;
                req_streaming := streaming1;
                req_subAgents := subAgents1 |}
  end.

(* ------------------------------------------------------------------ *)
(** *** Cache keys *)

(** [l.sort()]: ascending by code unit, as a stable insertion sort. *)
Fixpoint insertAsc (x : string) (l : list string) : list string :=
  match l with
  | [] => [x]
  | y :: r => if String.ltb y x then y :: insertAsc x r else x :: y :: r
  end.

Definition sortStrings (l : list string) : list string := fold_right insertAsc [] l.

Definition hexDigit (n : nat) : ascii :=
  nth n (list_ascii_of_string "0123456789abcdef") "0"%char.

(** A character inside a JSON string literal, as [JSON.stringify] writes
    it: quotes and backslashes are escaped, control characters have
    their short escape or the [u00XX] form. *)
Definition escapeChar (c : ascii) : string :=
  let n := nat_of_ascii c in
  let backslash := ascii_of_nat 92 in
  if Nat.eqb n 34 || Nat.eqb n 92 then String backslash (String c EmptyString)
  else if Nat.eqb n 8 then String backslash "b"
  else if Nat.eqb n 9 then String backslash "t"
  else if Nat.eqb n 10 then String backslash "n"
  else if Nat.eqb n 12 then String backslash "f"
  else if Nat.eqb n 13 then String backslash "r"
  else if Nat.ltb n 32
       then String backslash
              ("u00" ++ String (hexDigit (n / 16)) (String (hexDigit (n mod 16)) EmptyString))
       else String c EmptyString.

(** The content of a JSON string literal *)
Fixpoint escapeJson (s : string) : string :=
  match s with
  | EmptyString => EmptyString
  | String c r => escapeChar c ++ escapeJson r
  end.

Definition quote : string := String (ascii_of_nat 34) EmptyString.

Definition jsonString (s : string) : string := quote ++ escapeJson s ++ quote.

Definition jsonArray (l : list string) : string :=
  "[" ++ String.concat "," (map jsonString l) ++ "]".

Definition jsonBool (b : bool) : string := if b then "true" else "false".

Definition jsonField (k v : string) : string := quote ++ k ++ quote ++ ":" ++ v.

(** [_generateCacheKey(task)] *)
Definition _generateCacheKey (task : Task) : Completion string :=
  requirements <- analyzeTask task ;;
  let features := match req_features requirements with Some l => l | None => [] end in
  let languages := match req_languages requirements with Some l => l | None => [] end in
  let bucket : nat := Nat.div (Z.to_nat (minContextTokens requirements)) 1000 in
  Normal
    ("{" ++ jsonField "type" (jsonString (type task)) ++ ","
         ++ jsonField "features" (jsonArray (sortStrings features)) ++ ","
         (* Round to nearest 1k *)
         ++ jsonField "contextSize"
              (natToString bucket) ++ ","
         ++ jsonField "languages" (jsonArray (sortStrings languages)) ++ ","
         ++ jsonField "flags"
              ("{" ++ jsonField "multiFile" (jsonBool (req_multiFile requirements)) ++ ","
                   ++ jsonField "streaming" (jsonBool (req_streaming requirements)) ++ ","
                   ++ jsonField "subAgents" (jsonBool (req_subAgents requirements)) ++ "}")
         ++ "}")%string.

Section WithAdapterState.
Context {St : Type}.

(** A routing decision.  [oid] is the identity of the JavaScript object:
    two decisions are the same object exactly when they carry the same
    [oid]; every [route] that builds a decision takes a fresh one. *)
Record RoutingDecision : Type := {
  oid : nat;
  rd_adapter : Adapter St;
  adapterName : string;
  adapterVersion : string;
  strategy : string;
  requirements : Requirements;
  rd_score : Q;
  timestamp : Z
}.

Inductive Event : Type :=
| CacheHit (taskId adapter : string)
| TaskRouted (taskId taskType adapter version strategy : string)
| CacheCleared.

(** The router.  [registryQueries] counts the calls made to
    [selectOptimalAdapter]. *)
Record Router : Type := {
  preferences : AdapterRegistry.Preferences;
  _routingCache : OMap.t RoutingDecision;
  nextOid : nat;
  registryQueries : nat;
  emitted : list Event
}.

Definition _cacheTTL : Z := 5 * 60 * 1000.

Definition defaultPreferences : AdapterRegistry.Preferences :=
  {| AdapterRegistry.preferredAdapters := Some [];
     AdapterRegistry.considerPerformance := true;
     AdapterRegistry.fallbackStrategies := ["subAgents"; "parallel"; "streaming"; "sequential"] |}.

(** [new TaskRouter(registry, preferences)] with the merged preferences *)
Definition create (prefs : AdapterRegistry.Preferences) : Router :=
  {| preferences := prefs; _routingCache := OMap.empty; nextOid := 0;
     registryQueries := 0; emitted := [] |}.

Definition withCache (rt : Router) (c : OMap.t RoutingDecision) : Router :=
  {| preferences := preferences rt; _routingCache := c; nextOid := nextOid rt;
     registryQueries := registryQueries rt; emitted := emitted rt |}.

Definition emit (rt : Router) (e : Event) : Router :=
  {| preferences := preferences rt; _routingCache := _routingCache rt;
     nextOid := nextOid rt; registryQueries := registryQueries rt;
     emitted := emitted rt ++ [e] |}.

(** [_getCachedRoute(key)]; [now] is the reading of [Date.now()]. *)
Definition _getCachedRoute (rt : Router) (key : string) (now : Z)
  : option RoutingDecision * Router :=
  match OMap.get key (_routingCache rt) with
  | None => (None, rt)
  | Some cached =>
      (* Check if cache is still valid *)
      let age := (now - timestamp cached)%Z in
      if Z.gtb age _cacheTTL
      then (None, withCache rt (OMap.delete key (_routingCache rt)))
      else (Some cached, rt)
  end.

(** Stable ascending sort of cache entries by timestamp *)
Fixpoint insertByTime (x : string * RoutingDecision) (l : list (string * RoutingDecision))
  : list (string * RoutingDecision) :=
  match l with
  | [] => [x]
  | y :: r =>
      if Z.ltb (timestamp (snd y)) (timestamp (snd x))
      then y :: insertByTime x r else x :: y :: r
  end.

Definition sortByTime (l : list (string * RoutingDecision)) : list (string * RoutingDecision) :=
  fold_right insertByTime [] l.

(** [_cacheRoute(key, route)] *)
Definition _cacheRoute (rt : Router) (key : string) (route : RoutingDecision) : Router :=
  let cache := OMap.set key route (_routingCache rt) in
  (* Limit cache size *)
  if Nat.ltb 1000 (OMap.size cache) then
    (* Remove oldest entries *)
    let entries := sortByTime cache in
    withCache rt (fold_left (fun c e => OMap.delete (fst e) c) (firstn 100 entries) cache)
  else withCache rt cache.

(** [x] as a strategy name when truthy *)
Definition truthyName (x : option string) : option string :=
  match x with
  | Some s => if String.eqb s "" then None else Some s
  | None => None
  end.

(** [task.extensions?.[vendorName]] *)
Definition vendorExtension (task : Task) (vendorName : string) : option VendorExt :=
  match extensions task with
  | Some es => assoc vendorName es
  | None => None
  end.

Fixpoint firstStrategy (adapter : Adapter St) (reqs : Requirements) (l : list string)
  : string :=
  match l with
  | [] => "sequential"          (* Ultimate fallback *)
  | s :: rest =>
      if String.eqb s "subAgents" then
        if req_subAgents reqs && supportsFeature adapter "subAgents"
        then "subAgents" else firstStrategy adapter reqs rest
      else if String.eqb s "parallel" then
        if supportsFeature adapter "parallelExecution"
        then "parallel" else firstStrategy adapter reqs rest
      else if String.eqb s "streaming" then
        if req_streaming reqs && supportsFeature adapter "streaming"
        then "streaming" else firstStrategy adapter reqs rest
      else if String.eqb s "sequential" then "sequential"
      else firstStrategy adapter reqs rest
  end.

(** [_selectStrategy(adapter, task, requirements)] *)
Definition _selectStrategy (rt : Router) (adapter : Adapter St) (task : Task)
    (reqs : Requirements) : string :=
  (* Check for explicit strategy in task extensions *)
  let vendorExt :=
    if hasGetVendorExtensions adapter then vendorExtension task (name adapter) else None in
  match vendorExt with
  | Some e =>
      match truthyName (ext_executionStrategy e) with
      | Some s => s
      | None => firstStrategy adapter reqs (AdapterRegistry.fallbackStrategies (preferences rt))
      end
  | None => firstStrategy adapter reqs (AdapterRegistry.fallbackStrategies (preferences rt))
  end.

(** [route(task)] against the current [registry].  [nowCheck] is the
    reading of [Date.now()] in the cache lookup and [nowStamp] the
    reading of [new Date()] that stamps a fresh decision.  The router is
    returned as the call leaves it, also when the call throws. *)
Definition route (registry : AdapterRegistry.Registry St) (rt : Router) (task : Task)
    (nowCheck nowStamp : Z) : Completion RoutingDecision * Router :=
  (* Check cache first *)
  match _generateCacheKey task with
  | Throw m => (Throw m, rt)
  | Normal cacheKey =>
      match _getCachedRoute rt cacheKey nowCheck with
      | (Some cached, rt1) =>
          (Normal cached, emit rt1 (CacheHit (id task) (name (rd_adapter cached))))
      | (None, rt1) =>
          (* Analyze task requirements *)
          match analyzeTask task with
          | Throw m => (Throw m, rt1)
          | Normal reqs =>
              (* Find matching adapters *)
              let rt2 :=
                {| preferences := preferences rt1; _routingCache := _routingCache rt1;
                   nextOid := nextOid rt1; registryQueries := S (registryQueries rt1);
                   emitted := emitted rt1 |} in
              match AdapterRegistry.selectOptimalAdapter registry reqs (preferences rt2) with
              | None => (Throw "No suitable adapter found for task requirements", rt2)
              | Some selection =>
                  (* Determine execution strategy *)
                  let strategy :=
                    _selectStrategy rt2 (AdapterRegistry.m_adapter selection) task reqs in
                  let routingDecision :=
                    {| oid := nextOid rt2;
                       rd_adapter := AdapterRegistry.m_adapter selection;
                       adapterName := AdapterRegistry.m_name selection;
                       adapterVersion := AdapterRegistry.m_version selection;
                       strategy := strategy;
                       requirements := reqs;
                       rd_score := AdapterRegistry.m_score selection;
                       timestamp := nowStamp |} in
                  let rt3 :=
                    {| preferences := preferences rt2; _routingCache := _routingCache rt2;
                       nextOid := S (nextOid rt2); registryQueries := registryQueries rt2;
                       emitted := emitted rt2 |} in
                  (* Cache the decision *)
                  let rt4 := _cacheRoute rt3 cacheKey routingDecision in
                  (* Emit routing event *)
                  (Normal routingDecision,
                   emit rt4 (TaskRouted (id task) (type task)
                               (AdapterRegistry.m_name selection)
                               (AdapterRegistry.m_version selection) strategy))
              end
          end
      end
  end.

(** [clearCache()] *)
Definition clearCache (rt : Router) : Router :=
  emit (withCache rt OMap.empty) CacheCleared.

(** Every cached decision was built before the next object identity is
    handed out. *)
Definition oidsAllocated (rt : Router) : Prop :=
  forall k e, In (k, e) (_routingCache rt) -> oid e < nextOid rt.

End WithAdapterState.
Arguments Router St : clear implicits.
Arguments RoutingDecision St : clear implicits.

End TaskRouter.

(* ================================================================== *)
(** ** Orchestration strategy engine: [OrchestrationStrategy] *)
(* ================================================================== *)

Module OrchestrationStrategy.

Inductive Status : Type := skipped | success | failed.

(** One entry of the attempt trail *)
Record StrategyAttempt : Type := {
  att_strategy : string;
  att_status : Status;
  att_reason : option string;
  att_error : option string;
  att_duration : N
}.

(** What [execute] resolves with: the strategy's own result and, when
    the chain produced it, the properties spread over it.  A property
    that the returned object does not have is [None]. *)
Record ExecutionResult : Type := {
  payload : Result;
  res_strategy : option string;
  res_attempts : option (list StrategyAttempt);
  res_totalDuration : option N
}.

(** The error thrown when the chain is exhausted *)
Record ExhaustedError : Type := {
  message : string;
  err_attempts : list StrategyAttempt;
  err_duration : N
}.

(** How the promise returned by [execute] ends. *)
Inductive Outcome : Type :=
| Returned (r : ExecutionResult)
| Thrown (e : ExhaustedError)
| Hangs.

Record StrategyStats : Type := {
  attempts : nat;
  successes : nat;
  failures : nat;
  totalDuration : N;
  failureReasons : option (OMap.t nat)
}.

Inductive Event : Type :=
| StrategySuccess (taskId strategy : string) (duration : N) (trail : list StrategyAttempt)
| StrategyFailed (taskId strategy error : string) (duration : N)
| StrategyExhausted (taskId : string) (trail : list StrategyAttempt) (duration : N)
| BatchCompleted (taskId batchId : string) (progress : Q)
| ChunkDelivered (chunk : string) (progress : Q).

(** The engine's own mutable state: statistics, and the notifications
    and chunk callbacks issued so far. *)
Record Engine : Type := {
  strategyStats : OMap.t StrategyStats;
  emitted : list Event
}.

Record Options : Type := {
  opt_strategies : option (list string);
  opt_timeout : option N;
  opt_batchSize : option nat;
  opt_orchestrationMode : option string;
  opt_onChunk : bool
}.

Definition noOptions : Options :=
  {| opt_strategies := None; opt_timeout := None; opt_batchSize := None;
     opt_orchestrationMode := None; opt_onChunk := false |}.

(** Default fallback chain *)
Definition defaultStrategies : list string :=
  ["subAgents"; "parallel"; "streaming"; "batched"; "sequential"].

(** Strategy timeout configurations, in milliseconds *)
Definition timeouts (strategy : string) : option N :=
  if String.eqb strategy "subAgents" then Some 300000%N
  else if String.eqb strategy "parallel" then Some 180000%N
  else if String.eqb strategy "streaming" then Some 120000%N
  else if String.eqb strategy "batched" then Some 90000%N
  else if String.eqb strategy "sequential" then Some 60000%N
  else None.

Definition create : Engine := {| strategyStats := OMap.empty; emitted := [] |}.

Definition emit (e : Engine) (ev : Event) : Engine :=
  {| strategyStats := strategyStats e; emitted := emitted e ++ [ev] |}.

Definition newStats : StrategyStats :=
  {| attempts := 0; successes := 0; failures := 0; totalDuration := 0%N;
     failureReasons := None |}.

Definition statsOf (e : Engine) (strategy : string) : StrategyStats :=
  match OMap.get strategy (strategyStats e) with Some s => s | None => newStats end.

(** [_recordSuccess(strategy, duration)] *)
Definition _recordSuccess (e : Engine) (strategy : string) (duration : N) : Engine :=
  let stats := statsOf e strategy in
  {| strategyStats :=
       OMap.set strategy
         {| attempts := S (attempts stats); successes := S (successes stats);
            failures := failures stats;
            totalDuration := (totalDuration stats + duration)%N;
            failureReasons := failureReasons stats |}
         (strategyStats e);
     emitted := emitted e |}.

(** [_recordFailure(strategy, error)] *)
Definition _recordFailure (e : Engine) (strategy : string) (reason : string) : Engine :=
  let stats := statsOf e strategy in
  (* Track failure reasons *)
  let reasons := match failureReasons stats with Some m => m | None => OMap.empty end in
  let count := match OMap.get reason reasons with Some c => c | None => 0 end in
  {| strategyStats :=
       OMap.set strategy
         {| attempts := S (attempts stats); successes := successes stats;
            failures := S (failures stats);
            totalDuration := totalDuration stats;
            failureReasons := Some (OMap.set reason (count + 1) reasons) |}
         (strategyStats e);
     emitted := emitted e |}.

(* ------------------------------------------------------------------ *)
(** *** Statistics *)

(** One entry of the object returned by [getStatistics] *)
Record StrategyReport : Type := {
  rep_attempts : nat;
  rep_successes : nat;
  rep_failures : nat;
  rep_totalDuration : N;
  successRate : Q;
  avgDuration : Q;
  topFailureReasons : option (list (string * nat))
}.

Definition reportOf (data : StrategyStats) : StrategyReport :=
  {| rep_attempts := attempts data;
     rep_successes := successes data;
     rep_failures := failures data;
     rep_totalDuration := totalDuration data;
     successRate :=
       if Nat.ltb 0 (attempts data)
       then (QofNat (successes data) / QofNat (attempts data))%Q else 0%Q;
     avgDuration :=
       if Nat.ltb 0 (successes data)
       then (inject_Z (Z.of_N (totalDuration data)) / QofNat (successes data))%Q else 0%Q;
     topFailureReasons :=
       match failureReasons data with
       | Some reasons => Some (firstn 3 (sortDesc (fun e => QofNat (snd e)) reasons))
       | None => None
       end |}.

(** [getStatistics()] *)
Definition getStatistics (e : Engine) : list (string * StrategyReport) :=
  map (fun entry => (fst entry, reportOf (snd entry))) (strategyStats e).

(** The failures counted under the recorded reasons *)
Definition reasonTotal (data : StrategyStats) : nat :=
  match failureReasons data with
  | Some reasons => list_sum (map snd reasons)
  | None => 0
  end.

(** Every recorded attempt is a success or a failure, and every failure
    is counted under one reason. *)
Definition statsBalanced (e : Engine) : Prop :=
  forall strategy data,
    In (strategy, data) (strategyStats e) ->
    attempts data = successes data + failures data
    /\ reasonTotal data = failures data.

(* ------------------------------------------------------------------ *)
(** *** Decomposition *)

Definition withRole (task : Task) (r f : string) : Task :=
  {| id := id task; type := type task; description := description task;
     context := context task; extensions := extensions task;
     complexity := complexity task; task_streaming := task_streaming task;
     executionStrategy := executionStrategy task; role := Some r; focus := Some f |}.

(** [{...task, id, context: {...task.context, files}}] *)
Definition withFiles (task : Task) (newId : string) (fs : list string) : Task :=
  {| id := newId; type := type task; description := description task;
     context :=
       Some {| files := Some fs;
               content := match context task with Some c => content c | None => None end;
               code := match context task with Some c => code c | None => None end |};
     extensions := extensions task;
     complexity := complexity task; task_streaming := task_streaming task;
     executionStrategy := executionStrategy task; role := role task; focus := focus task |}.

(** [{...task, streaming: true, onChunk}] *)
Definition asStreamConfig (task : Task) : Task :=
  {| id := id task; type := type task; description := description task;
     context := context task; extensions := extensions task;
     complexity := complexity task; task_streaming := true;
     executionStrategy := executionStrategy task; role := role task; focus := focus task |}.

(** The slices [l.slice(i, i + n)] for [i = 0, n, 2n, ...] below the
    length of [l], each with its start index. *)
Fixpoint slicesFrom {A : Type} (fuel i n : nat) (l : list A) : list (nat * list A) :=
  match fuel with
  | O => []
  | S fuel' =>
      match l with
      | [] => []
      | _ => (i, firstn n l) :: slicesFrom fuel' (i + n) n (skipn n l)
      end
  end.

Definition slices {A : Type} (n : nat) (l : list A) : list (nat * list A) :=
  slicesFrom (List.length l) 0 n l.

Definition taskFiles (task : Task) : list string :=
  match context task with
  | Some c => match files c with Some fs => fs | None => [] end
  | None => []
  end.

Definition ceilDiv (a b : nat) : nat := (a + b - 1) / b.

(** [_decomposeForSubAgents(task, maxAgents)], for [maxAgents >= 1] *)
Definition _decomposeForSubAgents (task : Task) (maxAgents : nat) : list Task :=
  let subtasks :=
    (* Simple decomposition by task type *)
    if String.eqb (type task) "generation" then
      [ withRole task "architect" "design";
        withRole task "implementer" "code";
        withRole task "reviewer" "quality" ]
    else if String.eqb (type task) "refactoring" then
      [ withRole task "analyzer" "current-state";
        withRole task "refactorer" "improvements";
        withRole task "validator" "correctness" ]
    else
      (* Generic decomposition by files *)
      if Nat.ltb 1 (fileCount task) then
        let filesPerAgent := ceilDiv (fileCount task) maxAgents in
        map (fun s : nat * list string =>
               withFiles task (id task ++ "-sub-" ++ natToString (fst s)) (snd s))
            (slices filesPerAgent (taskFiles task))
      else [task] in
  firstn maxAgents subtasks.

Fixpoint mapi {A B : Type} (f : nat -> A -> B) (i : nat) (l : list A) : list B :=
  match l with
  | [] => []
  | x :: r => f i x :: mapi f (S i) r
  end.

(** [_decomposeForParallel(task)] *)
Definition _decomposeForParallel (task : Task) : list Task :=
  (* If task has multiple files, split by file *)
  if Nat.ltb 1 (fileCount task) then
    mapi (fun i file => withFiles task (id task ++ "-parallel-" ++ natToString i) [file])
         0 (taskFiles task)
  else [task].       (* Otherwise, can't parallelize *)

(* ------------------------------------------------------------------ *)
(** *** Aggregation *)

Definition artifactsOf (r : Result) : list string :=
  match artifacts r with Some l => l | None => [] end.

(** An entry of the parallel result list: an adapter result, or the
    [{error, task}] object built when the sub-task was rejected. *)
Definition ParallelItem : Type := (Result + (string * Task))%type.

(** [r.error]: the property of an adapter result that has one (the
    repository's adapters resolve with [{status: 'failed', error}] when
    their tool fails), or the message of the rejection. *)
Definition itemError (r : ParallelItem) : option string :=
  match r with
  | inl x => error x
  | inr (msg, _) => Some msg
  end.

(** [!r.error]: a missing [error] and an empty one are falsy. *)
Definition itemOk (r : ParallelItem) : bool :=
  match itemError r with
  | Some e => String.eqb e ""
  | None => true
  end.

Definition itemOutput (r : ParallelItem) : option string :=
  match r with inl x => output x | inr _ => None end.

Definition itemArtifacts (r : ParallelItem) : list string :=
  match r with inl x => artifactsOf x | inr _ => [] end.

(** [{ task: f.task.id, error: f.error }]: an adapter result has no
    [task], so that reading [f.task.id] throws. *)
Definition itemFailure (r : ParallelItem) : Completion ParallelFailure :=
  match r with
  | inl _ => Throw "Cannot read properties of undefined (reading 'id')"
  | inr (msg, t) => Normal {| pf_task := id t; pf_error := msg |}
  end.

(** [l.map(f)] for an [f] that may throw *)
Fixpoint mapThrowing {A B : Type} (f : A -> Completion B) (l : list A)
  : Completion (list B) :=
  match l with
  | [] => Normal []
  | x :: r =>
      y <- f x ;;
      ys <- mapThrowing f r ;;
      Normal (y :: ys)
  end.

Definition separator : string := String (ascii_of_nat 10) ("---" ++ String (ascii_of_nat 10) "").

(** [_aggregateParallelResults(results, originalTask)] *)
Definition _aggregateParallelResults (results : list ParallelItem) (originalTask : Task)
  : Completion Result :=
  let ok := filter itemOk results in
  let bad := filter (fun r => negb (itemOk r)) results in
  if Nat.eqb (List.length ok) 0 then Throw "All parallel tasks failed"
  else
    failures <- mapThrowing itemFailure bad ;;
    Normal {| taskId := Some (id originalTask);
              status := Some (if Nat.ltb 0 (List.length bad) then "partial" else "completed");
              (* Merge outputs *)
              output := Some (join separator (map itemOutput ok));
              error := None;
              artifacts := Some (flat_map itemArtifacts ok);
              batchCount := None;
              parallelResults :=
                Some {| pr_successful := List.length ok; pr_failed := List.length bad;
                        pr_failures := failures |} |}.

(** [_aggregateBatchResults(results, originalTask)] *)
Definition _aggregateBatchResults (results : list Result) (originalTask : Task) : Result :=
  {| taskId := Some (id originalTask);
     status := Some "completed";
     output := Some (join separator (map output results));
     error := None;
     artifacts := Some (flat_map artifactsOf results);
     batchCount := Some (List.length results);
     parallelResults := None |}.

(* ------------------------------------------------------------------ *)
(** *** Availability and suitability *)

Section WithAdapter.
Context {St : Type}.
Variable adapter : Adapter St.

(** [_isStrategyAvailable(strategy)] *)
Definition _isStrategyAvailable (strategy : string) : bool :=
  if String.eqb strategy "subAgents" then supportsFeature adapter "subAgents"
  else if String.eqb strategy "parallel" then supportsFeature adapter "parallelExecution"
  else if String.eqb strategy "streaming" then supportsFeature adapter "streaming"
  else if String.eqb strategy "batched" then true      (* Always available *)
  else if String.eqb strategy "sequential" then true   (* Always available *)
  else false.

Definition noDescription (prop : string) : string :=
  "Cannot read properties of undefined (reading '" ++ prop ++ "')".

(** [_isStrategySuitable(strategy, task)]; reading a property of a
    missing description throws. *)
Definition _isStrategySuitable (strategy : string) (task : Task) : Completion bool :=
  if String.eqb strategy "subAgents" then
    (* Good for complex, decomposable tasks *)
    if match complexity task with Some c => String.eqb c "high" | None => false end
    then Normal true
    else match description task with
         | None => Throw (noDescription "length")
         | Some d => Normal (Nat.ltb 500 (String.length d) || Nat.ltb 5 (fileCount task))
         end
  else if String.eqb strategy "parallel" then
    (* Good for multi-file or independent operations *)
    Normal (Nat.ltb 2 (fileCount task)
            || String.eqb (type task) "validation" || String.eqb (type task) "testing")
  else if String.eqb strategy "streaming" then
    (* Good for large outputs or real-time feedback *)
    if String.eqb (type task) "generation" || task_streaming task then Normal true
    else match description task with
         | None => Throw (noDescription "includes")
         | Some d => Normal (includes "stream" d)
         end
  else if String.eqb strategy "batched" then
    (* Good for many files or large contexts *)
    Normal (Nat.ltb 10 (fileCount task))
  else if String.eqb strategy "sequential" then
    Normal true                  (* Always suitable as fallback *)
  else Normal false.

(** [_getExplicitStrategy(task)] *)
Definition _getExplicitStrategy (task : Task) : option string :=
  (* Check vendor extensions *)
  let fromExtension :=
    match TaskRouter.vendorExtension task (name adapter) with
    | Some e => TaskRouter.truthyName (ext_executionStrategy e)
    | None => None
    end in
  match fromExtension with
  | Some s => Some s
  | None => TaskRouter.truthyName (executionStrategy task)   (* Check task metadata *)
  end.

(* ------------------------------------------------------------------ *)
(** *** Strategy implementations *)

(** Adapter state and engine state, threaded through every strategy. *)
Definition World : Type := (St * Engine)%type.

(** [_executeSequentially(task, options)]: most basic execution *)
Definition _executeSequentially (task : Task) (w : World) : Settle Result * World :=
  let '(r, st) := executeTask adapter (fst w) task in
  (r, (st, snd w)).

(** The batch loop of [_executeInBatches]: one awaited call per batch,
    a progress notification after each; the first rejection ends it. *)
Fixpoint runBatches (originalId : string) (total : nat) (batches : list Task)
    (results : list Result) (elapsed : N) (w : World) : Settle (list Result) * World :=
  match batches with
  | [] => (Resolved results elapsed, w)
  | batch :: rest =>
      let '(r, st) := executeTask adapter (fst w) batch in
      match r with
      | Resolved x ms =>
          let results' := results ++ [x] in
          (* Emit progress *)
          let e := emit (snd w)
                     (BatchCompleted originalId (id batch)
                        (QofNat (List.length results') / QofNat total)%Q) in
          runBatches originalId total rest results' (elapsed + ms)%N (st, e)
      | Rejected msg ms => (Rejected msg (elapsed + ms)%N, (st, snd w))
      | Pending => (Pending, (st, snd w))
      end
  end.

(** [options.batchSize || 5] *)
Definition batchSizeOf (options : Options) : nat :=
  match opt_batchSize options with
  | Some n => if Nat.eqb n 0 then 5 else n
  | None => 5
  end.

(** [_executeInBatches(task, options)] *)
Definition _executeInBatches (task : Task) (options : Options) (w : World)
  : Settle Result * World :=
  let batchSize := batchSizeOf options in
  let hasFiles :=
    match context task with
    | Some c => match files c with Some _ => true | None => false end
    | None => false
    end in
  (* Check if task can be batched *)
  if negb hasFiles || Nat.leb (fileCount task) batchSize
  then _executeSequentially task w
  else
    (* Split into batches *)
    let batches :=
      map (fun s : nat * list string =>
             withFiles task (id task ++ "-batch-" ++ natToString (fst s)) (snd s))
          (slices batchSize (taskFiles task)) in
    (* Execute batches *)
    match runBatches (id task) (List.length batches) batches [] 0%N w with
    | (Resolved results ms, w') => (Resolved (_aggregateBatchResults results task) ms, w')
    | (Rejected msg ms, w') => (Rejected msg ms, w')
    | (Pending, w') => (Pending, w')
    end.

(** The calls of one parallel batch, started in order. *)
Fixpoint launchAll (ts : list Task) (st : St) : list (Settle Result * Task) * St :=
  match ts with
  | [] => ([], st)
  | t :: rest =>
      let '(s, st1) := executeTask adapter st t in
      let '(others, st2) := launchAll rest st1 in
      ((s, t) :: others, st2)
  end.

(** [Promise.all] over calls whose rejection is caught into an
    [{error, task}] item: settled when the slowest call is, never when
    one call stays pending. *)
Fixpoint awaitAll (l : list (Settle Result * Task)) : option (list ParallelItem * N) :=
  match l with
  | [] => Some ([], 0%N)
  | (s, t) :: rest =>
      match s, awaitAll rest with
      | Resolved x ms, Some (items, m) => Some (inl x :: items, N.max ms m)
      | Rejected msg ms, Some (items, m) => Some (inr (msg, t) :: items, N.max ms m)
      | _, _ => None
      end
  end.

Fixpoint runParallelBatches (batches : list (nat * list Task)) (results : list ParallelItem)
    (elapsed : N) (st : St) : option (list ParallelItem * N) * St :=
  match batches with
  | [] => (Some (results, elapsed), st)
  | (_, batch) :: rest =>
      let '(launched, st1) := launchAll batch st in
      match awaitAll launched with
      | Some (items, m) => runParallelBatches rest (results ++ items) (elapsed + m)%N st1
      | None => (None, st1)
      end
  end.

(** [config.maxConcurrent || fallback] with [config = getFeatureConfig(f) || {}] *)
Definition maxConcurrentOf (feature : string) (fallback : nat) : nat :=
  match getFeatureConfig adapter feature with
  | Some config =>
      match maxConcurrent config with
      | Some n => if Nat.eqb n 0 then fallback else n
      | None => fallback
      end
  | None => fallback
  end.

(** [_executeInParallel(task, options)] *)
Definition _executeInParallel (task : Task) (options : Options) (w : World)
  : Settle Result * World :=
  if negb (supportsFeature adapter "parallelExecution")
  then (Rejected "Parallel execution not supported" 0%N, w)
  else
    (* Decompose task for parallel execution *)
    let parallelTasks := _decomposeForParallel task in
    if Nat.leb (List.length parallelTasks) 1
    then _executeSequentially task w         (* Not worth parallelizing *)
    else
      (* Get parallel configuration *)
      let limit := maxConcurrentOf "parallelExecution" 5 in
      (* Execute in batches if needed *)
      match runParallelBatches (slices limit parallelTasks) [] 0%N (fst w) with
      | (Some (results, ms), st) =>
          (* Aggregate results *)
          match _aggregateParallelResults results task with
          | Normal r => (Resolved r ms, (st, snd w))
          | Throw msg => (Rejected msg ms, (st, snd w))
          end
      | (None, st) => (Pending, (st, snd w))
      end.

(** The chunk callbacks of simulated streaming: slices of 1000
    characters, each with the fraction of the output before it. *)
Definition simulatedChunks (out : string) : list Event :=
  let chunkSize := 1000 in
  map (fun k =>
         let i := k * chunkSize in
         ChunkDelivered (String.substring i chunkSize out)
                        (QofNat i / QofNat (String.length out))%Q)
      (seq 0 (ceilDiv (String.length out) chunkSize)).

(** [_executeWithStreaming(task, options)].  The chunk callbacks an
    adapter's own streaming entry point may issue are the adapter's
    business and are not recorded. *)
Definition _executeWithStreaming (task : Task) (options : Options) (w : World)
  : Settle Result * World :=
  if negb (supportsFeature adapter "streaming")
  then (Rejected "Streaming not supported" 0%N, w)
  else
    match executeWithStreaming adapter with
    | Some native =>
        let '(r, st) := native (fst w) (asStreamConfig task) in
        (r, (st, snd w))
    | None =>
        (* Fallback to regular execution with simulated streaming *)
        let '(r, st) := executeTask adapter (fst w) task in
        match r with
        | Resolved result ms =>
            let out := match output result with Some o => o | None => "" end in
            (* Simulate streaming by chunking the output *)
            if negb (String.eqb out "") && opt_onChunk options
            then (Resolved result ms,
                  (st, {| strategyStats := strategyStats (snd w);
                          emitted := emitted (snd w) ++ simulatedChunks out |}))
            else (Resolved result ms, (st, snd w))
        | _ => (r, (st, snd w))
        end
    end.

(** [_executeWithSubAgents(task, options)] *)
Definition _executeWithSubAgents (task : Task) (options : Options) (w : World)
  : Settle Result * World :=
  if negb (supportsFeature adapter "subAgents")
  then (Rejected "Sub-agents not supported" 0%N, w)
  else
    (* Get sub-agent configuration *)
    let limit := maxConcurrentOf "subAgents" 3 in
    (* Decompose task into subtasks *)
    let subtasks := _decomposeForSubAgents task limit in
    (* Create sub-agent execution plan *)
    let plan :=
      {| orchestrationMode :=
           match TaskRouter.truthyName (opt_orchestrationMode options) with
           | Some m => m
           | None => "parallel"
           end;
         subtasks := subtasks;
         agents :=
           mapi (fun i st =>
                   {| agent_id := "agent-" ++ natToString i;
                      agent_role :=
                        match TaskRouter.truthyName (role st) with
                        | Some r => r
                        | None => "worker"
                        end;
                      agent_task := st |})
                0 subtasks |} in
    (* Execute via adapter's sub-agent mechanism *)
    match executeWithSubAgents adapter with
    | Some run =>
        let '(r, st) := run (fst w) plan in
        (r, (st, snd w))
    | None => (Rejected "Sub-agent execution not implemented" 0%N, w)
    end.

(** [_executeStrategy(strategy, task, options)] *)
Definition _executeStrategy (strategy : string) (task : Task) (options : Options)
    (w : World) : Settle Result * World :=
  if String.eqb strategy "subAgents" then _executeWithSubAgents task options w
  else if String.eqb strategy "parallel" then _executeInParallel task options w
  else if String.eqb strategy "streaming" then _executeWithStreaming task options w
  else if String.eqb strategy "batched" then _executeInBatches task options w
  else _executeSequentially task w.         (* case 'sequential': default: *)

(* ------------------------------------------------------------------ *)
(** *** A strategy overtaken by the timer of the chain *)

(** When the timer of the chain fires, the strategy it overtakes is
    not cancelled: the adapter calls it has started stay started, and
    the ones it has not started yet have not been made when the chain
    turns to its next candidate.  The functions below give the world
    at that instant, [deadline] milliseconds after the strategy was
    started: a step of the strategy that falls on the instant itself
    comes before the timer.  What an overtaken strategy goes on to do
    after that instant is not followed. *)

(** The batch loop of [_executeInBatches] up to the deadline *)
Fixpoint runBatchesUntil (deadline : N) (originalId : string) (total : nat)
    (batches : list Task) (results : list Result) (elapsed : N) (w : World) : World :=
  match batches with
  | [] => w
  | batch :: rest =>
      let '(r, st) := executeTask adapter (fst w) batch in
      match r with
      | Resolved x ms =>
          if N.leb (elapsed + ms) deadline then
            let results' := results ++ [x] in
            let e := emit (snd w)
                       (BatchCompleted originalId (id batch)
                          (QofNat (List.length results') / QofNat total)%Q) in
            runBatchesUntil deadline originalId total rest results' (elapsed + ms)%N (st, e)
          else (st, snd w)
      | _ => (st, snd w)
      end
  end.

(** [_executeInBatches(task, options)] up to the deadline *)
Definition _executeInBatchesUntil (deadline : N) (task : Task) (options : Options)
    (w : World) : World :=
  let batchSize := batchSizeOf options in
  let hasFiles :=
    match context task with
    | Some c => match files c with Some _ => true | None => false end
    | None => false
    end in
  if negb hasFiles || Nat.leb (fileCount task) batchSize
  then snd (_executeSequentially task w)
  else
    let batches :=
      map (fun s : nat * list string =>
             withFiles task (id task ++ "-batch-" ++ natToString (fst s)) (snd s))
          (slices batchSize (taskFiles task)) in
    runBatchesUntil deadline (id task) (List.length batches) batches [] 0%N w.

(** The loop of [_executeInParallel] up to the deadline: the adapter
    state after the batches of calls started by then *)
Fixpoint runParallelBatchesUntil (deadline : N) (batches : list (nat * list Task))
    (elapsed : N) (st : St) : St :=
  match batches with
  | [] => st
  | (_, batch) :: rest =>
      let '(launched, st1) := launchAll batch st in
      match awaitAll launched with
      | Some (_, m) =>
          if N.leb (elapsed + m) deadline
          then runParallelBatchesUntil deadline rest (elapsed + m)%N st1
          else st1
      | None => st1
      end
  end.

(** [_executeInParallel(task, options)] up to the deadline *)
Definition _executeInParallelUntil (deadline : N) (task : Task) (options : Options)
    (w : World) : World :=
  if negb (supportsFeature adapter "parallelExecution") then w
  else
    let parallelTasks := _decomposeForParallel task in
    if Nat.leb (List.length parallelTasks) 1
    then snd (_executeSequentially task w)
    else
      let limit := maxConcurrentOf "parallelExecution" 5 in
      (runParallelBatchesUntil deadline (slices limit parallelTasks) 0%N (fst w), snd w).

(** [_executeStrategy(strategy, task, options)] up to the deadline.  The
    other strategies make one adapter call, at once; the chunks of
    simulated streaming are handed out when that call has resolved,
    which is after the deadline here. *)
Definition _executeStrategyUntil (deadline : N) (strategy : string) (task : Task)
    (options : Options) (w : World) : World :=
  if String.eqb strategy "parallel" then _executeInParallelUntil deadline task options w
  else if String.eqb strategy "batched" then _executeInBatchesUntil deadline task options w
  else (fst (snd (_executeStrategy strategy task options w)), snd w).

(** Whether a promise has settled when [deadline] milliseconds have passed *)
Definition settledBy {A : Type} (promise : Settle A) (deadline : N) : bool :=
  match promise with
  | Resolved _ ms | Rejected _ ms => N.leb ms deadline
  | Pending => false
  end.

(* ------------------------------------------------------------------ *)
(** *** The fallback chain *)

(** The greatest delay a timer of the runtime accepts, in milliseconds *)
Definition TIMEOUT_MAX : N := 2147483647.

(** The delay [setTimeout(callback, ms)] arms its timer with: a delay
    below 1 or above [TIMEOUT_MAX] is set to 1. *)
Definition timerDelay (ms : N) : N :=
  if N.ltb ms 1 || N.ltb TIMEOUT_MAX ms then 1%N else ms.

(** [_executeWithTimeout(promise, timeout)]: the race against a timer
    armed with [timeout].  A promise that settles no later than the
    timer fires wins; the loser is not cancelled. *)
Definition _executeWithTimeout {A : Type} (promise : Settle A) (timeout : N) : Settle A :=
  let delay := timerDelay timeout in
  match promise with
  | Resolved a ms => if N.leb ms delay then Resolved a ms else Rejected "Strategy timeout" delay
  | Rejected m ms => if N.leb ms delay then Rejected m ms else Rejected "Strategy timeout" delay
  | Pending => Rejected "Strategy timeout" delay
  end.

(** [options.timeout || this.timeouts[strategy]] as the timer of the
    chain takes it: an undefined delay, like one out of range, fires
    after one millisecond. *)
Definition timeoutFor (options : Options) (strategy : string) : N :=
  let configured := match timeouts strategy with Some t => t | None => 1%N end in
  timerDelay
    match opt_timeout options with
    | Some t => if N.eqb t 0 then configured else t
    | None => configured
    end.

Definition skippedAttempt (strategy reason : string) : StrategyAttempt :=
  {| att_strategy := strategy; att_status := skipped; att_reason := Some reason;
     att_error := None; att_duration := 0%N |}.

Definition successAttempt (strategy : string) (duration : N) : StrategyAttempt :=
  {| att_strategy := strategy; att_status := success; att_reason := None;
     att_error := None; att_duration := duration |}.

Definition failedAttempt (strategy error : string) (duration : N) : StrategyAttempt :=
  {| att_strategy := strategy; att_status := failed; att_reason := None;
     att_error := Some error; att_duration := duration |}.

(** The [catch] block of the chain loop *)
Definition onFailure (task : Task) (strategy error : string) (duration : N)
    (trail : list StrategyAttempt) (w : World) : list StrategyAttempt * World :=
  let e1 := _recordFailure (snd w) strategy error in
  (trail ++ [failedAttempt strategy error duration],
   (fst w, emit e1 (StrategyFailed (id task) strategy error duration))).

(** One turn of the loop "try each strategy in order": either the loop
    is left with the outcome of [execute], or it goes on with the next
    strategy. *)
Inductive Turn : Type :=
| Leave (o : Outcome) (w : World)
| Continue (elapsed : N) (trail : list StrategyAttempt) (w : World).

(** The loop body of [execute] for one strategy.  [elapsed] is
    [Date.now() - startTime] on entry and [trail] the attempts pushed so
    far.  [timeout] is the delay the timer takes ([timeoutFor]). *)
Definition attempt (strategy : string) (task : Task) (options : Options)
    (elapsed : N) (trail : list StrategyAttempt) (w : World) : Turn :=
  (* Check if strategy is available *)
  if negb (_isStrategyAvailable strategy) then
    Continue elapsed (trail ++ [skippedAttempt strategy "Not available"]) w
  else
    (* Check if strategy is suitable for task *)
    match _isStrategySuitable strategy task with
    | Throw msg =>
        let '(trail', w') := onFailure task strategy msg 0%N trail w in
        Continue elapsed trail' w'
    | Normal false =>
        Continue elapsed (trail ++ [skippedAttempt strategy "Not suitable for task"]) w
    | Normal true =>
        (* Execute with timeout *)
        let timeout := timeoutFor options strategy in
        let '(settled, w1) := _executeStrategy strategy task options w in
        match _executeWithTimeout settled timeout with
        | Resolved result duration =>
            (* Record success *)
            let e1 := _recordSuccess (snd w1) strategy duration in
            let trail' := trail ++ [successAttempt strategy duration] in
            (* Emit success event *)
            let e2 := emit e1 (StrategySuccess (id task) strategy duration trail') in
            Leave (Returned {| payload := result;
                               res_strategy := Some strategy;
                               res_attempts := Some trail';
                               res_totalDuration := Some (elapsed + duration)%N |})
                  (fst w1, e2)
        | Rejected msg duration =>
            (* The strategy has thrown, or the timer has fired first: then
               the strategy is left as it stands at that instant. *)
            let w2 :=
              if settledBy settled timeout then w1
              else _executeStrategyUntil timeout strategy task options w in
            let '(trail', w') := onFailure task strategy msg duration trail w2 in
            Continue (elapsed + duration)%N trail' w'
        | Pending => Leave Hangs w1
        end
    end.

(** The loop of [execute] over the candidate strategies *)
Fixpoint chain (strategies : list string) (task : Task) (options : Options)
    (elapsed : N) (trail : list StrategyAttempt) (w : World) : Outcome * World :=
  match strategies with
  | [] =>
      (* All strategies failed *)
      (Thrown {| message := "All execution strategies failed";
                 err_attempts := trail; err_duration := elapsed |},
       (fst w, emit (snd w) (StrategyExhausted (id task) trail elapsed)))
  | strategy :: rest =>
      match attempt strategy task options elapsed trail w with
      | Leave o w' => (o, w')
      | Continue elapsed' trail' w' => chain rest task options elapsed' trail' w'
      end
  end.

(** The loop run over [strategies] alone: where [chain] stands after
    them, before it looks at any further candidate. *)
Fixpoint turns (strategies : list string) (task : Task) (options : Options)
    (elapsed : N) (trail : list StrategyAttempt) (w : World) : Turn :=
  match strategies with
  | [] => Continue elapsed trail w
  | strategy :: rest =>
      match attempt strategy task options elapsed trail w with
      | Leave o w' => Leave o w'
      | Continue elapsed' trail' w' => turns rest task options elapsed' trail' w'
      end
  end.

(** [execute(task, options = {})] *)
Definition execute (task : Task) (options : Options) (w : World) : Outcome * World :=
  let strategies :=
    match opt_strategies options with Some l => l | None => defaultStrategies end in
  (* Check for explicit strategy in task *)
  match _getExplicitStrategy task with
  | Some explicitStrategy =>
      match _executeStrategy explicitStrategy task options w with
      | (Resolved result ms, w1) =>
          (Returned {| payload := result; res_strategy := None;
                       res_attempts := None; res_totalDuration := None |},
           (fst w1, _recordSuccess (snd w1) explicitStrategy ms))
      | (Rejected msg ms, w1) =>
          (* Continue with fallback strategies *)
          chain strategies task options ms []
                (fst w1, _recordFailure (snd w1) explicitStrategy msg)
      | (Pending, w1) => (Hangs, w1)
      end
  | None => chain strategies task options 0%N [] w
  end.

End WithAdapter.

(** The attempt pattern "four skips followed by one success", resolved
    via [sequential]. *)
Definition fourSkipsThenSuccess (o : Outcome) : Prop :=
  exists r,
    o = Returned r
    /\ res_strategy r = Some "sequential"
    /\ option_map (map att_status) (res_attempts r)
       = Some [skipped; skipped; skipped; skipped; success].

(** The trail opens with the failed attempt of [explicit], and no later
    entry is another execution of [explicit]. *)
Definition explicitFailureLeadsTrail (explicit : string) (o : Outcome) : Prop :=
  exists r first rest,
    o = Returned r
    /\ res_attempts r = Some (first :: rest)
    /\ att_strategy first = explicit /\ att_status first = failed
    /\ forall a, In a rest -> att_strategy a = explicit -> att_status a = skipped.

(** The outcome carries an attempt trail. *)
Definition carriesTrail (o : Outcome) : Prop :=
  match o with
  | Returned r => exists trail, res_attempts r = Some trail
  | Thrown e => True
  | Hangs => False
  end.

(** The candidate list [options.strategies || this.defaultStrategies] *)
Definition candidatesOf (options : Options) : list string :=
  match opt_strategies options with Some l => l | None => defaultStrategies end.

(** The time spent in the attempts of a trail *)
Definition trailDuration (entries : list StrategyAttempt) : N :=
  fold_right (fun a acc => (att_duration a + acc)%N) 0%N entries.

(** The timeouts of a candidate list, added up *)
Definition timeBudget (options : Options) (l : list string) : N :=
  fold_right (fun s acc => (timeoutFor options s + acc)%N) 0%N l.

(** The chunk and progress fraction handed to the chunk callback *)
Definition chunkOf (ev : Event) : option (string * Q) :=
  match ev with
  | ChunkDelivered chunk progress => Some (chunk, progress)
  | _ => None
  end.

(** [s.slice(n)]: [s] without its first [n] characters *)
Fixpoint dropChars (n : nat) (s : string) : string :=
  match n, s with
  | O, _ => s
  | S n', EmptyString => EmptyString
  | S n', String _ r => dropChars n' r
  end.

(** The trail an outcome carries: the [attempts] of the result or of
    the error, none where the object has no such property. *)
Definition trailOf (o : Outcome) : list StrategyAttempt :=
  match o with
  | Returned r => match res_attempts r with Some trail => trail | None => [] end
  | Thrown e => err_attempts e
  | Hangs => []
  end.

(** An entry that stands for an execution of [strategy]: one that was
    not skipped *)
Definition executed (strategy : string) (a : StrategyAttempt) : bool :=
  String.eqb (att_strategy a) strategy
  && match att_status a with skipped => false | _ => true end.

Definition executions (strategy : string) (trail : list StrategyAttempt) : nat :=
  List.length (filter (executed strategy) trail).

(** 1 when the task names [strategy] as its explicit strategy *)
Definition explicitRuns {St : Type} (adapter : Adapter St) (task : Task) (strategy : string)
  : nat :=
  match _getExplicitStrategy adapter task with
  | Some e => if String.eqb e strategy then 1 else 0
  | None => 0
  end.

(** An attempt that was skipped or failed, within its strategy's timeout *)
Definition passedOver (options : Options) (a : StrategyAttempt) : Prop :=
  att_status a <> success
  /\ (att_duration a <= timeoutFor options (att_strategy a))%N.

End OrchestrationStrategy.

(* ================================================================== *)
(** ** Base adapter class: feature flags and vendor extensions *)
(* ================================================================== *)

(* ================================================================== *)
(** ** Batch routing: [TaskRouter.routeBatch] *)
(* ================================================================== *)

Module TaskGrouping.
Import TaskRouter.

Definition emptyContext : Context := {| files := None; content := None; code := None |}.

(** [Math.abs(size1 - size2) / Math.max(size1, size2)]; [None] is the
    [NaN] of 0 / 0.  Sizes are far below 2^53, where the comparison of
    the quotient with 0.2 agrees with the exact one. *)
Definition sizeDiff (size1 size2 : nat) : option Q :=
  if Nat.eqb (Nat.max size1 size2) 0 then None
  else Some (QofNat (Nat.max size1 size2 - Nat.min size1 size2)
             / QofNat (Nat.max size1 size2))%Q.

Definition extensionNames (task : Task) : string :=
  join "," (map Some (sortStrings
                        (match extensions task with Some es => map fst es | None => [] end))).

(** [_areSimilarTasks(task1, task2)] *)
Definition _areSimilarTasks (task1 task2 : Task) : bool :=
  (* Same type is required *)
  if negb (String.eqb (type task1) (type task2)) then false
  else
    (* Similar context size (within 20%) *)
    let size1 :=
      _estimateContextSize (match context task1 with Some c => c | None => emptyContext end) in
    let size2 :=
      _estimateContextSize (match context task2 with Some c => c | None => emptyContext end) in
    if match sizeDiff size1 size2 with Some q => Qltb (2 # 10) q | None => false end
    then false
    else
      (* Same vendor extensions *)
      if negb (String.eqb (extensionNames task1) (extensionNames task2)) then false
      else true.

(** The inner loop of [_groupSimilarTasks]: the group of [task] and the
    ids processed so far *)
Definition gather (task : Task) (tasks : list Task) (start : list Task * list string)
  : list Task * list string :=
  fold_left
    (fun (acc : list Task * list string) (other : Task) =>
       let '(group, processed) := acc in
       if inList (id other) processed then acc
       else if _areSimilarTasks task other
            then (group ++ [other], processed ++ [id other])
            else acc)
    tasks start.

(** The outer loop over the tasks in [todo]; [tasks] is the whole list *)
Definition groupLoop (tasks todo : list Task) (start : list (list Task) * list string)
  : list (list Task) * list string :=
  fold_left
    (fun (acc : list (list Task) * list string) (task : Task) =>
       let '(groups, processed) := acc in
       if inList (id task) processed then acc
       else
         let '(group, processed') := gather task tasks ([task], processed ++ [id task]) in
         (groups ++ [group], processed'))
    todo start.

(** [_groupSimilarTasks(tasks)] *)
Definition _groupSimilarTasks (tasks : list Task) : list (list Task) :=
  fst (groupLoop tasks tasks ([], [])).

(** What holds of a group: a primary task followed by tasks similar to it *)
Definition wellGrouped (tasks : list Task) (group : list Task) : Prop :=
  exists primary members,
    group = primary :: members
    /\ In primary tasks
    /\ Forall (fun x => In x tasks /\ _areSimilarTasks primary x = true) members.

Section WithAdapterState.
Context {St : Type}.

(** [{...primaryRoute, taskId: task.id, groupedRouting: true}]: the
    properties of the primary route, copied into a new object. *)
Record BatchDecision : Type := {
  bd_primary : RoutingDecision St;
  bd_taskId : string;
  groupedRouting : bool
}.

(** The loop of [routeBatch] over the groups.  [clock k] gives the two
    clock readings of the [k]-th [route] call. *)
Fixpoint routeGroups (registry : AdapterRegistry.Registry St) (rt : Router St)
    (groups : list (list Task)) (clock : nat -> Z * Z) (k : nat)
    (routingDecisions : list BatchDecision)
  : Completion (list BatchDecision) * Router St :=
  match groups with
  | [] => (Normal routingDecisions, rt)
  | group :: rest =>
      match group with
      | [] => (Throw "TypeError: Cannot read properties of undefined", rt)
      | primary :: _ =>
          (* Route the first task in the group *)
          match route registry rt primary (fst (clock k)) (snd (clock k)) with
          | (Throw m, rt') => (Throw m, rt')
          | (Normal primaryRoute, rt') =>
              (* Apply same routing to similar tasks *)
              routeGroups registry rt' rest clock (S k)
                (routingDecisions
                 ++ map (fun task => {| bd_primary := primaryRoute; bd_taskId := id task;
                                        groupedRouting := true |}) group)
          end
      end
  end.

(** [routeBatch(tasks)] *)
Definition routeBatch (registry : AdapterRegistry.Registry St) (rt : Router St)
    (tasks : list Task) (clock : nat -> Z * Z)
  : Completion (list BatchDecision) * Router St :=
  (* Group similar tasks for efficient routing *)
  routeGroups registry rt (_groupSimilarTasks tasks) clock 0 [].

End WithAdapterState.
Arguments BatchDecision St : clear implicits.

End TaskGrouping.

Module MetricsLog.
Import AdapterRegistry.

(** One call of [recordMetrics]: its [{duration, failed}] argument and
    the reading of the clock. *)
Record Sample : Type := {
  s_duration : option Q;
  s_failed : bool;
  s_at : Z
}.

(** [metrics.duration || 0] *)
Definition durationOf (s : Sample) : Q :=
  match s_duration s with Some d => d | None => 0%Q end.

Definition Qsum (l : list Q) : Q := fold_right Qplus 0%Q l.

(** The registry after one [recordMetrics] call per sample, in order,
    for the same adapter and version *)
Definition recordAll {St : Type} (r : Registry St) (name version : string)
    (samples : list Sample) : Registry St :=
  fold_left (fun acc s => recordMetrics acc name version (s_duration s) (s_failed s) (s_at s))
            samples r.

End MetricsLog.

Module AdapterBase.

(** What a feature flag of a profile says: the boolean itself, or the
    [enabled] field of a detailed entry. *)
Definition flagEnabled (f : FeatureFlag) : bool :=
  match f with
  | FlagBool b => b
  | FlagDetailed e _ => e
  end.

(** The names a profile defines at its top level *)
Definition topLevelKeys (caps : Capabilities) : list string :=
  ["maxContextTokens"; "supportedLanguages"; "multiFile"; "streaming"]
  ++ (match cap_subAgents caps with Some _ => ["subAgents"] | None => [] end)
  ++ ["features"].

(** The names every object inherits from [Object.prototype]; [in] and a
    property read find them on any object, and reads of own properties
    only do not. *)
Definition objectPrototypeNames : list string :=
  ["constructor"; "hasOwnProperty"; "isPrototypeOf"; "propertyIsEnumerable";
   "toLocaleString"; "toString"; "valueOf"; "__proto__";
   "__defineGetter__"; "__defineSetter__"; "__lookupGetter__"; "__lookupSetter__"].

(** [getVendorExtensions(task, vendorName)]: the vendor's entry or [null] *)
Definition getVendorExtensions (task : Task) (vendorName : string) : option VendorExt :=
  match extensions task with
  | Some es => assoc vendorName es
  | None => None
  end.

(** [addVendorExtensions(task, vendorName, extensions)]:
    [{...task, extensions: {...task.extensions, [vendorName]: extensions}}] *)
Definition addVendorExtensions (task : Task) (vendorName : string) (ext : VendorExt)
  : Task :=
  {| id := id task; type := type task; description := description task;
     context := context task;
     extensions :=
       Some (OMap.set vendorName ext
               (match extensions task with Some es => es | None => [] end));
     complexity := complexity task; task_streaming := task_streaming task;
     executionStrategy := executionStrategy task; role := role task; focus := focus task |}.

End AdapterBase.

(* ================================================================== *)
(** ** Concrete adapters and tasks *)
(* ================================================================== *)

(** Adapters and tasks in the style of the repository's test-suite.
    The state of a mock adapter is the number of [executeTask] calls it
    has received; [beh] gives its answer to each call. *)
Module Fixtures.

Definition plainCaps : Capabilities :=
  {| maxContextTokens := 100000; supportedLanguages := ["javascript"; "python"];
     cap_multiFile := true; cap_streaming := false; cap_subAgents := None;
     cap_features := [("generation", FlagBool true); ("refactoring", FlagBool false)] |}.

Definition completed (out : string) : Result :=
  {| taskId := None; status := Some "completed"; output := Some out;
     error := None; artifacts := None; batchCount := None; parallelResults := None |}.

Definition mockAdapter (supports : string -> bool) (beh : nat -> Settle Result)
  : Adapter nat :=
  {| name := "test-adapter"; apiVersion := "1.0.0"; capabilities := plainCaps;
     supportsFeature := supports; getFeatureConfig := fun _ => None;
     executeTask := fun calls _ => (beh calls, S calls);
     executeWithSubAgents := None; executeWithStreaming := None;
     hasGetVendorExtensions := false |}.

(** An adapter that answers [supportsFeature] from its profile, as the
    base class does. *)
Definition profileAdapter (caps : Capabilities) : Adapter nat :=
  {| name := "profile-adapter"; apiVersion := "2.0.0"; capabilities := caps;
     supportsFeature :=
       fun f => AIAgentAdapter.holds (AIAgentAdapter.supportsFeature (toJs caps) f);
     getFeatureConfig := fun _ => None;
     executeTask := fun calls _ => (Resolved (completed "ok") 0%N, S calls);
     executeWithSubAgents := None; executeWithStreaming := None;
     hasGetVendorExtensions := true |}.

Definition mkTask (i ty : string) (d : option string) (fs : option (list string))
    (explicit : option string) : Task :=
  {| id := i; type := ty; description := d;
     context :=
       match fs with
       | Some l => Some {| files := Some l; content := None; code := None |}
       | None => None
       end;
     extensions := None; complexity := None; task_streaming := false;
     executionStrategy := explicit; role := None; focus := None |}.

Definition fileNames (n : nat) : list string :=
  map (fun i => ("file" ++ natToString i ++ ".js")%string) (seq 0 n).

Definition languagesOnly (langs : list string) : Requirements :=
  {| req_features := None; minContextTokens := 0; req_languages := Some langs;
     req_multiFile := false; req_streaming := false; req_subAgents := false |}.

(** The task of the test "should honor explicit strategy in vendor
    extensions", and an adapter with a native streaming entry point. *)
Definition explicitStreamingTask : Task :=
  {| id := "explicit-1"; type := "generation";
     description := Some "Task with explicit strategy"; context := None;
     extensions :=
       Some [("test-adapter",
              {| ext_executionStrategy := Some "streaming"; ext_subAgents := false;
                 ext_streaming := false; ext_features := None |})];
     complexity := None; task_streaming := false; executionStrategy := None;
     role := None; focus := None |}.

Definition statusOnly : Result :=
  {| taskId := None; status := Some "completed"; output := None;
     error := None; artifacts := None; batchCount := None; parallelResults := None |}.

Definition streamingAdapter : Adapter nat :=
  {| name := "test-adapter"; apiVersion := "1.0.0"; capabilities := plainCaps;
     supportsFeature := fun f => String.eqb f "streaming";
     getFeatureConfig := fun _ => None;
     executeTask := fun calls _ => (Resolved statusOnly 0%N, S calls);
     executeWithSubAgents := None;
     executeWithStreaming := Some (fun calls _ => (Resolved statusOnly 0%N, S calls));
     hasGetVendorExtensions := false |}.

(** A validation task that names [parallel] explicitly, for an adapter
    with parallel execution whose first two calls are rejected. *)
Definition explicitParallelTask : Task :=
  mkTask "explicit-2" "validation" (Some "Task with failing explicit strategy") None
         (Some "parallel").

Definition twiceFailingAdapter : Adapter nat :=
  mockAdapter (fun f => String.eqb f "parallelExecution")
    (fun calls => if Nat.ltb calls 2 then Rejected "Parallel failed" 0%N
                  else Resolved (completed "ok") 0%N).

(** An adapter without advanced capabilities and a task with 11 files *)
Definition basicAdapter : Adapter nat :=
  mockAdapter (fun _ => false) (fun _ => Resolved (completed "ok") 0%N).

Definition elevenFilesTask : Task :=
  mkTask "large-1" "analysis" (Some "Analyze many files") (Some (fileNames 11)) None.

(** A profile whose sub-agent entry is present but switched off *)
Definition subAgentsOffCaps : Capabilities :=
  {| maxContextTokens := 100000; supportedLanguages := ["javascript"];
     cap_multiFile := true; cap_streaming := false;
     cap_subAgents :=
       Some {| supported := false; sa_maxConcurrent := None; delegationTypes := None |};
     cap_features := [] |}.

(** An adapter that needs ten minutes for every call *)
Definition slowAdapter : Adapter nat :=
  mockAdapter (fun _ => false) (fun _ => Resolved (completed "late") 600000%N).

(** A task naming a strategy the engine does not know *)
Definition turboTask : Task :=
  mkTask "turbo-1" "analysis" (Some "Analyze") None (Some "turbo").

(** An adapter that supports [generation] only, and a profile that also
    requires [testing] *)
Definition generationOnly : Adapter nat :=
  mockAdapter (fun f => String.eqb f "generation") (fun _ => Pending).

Definition needsTesting : Requirements :=
  {| req_features := Some ["generation"; "testing"]; minContextTokens := 0;
     req_languages := None; req_multiFile := false; req_streaming := false;
     req_subAgents := false |}.

(** Two versions registered without the default flag, then the first removed *)
Definition versionHistory : list (AdapterRegistry.Call nat) :=
  [ AdapterRegistry.CallRegister "claude-code" (Some basicAdapter) (Some "1.0.0") false;
    AdapterRegistry.CallRegister "claude-code" (Some basicAdapter) (Some "2.0.0") false;
    AdapterRegistry.CallUnregister "claude-code" (Some "1.0.0") ].

(** A registry with one adapter that supports every feature, and two
    tasks that differ in their identifier only *)
Definition oneAdapterRegistry : AdapterRegistry.Registry nat :=
  AdapterRegistry.after
    [ AdapterRegistry.CallRegister "test-adapter"
        (Some (mockAdapter (fun _ => true) (fun _ => Pending))) None true ].

Definition firstTask : Task :=
  mkTask "task-a" "generation" (Some "Create a python module") None None.

Definition secondTask : Task :=
  mkTask "task-b" "generation" (Some "Create a python module") None None.

Definition threeFilesTask : Task :=
  mkTask "test-1" "generation" (Some "Test task") (Some (fileNames 3)) None.

(** The two adapters of the test "should find adapters matching
    capability requirements": [supportsFeature(f)] is
    [features[f] || capabilities[f] || false]. *)
Definition flagAdapter (n : string) (caps : Capabilities) : Adapter nat :=
  {| name := n; apiVersion := "1.0.0"; capabilities := caps;
     supportsFeature :=
       fun f =>
         match assoc f (cap_features caps) with
         | Some (FlagBool true) | Some (FlagDetailed _ _) => true
         | _ => truthy (getProp (toJs caps) f)
         end;
     getFeatureConfig := fun _ => None;
     executeTask := fun calls _ => (Pending, S calls);
     executeWithSubAgents := None; executeWithStreaming := None;
     hasGetVendorExtensions := false |}.

Definition adapter1 : Adapter nat :=
  flagAdapter "adapter1"
    {| maxContextTokens := 100000; supportedLanguages := ["javascript"; "python"];
       cap_multiFile := true; cap_streaming := false; cap_subAgents := None;
       cap_features := [("generation", FlagBool true); ("refactoring", FlagBool true)] |}.

Definition adapter2 : Adapter nat :=
  flagAdapter "adapter2"
    {| maxContextTokens := 50000; supportedLanguages := ["javascript"];
       cap_multiFile := false; cap_streaming := false; cap_subAgents := None;
       cap_features := [("generation", FlagBool true); ("refactoring", FlagBool false)] |}.

Definition twoAdapters : AdapterRegistry.Registry nat :=
  AdapterRegistry.after
    [ AdapterRegistry.CallRegister "adapter1" (Some adapter1) None true;
      AdapterRegistry.CallRegister "adapter2" (Some adapter2) None true ].

Definition highRequirements : Requirements :=
  {| req_features := Some ["generation"; "refactoring"]; minContextTokens := 80000;
     req_languages := Some ["javascript"; "python"]; req_multiFile := true;
     req_streaming := false; req_subAgents := false |}.

Definition twentyFiveFilesTask : Task :=
  mkTask "large-1" "analysis" (Some "Analyze many files") (Some (fileNames 25)) None.

Definition reactTask : Task :=
  {| id := "test-1"; type := "generation";
     description := Some "Create a TypeScript React component with streaming updates";
     context := Some {| files := Some ["comp1.tsx"; "comp2.tsx"; "comp3.tsx"];
                        content := Some "export interface Props { }"; code := None |};
     extensions := None; complexity := None; task_streaming := false;
     executionStrategy := None; role := None; focus := None |}.

(** The task of the test "should fall back if explicit strategy fails",
    and its adapter: parallel execution supported, first call rejected. *)
Definition fallbackTestTask : Task :=
  mkTask "explicit-2" "generation" (Some "Task with failing explicit strategy") None
         (Some "parallel").

Definition onceFailingAdapter : Adapter nat :=
  mockAdapter (fun f => String.eqb f "parallelExecution")
    (fun calls => if Nat.eqb calls 0 then Rejected "Parallel failed" 0%N
                  else Resolved statusOnly 0%N).

(** The adapter of the test "should handle all strategies failing":
    every call is rejected. *)
Definition failingAdapter : Adapter nat :=
  mockAdapter (fun _ => false) (fun _ => Rejected "Complete failure" 0%N).

(** Statistics after one success and two failures *)
Definition usedEngine : OrchestrationStrategy.Engine :=
  OrchestrationStrategy._recordFailure
    (OrchestrationStrategy._recordFailure
       (OrchestrationStrategy._recordSuccess OrchestrationStrategy.create "parallel" 120%N)
       "parallel" "Parallel failed")
    "parallel" "Timeout".

(** Two recorded executions, the second one failed *)
Definition twoSamples : list MetricsLog.Sample :=
  [ {| MetricsLog.s_duration := Some 100%Q; MetricsLog.s_failed := false;
       MetricsLog.s_at := 1000 |};
    {| MetricsLog.s_duration := Some 300%Q; MetricsLog.s_failed := true;
       MetricsLog.s_at := 2000 |} ].

(** The router after it has routed [firstTask] at time 0 *)
Definition routedOnce : TaskRouter.Router nat :=
  snd (TaskRouter.route oneAdapterRegistry
         (TaskRouter.create TaskRouter.defaultPreferences) firstTask 0 0).




(** A batch of three tasks, two of them alike *)
Definition batchTasks : list Task := [firstTask; threeFilesTask; secondTask].

End Fixtures.

(* ================================================================== *)
(** * Properties *)
(* ================================================================== *)

(** ** Facts about insertion-ordered maps *)

Module OMapFacts.
Import OMap.

Lemma get_set {V : Type} (k k' : string) (v : V) (m : t V) :
  get k' (set k v m) = if String.eqb k' k then Some v else get k' m.
Proof.
  unfold get. induction m as [|[k0 v0] m IH]; simpl.
  - destruct (String.eqb k' k); reflexivity.
  - destruct (String.eqb_spec k k0) as [->|Hne]; simpl.
    + destruct (String.eqb k' k0); reflexivity.
    + rewrite IH. destruct (String.eqb_spec k' k0) as [->|Hne'].
      * destruct (String.eqb_spec k0 k); [congruence | reflexivity].
      * reflexivity.
Qed.

Lemma get_delete {V : Type} (k k' : string) (m : t V) :
  get k' (delete k m) = if String.eqb k' k then None else get k' m.
Proof.
  unfold get. induction m as [|[k0 v0] m IH]; simpl.
  - destruct (String.eqb k' k); reflexivity.
  - destruct (String.eqb_spec k k0) as [->|Hne]; simpl.
    + rewrite IH. destruct (String.eqb k' k0); reflexivity.
    + rewrite IH. destruct (String.eqb_spec k' k0) as [->|Hne'].
      * destruct (String.eqb_spec k0 k); [congruence | reflexivity].
      * reflexivity.
Qed.

Lemma has_set {V : Type} (k k' : string) (v : V) (m : t V) :
  has k' (set k v m) = String.eqb k' k || has k' m.
Proof.
  unfold has. rewrite get_set. destruct (String.eqb k' k); reflexivity.
Qed.

Lemma has_delete {V : Type} (k k' : string) (m : t V) :
  has k' (delete k m) = negb (String.eqb k' k) && has k' m.
Proof.
  unfold has. rewrite get_delete. destruct (String.eqb k' k); reflexivity.
Qed.

Lemma set_nonempty {V : Type} (k : string) (v : V) (m : t V) : set k v m <> [].
Proof.
  destruct m as [|[k0 v0] m]; simpl; [discriminate|].
  destruct (String.eqb k k0); discriminate.
Qed.

Lemma size_zero {V : Type} (m : t V) : Nat.eqb (size m) 0 = false -> m <> [].
Proof. intros H ->. discriminate. Qed.

Lemma first_key_present {V : Type} (m : t V) (k : string) (rest : list string) :
  keys m = k :: rest -> has k m = true.
Proof.
  destruct m as [|[k0 v0] m]; simpl; [discriminate|].
  intros [= -> _]. unfold has, get. simpl. rewrite String.eqb_refl. reflexivity.
Qed.




End OMapFacts.

(* ================================================================== *)
(** ** The registry keeps one default version per registered name *)
(* ================================================================== *)

Module RegistryDefaults.
Import AdapterRegistry.

Section WithAdapterState.
Context {St : Type}.

Lemma unique_default (defaults : OMap.t string) (vm : OMap.t (Adapter St))
    (name d : string) :
  OMap.get name defaults = Some d -> OMap.has d vm = true ->
  exists! d', OMap.get name defaults = Some d' /\ OMap.has d' vm = true.
Proof.
  intros Hd Hin. exists d. split; [tauto|].
  intros d' [Hd' _]. congruence.
Qed.

Lemma create_consistent : defaultsConsistent (@create St).
Proof. intros name. reflexivity. Qed.

Lemma register_consistent (r r' : Registry St) name adapter version setAsDefault :
  defaultsConsistent r ->
  registerAdapter r name adapter version setAsDefault = Normal r' ->
  defaultsConsistent r'.
Proof.
  intros Inv. unfold registerAdapter.
  destruct adapter as [a|]; [|discriminate].
  destruct (String.eqb name ""); [discriminate|].
  intros [= <-]. intros k. simpl.
  specialize (Inv k) as Hk. specialize (Inv name) as Hn.
  remember (orElse version (apiVersion a)) as av.
  rewrite OMapFacts.get_set.
  destruct (String.eqb_spec k name) as [->|Hne].
  - (* the name being registered *)
    split; [apply OMapFacts.set_nonempty|].
    clear Hk.
    destruct (OMap.get name (_adapters r)) as [vm|] eqn:Hvm.
    + assert (Hhas : OMap.has name (_adapters r) = true)
        by (unfold OMap.has; rewrite Hvm; reflexivity).
      rewrite Hhas. simpl. rewrite Hvm.
      destruct Hn as [_ [d [[Hd Hin] _]]].
      assert (Hhd : OMap.has name (_defaultVersions r) = true)
        by (unfold OMap.has; rewrite Hd; reflexivity).
      rewrite Hhd. simpl. rewrite orb_false_r.
      destruct setAsDefault.
      * apply (unique_default _ _ name av).
        -- rewrite OMapFacts.get_set, String.eqb_refl. reflexivity.
        -- rewrite OMapFacts.has_set, String.eqb_refl. reflexivity.
      * apply (unique_default _ _ name d); [exact Hd|].
        rewrite OMapFacts.has_set, Hin. apply orb_true_r.
    + assert (Hhas : OMap.has name (_adapters r) = false)
        by (unfold OMap.has; rewrite Hvm; reflexivity).
      rewrite Hhas. simpl. rewrite OMapFacts.get_set, String.eqb_refl.
      assert (Hhd : OMap.has name (_defaultVersions r) = false)
        by (unfold OMap.has; rewrite Hn; reflexivity).
      rewrite Hhd. simpl. rewrite orb_true_r.
      apply (unique_default _ _ name av).
      * rewrite OMapFacts.get_set, String.eqb_refl. reflexivity.
      * unfold OMap.has, OMap.get. simpl. rewrite String.eqb_refl. reflexivity.
  - (* any other name *)
    assert (Hsame : OMap.get k
              (if negb (OMap.has name (_adapters r))
               then OMap.set name OMap.empty (_adapters r) else _adapters r)
            = OMap.get k (_adapters r)).
    { destruct (negb (OMap.has name (_adapters r))); [|reflexivity].
      rewrite OMapFacts.get_set.
      destruct (String.eqb_spec k name); [congruence | reflexivity]. }
    rewrite Hsame.
    assert (Hdef : OMap.get k
              (if setAsDefault || negb (OMap.has name (_defaultVersions r))
               then OMap.set name av (_defaultVersions r) else _defaultVersions r)
            = OMap.get k (_defaultVersions r)).
    { destruct (setAsDefault || negb (OMap.has name (_defaultVersions r))); [|reflexivity].
      rewrite OMapFacts.get_set.
      destruct (String.eqb_spec k name); [congruence | reflexivity]. }
    rewrite Hdef. exact Hk.
Qed.

Lemma setDefault_consistent (r r' : Registry St) name version :
  defaultsConsistent r ->
  setDefaultVersion r name version = Normal r' ->
  defaultsConsistent r'.
Proof.
  intros Inv. unfold setDefaultVersion.
  destruct (OMap.get name (_adapters r)) as [vm|] eqn:Hvm; [|discriminate].
  destruct (OMap.has version vm) eqn:Hhas; simpl; [|discriminate].
  intros [= <-]. intros k. simpl. specialize (Inv k).
  rewrite OMapFacts.get_set.
  destruct (String.eqb_spec k name) as [->|Hne]; [|exact Inv].
  rewrite Hvm in *. destruct Inv as [Hnonempty _]. split; [exact Hnonempty|].
  exists version. split; [split; [reflexivity | exact Hhas]|].
  intros d' [Hd' _]. congruence.
Qed.

Lemma unregister_consistent (r : Registry St) name version :
  defaultsConsistent r -> defaultsConsistent (unregisterAdapter r name version).
Proof.
  intros Inv. unfold unregisterAdapter.
  destruct (OMap.get name (_adapters r)) as [vm0|] eqn:Hvm0; [|exact Inv].
  set (specific := match version with
                   | Some v => if String.eqb v "" then None else Some v
                   | None => None
                   end).
  assert (Hall : defaultsConsistent
            {| _adapters := OMap.delete name (_adapters r);
               _defaultVersions := OMap.delete name (_defaultVersions r);
               _metrics := _metrics r;
               emitted := emitted r ++ [Unregistered name version] |}).
  { intros k. simpl. rewrite !OMapFacts.get_delete.
    destruct (String.eqb k name); [reflexivity | exact (Inv k)]. }
  destruct specific as [v|]; [|exact Hall].
  destruct (Nat.eqb (OMap.size (OMap.delete v vm0)) 0) eqn:Hsize; [exact Hall|].
  clear Hall. pose proof (Inv name) as Hn. rewrite Hvm0 in Hn.
  destruct Hn as [_ [d [[Hd Hin] _]]]. rewrite Hd.
  destruct (OMap.keys (OMap.delete v vm0)) as [|first rest] eqn:Hkeys.
  { apply OMapFacts.size_zero in Hsize.
    destruct (OMap.delete v vm0); [congruence | discriminate]. }
  assert (Hother : forall k defaults,
            k <> name ->
            OMap.get k defaults = OMap.get k (_defaultVersions r) ->
            match OMap.get k (OMap.set name (OMap.delete v vm0) (_adapters r)) with
            | Some versionMap =>
                versionMap <> []
                /\ exists! d', OMap.get k defaults = Some d' /\ OMap.has d' versionMap = true
            | None => OMap.get k defaults = None
            end).
  { intros k defaults Hne Hsame. rewrite OMapFacts.get_set, Hsame.
    destruct (String.eqb_spec k name); [congruence | exact (Inv k)]. }
  destruct (String.eqb_spec d v) as [->|Hdv]; intros k; simpl.
  - destruct (String.eqb_spec k name) as [->|Hne].
    + rewrite OMapFacts.get_set, String.eqb_refl.
      split; [apply OMapFacts.size_zero; exact Hsize|].
      apply (unique_default _ _ name first).
      * rewrite OMapFacts.get_set, String.eqb_refl. reflexivity.
      * apply (OMapFacts.first_key_present _ _ rest). exact Hkeys.
    + apply Hother; [exact Hne|]. rewrite OMapFacts.get_set.
      destruct (String.eqb_spec k name); [congruence | reflexivity].
  - destruct (String.eqb_spec k name) as [->|Hne].
    + rewrite OMapFacts.get_set, String.eqb_refl.
      split; [apply OMapFacts.size_zero; exact Hsize|].
      apply (unique_default _ _ name d); [exact Hd|].
      rewrite OMapFacts.has_delete, Hin.
      destruct (String.eqb_spec d v); [congruence | reflexivity].
    + apply Hother; [exact Hne | reflexivity].
Qed.

Lemma perform_consistent (r : Registry St) (c : Call St) :
  defaultsConsistent r -> defaultsConsistent (perform r c).
Proof.
  intros Inv. destruct c as [name adapter version flag | name version | name version]; simpl.
  - destruct (registerAdapter r name adapter version flag) eqn:E; [|exact Inv].
    exact (register_consistent _ _ _ _ _ _ Inv E).
  - destruct (setDefaultVersion r name version) eqn:E; [|exact Inv].
    exact (setDefault_consistent _ _ _ _ Inv E).
  - apply unregister_consistent. exact Inv.
Qed.

Lemma after_consistent (calls : list (Call St)) : defaultsConsistent (after calls).
Proof.
  unfold after. generalize (@create_consistent). generalize (@create St).
  induction calls as [|c calls IH]; intros r Inv; simpl; [exact Inv|].
  apply IH. apply perform_consistent. exact Inv.
Qed.

End WithAdapterState.
End RegistryDefaults.

(* ================================================================== *)
(** ** Capability scores *)
(* ================================================================== *)

Module ScoreFacts.
Import AdapterRegistry.

Section WithAdapterState.
Context {St : Type}.
Variable adapter : Adapter St.
Variable requirements : Requirements.

Lemma require_counted ok points t : counted t -> counted (require ok points t).
Proof. unfold counted, require. destruct ok; simpl; lia. Qed.

Lemma require_shortfall ok points t : shortfall t -> shortfall (require ok points t).
Proof. unfold shortfall, require. destruct ok; simpl; lia. Qed.

Lemma require_unmet points t : counted t -> shortfall (require false points t).
Proof. unfold counted, shortfall, require. simpl. lia. Qed.

Lemma features_fold_counted fs t :
  counted t ->
  counted (fold_left (fun acc f => require (supportsFeature adapter f) 10 acc) fs t).
Proof.
  revert t. induction fs as [|f fs IH]; intros t Ht; simpl; [exact Ht|].
  apply IH, require_counted, Ht.
Qed.

Lemma features_fold_shortfall fs t :
  shortfall t ->
  shortfall (fold_left (fun acc f => require (supportsFeature adapter f) 10 acc) fs t).
Proof.
  revert t. induction fs as [|f fs IH]; intros t Ht; simpl; [exact Ht|].
  apply IH, require_shortfall, Ht.
Qed.

Lemma features_fold_missing fs F t :
  In F fs -> supportsFeature adapter F = false -> counted t ->
  shortfall (fold_left (fun acc f => require (supportsFeature adapter f) 10 acc) fs t).
Proof.
  revert t. induction fs as [|f fs IH]; intros t Hin HF Ht; simpl; [destruct Hin|].
  destruct Hin as [->|Hin].
  - rewrite HF. apply features_fold_shortfall, require_unmet, Ht.
  - apply IH; [exact Hin | exact HF | apply require_counted, Ht].
Qed.

Lemma scoreFeatures_counted t : counted t -> counted (scoreFeatures adapter requirements t).
Proof.
  unfold scoreFeatures. destruct (req_features requirements); [|tauto].
  apply features_fold_counted.
Qed.

Lemma scoreContext_counted t : counted t -> counted (scoreContext adapter requirements t).
Proof.
  unfold scoreContext. intros Ht.
  destruct (Z.eqb (minContextTokens requirements) 0); [exact Ht|].
  destruct (Z.geb _ _); apply require_counted, Ht.
Qed.

Lemma scoreContext_shortfall t :
  shortfall t -> shortfall (scoreContext adapter requirements t).
Proof.
  unfold scoreContext. intros Ht.
  destruct (Z.eqb (minContextTokens requirements) 0); [exact Ht|].
  destruct (Z.geb _ _); apply require_shortfall, Ht.
Qed.

Lemma scoreLanguages_shortfall t :
  shortfall t -> shortfall (scoreLanguages adapter requirements t).
Proof.
  unfold scoreLanguages. intros Ht.
  destruct (req_languages requirements) as [langs|]; [|exact Ht].
  destruct (Nat.eqb _ _); [apply require_shortfall, Ht|].
  destruct (Nat.ltb _ _); [|apply require_shortfall, Ht].
  unfold shortfall in *. simpl. lia.
Qed.

(** A partial language match counts as required and not as matched. *)
Lemma scoreLanguages_partial langs t :
  req_languages requirements = Some langs ->
  0 < List.length (matchingLangs adapter langs) < List.length (dedupe langs) ->
  counted t ->
  shortfall (scoreLanguages adapter requirements t)
  /\ score (scoreLanguages adapter requirements t)
     = (score t + (QofNat (List.length (matchingLangs adapter langs))
                   / QofNat (List.length (dedupe langs))) * 5)%Q.
Proof.
  unfold scoreLanguages. intros -> [Hpos Hlt] Ht.
  destruct (Nat.eqb_spec (List.length (matchingLangs adapter langs))
                         (List.length (dedupe langs))) as [E|_]; [lia|].
  destruct (Nat.ltb_spec 0 (List.length (matchingLangs adapter langs))) as [_|E]; [|lia].
  unfold shortfall, counted in *. simpl. split; [lia | reflexivity].
Qed.

Lemma checks_fold_shortfall (checks : list (bool * string * Q)) t :
  shortfall t ->
  shortfall
    (fold_left
       (fun (acc : Tally) (check : bool * string * Q) =>
          let '(req, cap, points) := check in
          if req then require (supportsFeature adapter cap) points acc else acc)
       checks t).
Proof.
  revert t. induction checks as [|[[req cap] points] checks IH]; intros t Ht; simpl;
    [exact Ht|].
  apply IH. destruct req; [apply require_shortfall, Ht | exact Ht].
Qed.

Lemma scoreChecks_shortfall t :
  shortfall t -> shortfall (scoreChecks adapter requirements t).
Proof. apply checks_fold_shortfall. Qed.

(** The final gate: a shortfall forces the score to 0. *)
Lemma shortfall_scores_zero :
  shortfall (tally adapter requirements) ->
  _calculateCapabilityScore adapter requirements = 0%Q.
Proof.
  unfold _calculateCapabilityScore, shortfall. intros H.
  destruct (Nat.ltb_spec 0 (requiredCount (tally adapter requirements))) as [_|E]; [|lia].
  destruct (Nat.ltb_spec (matchedCount (tally adapter requirements))
                         (requiredCount (tally adapter requirements))) as [_|E]; [|lia].
  reflexivity.
Qed.

End WithAdapterState.

Section Matching.
Context {St : Type}.

Lemma In_insertDesc {A : Type} (key : A -> Q) (x y : A) (l : list A) :
  In y (insertDesc key x l) <-> y = x \/ In y l.
Proof.
  induction l as [|z l IH]; simpl; [intuition congruence|].
  destruct (Qltb (key x) (key z)); simpl; [rewrite IH|]; intuition congruence.
Qed.

Lemma In_sortDesc {A : Type} (key : A -> Q) (y : A) (l : list A) :
  In y (sortDesc key l) <-> In y l.
Proof.
  unfold sortDesc. induction l as [|z l IH]; simpl; [tauto|].
  rewrite In_insertDesc, IH. intuition congruence.
Qed.

(** Every match carries the score of its adapter, and that score is positive. *)
Lemma match_scored (r : Registry St) (reqs : Requirements) (m : Match St) :
  In m (findMatchingAdapters r reqs) ->
  m_score m = _calculateCapabilityScore (m_adapter m) reqs
  /\ Qltb 0 (m_score m) = true.
Proof.
  unfold findMatchingAdapters. rewrite In_sortDesc. unfold candidates.
  rewrite in_flat_map. intros [[name vm] [_ Hin]].
  rewrite in_flat_map in Hin. destruct Hin as [[version a] [_ Hin]].
  destruct (Qltb 0 (_calculateCapabilityScore a reqs)) eqn:E; [|destruct Hin].
  destruct Hin as [<-|[]]. simpl. split; [reflexivity | exact E].
Qed.

Lemma zero_score_excluded (r : Registry St) (reqs : Requirements) (a : Adapter St)
    (m : Match St) :
  _calculateCapabilityScore a reqs = 0%Q ->
  In m (findMatchingAdapters r reqs) -> m_adapter m <> a.
Proof.
  intros Hzero Hin Heq. destruct (match_scored _ _ _ Hin) as [Hs Hpos].
  rewrite Hs, Heq, Hzero in Hpos. discriminate.
Qed.

End Matching.
End ScoreFacts.

(* ================================================================== *)
(** ** Registry: scores, defaults and metrics *)
(* ================================================================== *)

Module RegistryClaims.
Import AdapterRegistry.

Section WithAdapterState.
Context {St : Type}.

Lemma initial_counted :
  counted {| score := 0; requiredCount := 0; matchedCount := 0 |}.
Proof. unfold counted. simpl. lia. Qed.

(** C1.  When a requirement profile lists a feature [F] and an adapter's
    [supportsFeature(F)] is false, the capability score of that adapter
    is exactly 0, [findMatchingAdapters] never returns it, and every
    adapter it does return supports [F]. *)
Theorem unsupported_required_feature_scores_zero
    (adapter : Adapter St) (requirements : Requirements) (fs : list string) (F : string) :
  req_features requirements = Some fs ->
  In F fs ->
  supportsFeature adapter F = false ->
  _calculateCapabilityScore adapter requirements = 0%Q
  /\ (forall (r : Registry St) (m : Match St),
        In m (findMatchingAdapters r requirements) -> m_adapter m <> adapter)
  /\ (forall (r : Registry St) (m : Match St),
        In m (findMatchingAdapters r requirements) ->
        supportsFeature (m_adapter m) F = true /\ Qltb 0 (m_score m) = true).
Proof.
  intros Hfs Hin Hno.
  assert (Hzero : forall a : Adapter St,
            supportsFeature a F = false -> _calculateCapabilityScore a requirements = 0%Q).
  { intros a Ha. apply ScoreFacts.shortfall_scores_zero. unfold tally.
    apply ScoreFacts.scoreChecks_shortfall, ScoreFacts.scoreLanguages_shortfall,
          ScoreFacts.scoreContext_shortfall.
    unfold scoreFeatures. rewrite Hfs.
    apply (ScoreFacts.features_fold_missing a fs F); [exact Hin | exact Ha |].
    apply initial_counted. }
  split; [exact (Hzero adapter Hno)|]. split.
  - intros r m Hm. apply (ScoreFacts.zero_score_excluded r requirements adapter m);
      [exact (Hzero adapter Hno) | exact Hm].
  - intros r m Hm. destruct (ScoreFacts.match_scored r requirements m Hm) as [Hs Hpos].
    split; [|exact Hpos].
    destruct (supportsFeature (m_adapter m) F) eqn:E; [reflexivity|].
    rewrite Hs, (Hzero _ E) in Hpos. discriminate.
Qed.

(** C2 (as the code behaves).  An adapter that supports some but not all
    of the required languages has the fractional points added to its
    running score, but the language category then counts as unmet: the
    capability score returned is 0 and [findMatchingAdapters] leaves the
    adapter out. *)
Theorem partial_language_match_is_disqualified
    (adapter : Adapter St) (requirements : Requirements) (langs : list string) :
  req_languages requirements = Some langs ->
  0 < List.length (matchingLangs adapter langs) < List.length (dedupe langs) ->
  (forall t, counted t ->
     score (scoreLanguages adapter requirements t)
     = (score t + (QofNat (List.length (matchingLangs adapter langs))
                   / QofNat (List.length (dedupe langs))) * 5)%Q)
  /\ _calculateCapabilityScore adapter requirements = 0%Q
  /\ (forall (r : Registry St) (m : Match St),
        In m (findMatchingAdapters r requirements) -> m_adapter m <> adapter).
Proof.
  intros Hlangs Hpartial.
  assert (Hzero : _calculateCapabilityScore adapter requirements = 0%Q).
  { apply ScoreFacts.shortfall_scores_zero. unfold tally.
    apply ScoreFacts.scoreChecks_shortfall.
    apply (ScoreFacts.scoreLanguages_partial adapter requirements langs);
      [exact Hlangs | exact Hpartial |].
    apply ScoreFacts.scoreContext_counted, ScoreFacts.scoreFeatures_counted, initial_counted. }
  split; [|split; [exact Hzero|]].
  - intros t Ht.
    apply (ScoreFacts.scoreLanguages_partial adapter requirements langs);
      [exact Hlangs | exact Hpartial | exact Ht].
  - intros r m Hm.
    exact (ScoreFacts.zero_score_excluded r requirements adapter m Hzero Hm).
Qed.

(** C6.  After any sequence of [registerAdapter], [setDefaultVersion] and
    [unregisterAdapter] calls on a new registry, every name that still
    has a registered version has exactly one default version, and it is
    one of the registered versions; and registering the first version of
    a name with [setAsDefault = false] makes that version the default. *)
Theorem one_default_version_per_registered_name (calls : list (Call St)) :
  (forall name versionMap,
     OMap.get name (_adapters (after calls)) = Some versionMap ->
     versionMap <> []
     /\ exists! d, OMap.get name (_defaultVersions (after calls)) = Some d
                   /\ OMap.has d versionMap = true)
  /\ (forall name (a : Adapter St) version,
        name <> "" ->
        OMap.get name (_adapters (after calls)) = None ->
        exists r',
          registerAdapter (after calls) name (Some a) version false = Normal r'
          /\ OMap.get name (_adapters r') = Some [(orElse version (apiVersion a), a)]
          /\ OMap.get name (_defaultVersions r') = Some (orElse version (apiVersion a))).
Proof.
  pose proof (RegistryDefaults.after_consistent calls) as Inv.
  split.
  - intros name vm Hvm. specialize (Inv name). rewrite Hvm in Inv. exact Inv.
  - intros name a version Hname Hnone. specialize (Inv name). rewrite Hnone in Inv.
    unfold registerAdapter.
    destruct (String.eqb_spec name "") as [E|_]; [contradiction|].
    eexists. split; [reflexivity|]. simpl.
    assert (Hhas : OMap.has name (_adapters (after calls)) = false)
      by (unfold OMap.has; rewrite Hnone; reflexivity).
    assert (Hdef : OMap.has name (_defaultVersions (after calls)) = false)
      by (unfold OMap.has; rewrite Inv; reflexivity).
    rewrite Hhas, Hdef. simpl.
    rewrite !OMapFacts.get_set, String.eqb_refl. split; reflexivity.
Qed.

(** Without an entry under ["name:version"], [getAdapterMetrics] returns
    the default record. *)
Lemma metrics_default_when_absent (r : Registry St) (name version : string) :
  OMap.get (metricsKey name version) (_metrics r) = None ->
  getAdapterMetrics r name version = defaultMetrics.
Proof. unfold getAdapterMetrics. intros ->. reflexivity. Qed.

(** A falsy average duration leaves the score of a match untouched. *)
Lemma no_boost_without_average (r : Registry St) (m : Match St) :
  numTruthy (avgDuration (getAdapterMetrics r (m_name m) (m_version m))) = false ->
  applyPerformance r m = m.
Proof.
  unfold applyPerformance.
  destruct (avgDuration (getAdapterMetrics r (m_name m) (m_version m))); try reflexivity.
  intros ->. reflexivity.
Qed.

End WithAdapterState.

(** C10 (as the code behaves).  [registerAdapter] stores an empty [Map]
    in [_metrics] under the bare adapter name.  Once an adapter named
    ["x:1"] is registered, [getAdapterMetrics("x", "1")] finds that
    [Map] under the key ["x:1"] and returns it in place of the default
    record, although no execution was ever recorded for the pair; its
    [avgDuration] is undefined, so no performance boost is applied. *)
Theorem unrecorded_pair_shadowed_by_name_entry :
  let adapter := Fixtures.mockAdapter (fun _ => true) (fun _ => Pending) in
  let r := after [CallRegister "x:1" (Some adapter) None true] in
  getAdapterMetrics r "x" "1" = newMapEntry
  /\ getAdapterMetrics r "x" "1" <> defaultMetrics
  /\ forall (a : Adapter nat) (s : Q) (caps : Capabilities),
       let m := {| m_name := "x"; m_version := "1"; m_adapter := a; m_score := s;
                   m_capabilities := caps |} in
       applyPerformance r m = m.
Proof.
  simpl. split; [reflexivity|]. split; [discriminate|].
  intros a s caps. apply no_boost_without_average. reflexivity.
Qed.

(** The default record is what an untouched registry answers, and it
    carries no boost. *)
Lemma fresh_registry_metrics (name version : string) (m : Match nat) :
  getAdapterMetrics (@create nat) name version = defaultMetrics
  /\ applyPerformance (@create nat) m = m.
Proof.
  split; [reflexivity|]. apply no_boost_without_average. reflexivity.
Qed.

End RegistryClaims.

(* ================================================================== *)
(** ** Capability queries and strategy availability *)
(* ================================================================== *)

Module CapabilityClaims.
Import OrchestrationStrategy.

Section WithAdapterState.
Context {St : Type}.

(** C8.  When the top-level [subAgents] entry of a capability profile is
    an object, [supportsFeature('subAgents')] answers [true] whatever
    the object holds (also [supported: false]): the top-level lookup
    coerces the object itself.  An adapter answering from such a
    profile therefore has the [subAgents] strategy available. *)
Theorem subAgents_object_counts_as_supported
    (fields o : list (string * JsVal)) (adapter : Adapter St) :
  assoc "subAgents" fields = Some (JObj o) ->
  (forall f, supportsFeature adapter f
             = AIAgentAdapter.holds (AIAgentAdapter.supportsFeature (JObj fields) f)) ->
  AIAgentAdapter.supportsFeature (JObj fields) "subAgents" = Normal (JBool true)
  /\ _isStrategyAvailable adapter "subAgents" = true.
Proof.
  intros Hsub Hbase.
  assert (Htop : AIAgentAdapter.supportsFeature (JObj fields) "subAgents"
                 = Normal (JBool true)).
  { unfold AIAgentAdapter.supportsFeature. simpl. rewrite Hsub. reflexivity. }
  split; [exact Htop|].
  unfold _isStrategyAvailable. simpl. rewrite Hbase, Htop. reflexivity.
Qed.

(** The typed profile: a present [subAgents] entry is enough, while the
    dotted query still reports the [supported] flag. *)
Lemma subAgents_entry_vs_supported_flag (caps : Capabilities) (sa : SubAgentCaps) :
  cap_subAgents caps = Some sa ->
  AIAgentAdapter.supportsFeature (toJs caps) "subAgents" = Normal (JBool true).
Proof.
  intros H. unfold AIAgentAdapter.supportsFeature, toJs. rewrite H. reflexivity.
Qed.

End WithAdapterState.
End CapabilityClaims.

(* ================================================================== *)
(** ** Timers *)
(* ================================================================== *)

Module TimerFacts.
Import OrchestrationStrategy.

Lemma timerDelay_range (ms : N) : (1 <= timerDelay ms <= TIMEOUT_MAX)%N.
Proof.
  unfold timerDelay, TIMEOUT_MAX.
  destruct (N.ltb_spec ms 1); destruct (N.ltb_spec 2147483647 ms); simpl; lia.
Qed.

Lemma timerDelay_in_range (ms : N) : (1 <= ms <= TIMEOUT_MAX)%N -> timerDelay ms = ms.
Proof.
  unfold timerDelay, TIMEOUT_MAX. intros H.
  destruct (N.ltb_spec ms 1); destruct (N.ltb_spec 2147483647 ms); simpl; lia.
Qed.

Lemma timerDelay_idem (ms : N) : timerDelay (timerDelay ms) = timerDelay ms.
Proof. apply timerDelay_in_range, timerDelay_range. Qed.

(** The timeout of a strategy is a delay the timer takes as it is. *)
Lemma timeoutFor_delay (options : Options) (strategy : string) :
  timerDelay (timeoutFor options strategy) = timeoutFor options strategy.
Proof. unfold timeoutFor. apply timerDelay_idem. Qed.

Lemma timeoutFor_range (options : Options) (strategy : string) :
  (1 <= timeoutFor options strategy <= TIMEOUT_MAX)%N.
Proof. unfold timeoutFor. apply timerDelay_range. Qed.

(** The race of the chain, in terms of the strategy's timeout *)
Lemma race_timeoutFor {A : Type} (promise : Settle A) (options : Options) (strategy : string) :
  _executeWithTimeout promise (timeoutFor options strategy)
  = if settledBy promise (timeoutFor options strategy) then promise
    else Rejected "Strategy timeout" (timeoutFor options strategy).
Proof.
  unfold _executeWithTimeout, settledBy. rewrite timeoutFor_delay.
  destruct promise as [a ms|m ms|]; [| |reflexivity];
    destruct (N.leb ms (timeoutFor options strategy)); reflexivity.
Qed.

End TimerFacts.

(* ================================================================== *)
(** ** The fallback chain *)
(* ================================================================== *)

Module ChainFacts.
Import OrchestrationStrategy.

Section WithAdapter.
Context {St : Type}.
Variable adapter : Adapter St.

(** [chain] over a concatenation: the first part is run as [turns]. *)
Lemma chain_app (l1 l2 : list string) task options elapsed trail (w : World) :
  chain adapter (l1 ++ l2) task options elapsed trail w
  = match turns adapter l1 task options elapsed trail w with
    | Leave o w' => (o, w')
    | Continue elapsed' trail' w' => chain adapter l2 task options elapsed' trail' w'
    end.
Proof.
  revert elapsed trail w. induction l1 as [|s l1 IH]; intros elapsed trail w; simpl;
    [reflexivity|].
  destruct (attempt adapter s task options elapsed trail w); [reflexivity | apply IH].
Qed.

(** A turn that goes on has pushed exactly one entry, for its strategy. *)
Lemma attempt_continue s task options elapsed trail (w : World) elapsed' trail' w' :
  attempt adapter s task options elapsed trail w = Continue elapsed' trail' w' ->
  exists a, trail' = trail ++ [a] /\ att_strategy a = s /\ att_status a <> success.
Proof.
  unfold attempt.
  destruct (negb (_isStrategyAvailable adapter s)).
  { intros [= <- <- <-]. eexists. split; [reflexivity|]. split; [reflexivity | discriminate]. }
  destruct (_isStrategySuitable s task) as [[|]|msg].
  - destruct (_executeStrategy adapter s task options w) as [settled w1].
    destruct (_executeWithTimeout settled (timeoutFor options s)); try discriminate.
    unfold onFailure. intros [= <- <- <-].
    eexists. split; [reflexivity|]. split; [reflexivity | discriminate].
  - intros [= <- <- <-]. eexists. split; [reflexivity|]. split; [reflexivity | discriminate].
  - unfold onFailure. intros [= <- <- <-].
    eexists. split; [reflexivity|]. split; [reflexivity | discriminate].
Qed.

(** Candidates that are all passed over leave one entry each, in order. *)
Lemma turns_continue l task options elapsed trail (w : World) elapsed' trail' w' :
  turns adapter l task options elapsed trail w = Continue elapsed' trail' w' ->
  exists entries,
    trail' = trail ++ entries
    /\ map att_strategy entries = l
    /\ Forall (fun a => att_status a <> success) entries.
Proof.
  revert elapsed trail w. induction l as [|s l IH]; intros elapsed trail w; simpl.
  - intros [= <- <- <-]. exists []. rewrite app_nil_r. repeat split. constructor.
  - destruct (attempt adapter s task options elapsed trail w) as [|e1 t1 w1] eqn:E;
      [discriminate|].
    intros H. destruct (attempt_continue _ _ _ _ _ _ _ _ _ E) as [a [-> [Hs Ha]]].
    destruct (IH _ _ _ H) as [entries [-> [Hmap Hall]]].
    exists (a :: entries). rewrite <- app_assoc. simpl.
    split; [reflexivity|]. split; [congruence | constructor; assumption].
Qed.

(** Whatever the chain itself returns or throws carries the trail. *)
Lemma chain_carries_trail l task options elapsed trail (w : World) :
  fst (chain adapter l task options elapsed trail w) <> Hangs ->
  carriesTrail (fst (chain adapter l task options elapsed trail w)).
Proof.
  revert elapsed trail w. induction l as [|s l IH]; intros elapsed trail w; simpl;
    [intros _; exact I|].
  unfold attempt.
  destruct (negb (_isStrategyAvailable adapter s)); [apply IH|].
  destruct (_isStrategySuitable s task) as [[|]|msg]; try apply IH.
  destruct (_executeStrategy adapter s task options w) as [settled w1].
  destruct (_executeWithTimeout settled (timeoutFor options s)); simpl.
  - intros _. eexists. reflexivity.
  - apply IH.
  - intros H. congruence.
Qed.

End WithAdapter.
End ChainFacts.

(* ================================================================== *)
(** ** Orchestration: what [execute] resolves with *)
(* ================================================================== *)

Module ExecuteClaims.
Import OrchestrationStrategy.

Section WithAdapter.
Context {St : Type}.
Variable adapter : Adapter St.

(** C3 (amended).  For a task without an explicit strategy and with at
    most 10 context files, run with the default candidate list through
    an adapter that supports none of [subAgents], [parallelExecution]
    and [streaming] and whose [executeTask] resolves before the timer
    of the sequential attempt fires, [execute] resolves via
    [sequential] and the trail is four skipped attempts followed by
    one success.  The timer is armed with [options.timeout || 60000]
    milliseconds, which it takes as 1 when above 2147483647. *)
Theorem basic_adapter_resolves_sequentially
    (task : Task) (options : Options) (st st' : St) (eng : Engine) (r : Result) (ms : N) :
  opt_strategies options = None ->
  _getExplicitStrategy adapter task = None ->
  supportsFeature adapter "subAgents" = false ->
  supportsFeature adapter "parallelExecution" = false ->
  supportsFeature adapter "streaming" = false ->
  fileCount task <= 10 ->
  executeTask adapter st task = (Resolved r ms, st') ->
  (ms < timeoutFor options "sequential")%N ->
  let trail :=
    [ skippedAttempt "subAgents" "Not available";
      skippedAttempt "parallel" "Not available";
      skippedAttempt "streaming" "Not available";
      skippedAttempt "batched" "Not suitable for task";
      successAttempt "sequential" ms ] in
  fst (execute adapter task options (st, eng))
  = Returned {| payload := r; res_strategy := Some "sequential";
                res_attempts := Some trail; res_totalDuration := Some ms |}
  /\ fourSkipsThenSuccess (fst (execute adapter task options (st, eng)))
  /\ fst (snd (execute adapter task options (st, eng))) = st'.
Proof.
  intros Hdefault Hexplicit HsubAgents Hparallel Hstreaming Hfiles Hrun Hintime trail.
  assert (Hout : execute adapter task options (st, eng)
                 = (Returned {| payload := r; res_strategy := Some "sequential";
                                res_attempts := Some trail; res_totalDuration := Some ms |},
                    (st', emit (_recordSuccess eng "sequential" ms)
                               (StrategySuccess (id task) "sequential" ms trail)))).
  { unfold execute. rewrite Hdefault, Hexplicit. unfold defaultStrategies, chain, attempt.
    unfold _isStrategyAvailable. simpl.
    rewrite HsubAgents, Hparallel, Hstreaming. simpl.
    unfold _isStrategySuitable. simpl.
    destruct (Nat.ltb_spec 10 (fileCount task)) as [E|_]; [lia|].
    unfold _executeStrategy, _executeSequentially. simpl. rewrite Hrun.
    rewrite TimerFacts.race_timeoutFor. unfold settledBy.
    destruct (N.leb_spec ms (timeoutFor options "sequential")) as [_|E]; [|lia].
    reflexivity. }
  rewrite Hout. simpl. split; [reflexivity|]. split; [|reflexivity].
  eexists. split; [reflexivity|]. split; reflexivity.
Qed.

(** C9.  The explicit strategy is run before the chain with no timer
    and no availability or suitability test: however long it takes,
    its result is returned as it is; if it never settles, neither does
    [execute], where the chain would have recorded a timeout.  A name
    outside the five known strategies is not available to the chain,
    yet as an explicit strategy it is run through the sequential path. *)
Theorem explicit_strategy_runs_unchecked
    (task : Task) (options : Options) (w : World) (explicit : string) :
  _getExplicitStrategy adapter task = Some explicit ->
  (forall r ms w1,
     _executeStrategy adapter explicit task options w = (Resolved r ms, w1) ->
     execute adapter task options w
     = (Returned {| payload := r; res_strategy := None; res_attempts := None;
                    res_totalDuration := None |},
        (fst w1, _recordSuccess (snd w1) explicit ms)))
  /\ (forall w1,
        _executeStrategy adapter explicit task options w = (Pending, w1) ->
        execute adapter task options w = (Hangs, w1)
        /\ _executeWithTimeout (@Pending Result) (timeoutFor options explicit)
           = Rejected "Strategy timeout" (timeoutFor options explicit))
  /\ (~ In explicit defaultStrategies ->
        _executeStrategy adapter explicit task options w
        = _executeSequentially adapter task w
        /\ _isStrategyAvailable adapter explicit = false
        /\ _isStrategySuitable explicit task = Normal false).
Proof.
  intros Hexplicit. split; [|split].
  - intros r ms w1 Hrun. unfold execute. rewrite Hexplicit, Hrun. reflexivity.
  - intros w1 Hrun. unfold execute. rewrite Hexplicit, Hrun.
    split; [reflexivity | rewrite TimerFacts.race_timeoutFor; reflexivity].
  - intros Hunknown.
    unfold _executeStrategy, _isStrategyAvailable, _isStrategySuitable, defaultStrategies in *.
    simpl in Hunknown.
    destruct (String.eqb_spec explicit "subAgents"); [intuition congruence|].
    destruct (String.eqb_spec explicit "parallel"); [intuition congruence|].
    destruct (String.eqb_spec explicit "streaming"); [intuition congruence|].
    destruct (String.eqb_spec explicit "batched"); [intuition congruence|].
    destruct (String.eqb_spec explicit "sequential"); [intuition congruence|].
    repeat split.
Qed.

(** C4 (amended).  When the explicit strategy [parallel] fails,
    [execute] goes on with the ordinary chain, in which [parallel] is
    still a candidate.  If each candidate ahead of [sequential] is
    skipped or fails before its timer fires, and [executeTask] then
    resolves before the sequential timer fires, [execute] resolves via
    [sequential]; the trail ends with one entry, not a success, for
    each of the four earlier candidates, the second one being the
    chain's own entry for [parallel], followed by the success.  (What
    leads the trail is left open.) *)
Theorem failed_explicit_parallel_falls_back
    (task : Task) (options : Options) (w w1 w2 : World) (msg : string) (ms elapsed ms' : N)
    (entries : list StrategyAttempt) (r : Result) (st' : St) :
  opt_strategies options = None ->
  _getExplicitStrategy adapter task = Some "parallel" ->
  _executeStrategy adapter "parallel" task options w = (Rejected msg ms, w1) ->
  turns adapter ["subAgents"; "parallel"; "streaming"; "batched"] task options ms []
        (fst w1, _recordFailure (snd w1) "parallel" msg)
  = Continue elapsed entries w2 ->
  Forall (fun a => (att_duration a < timeoutFor options (att_strategy a))%N) entries ->
  executeTask adapter (fst w2) task = (Resolved r ms', st') ->
  (ms' < timeoutFor options "sequential")%N ->
  (exists lead,
     fst (execute adapter task options w)
     = Returned {| payload := r; res_strategy := Some "sequential";
                   res_attempts :=
                     Some (lead ++ entries ++ [successAttempt "sequential" ms']);
                   res_totalDuration := Some (elapsed + ms')%N |})
  /\ map att_strategy entries = ["subAgents"; "parallel"; "streaming"; "batched"]
  /\ Forall (fun a => att_status a <> success) entries.
Proof.
  intros Hdefault Hexplicit Hfail Hturns _ Hrun Hintime.
  destruct (ChainFacts.turns_continue adapter _ _ _ _ _ _ _ _ _ Hturns)
    as [es [Hes [Hnames Hnone]]].
  simpl in Hes. subst es.
  split; [|split; assumption].
  exists []. unfold execute. rewrite Hdefault, Hexplicit, Hfail.
  change defaultStrategies
    with (["subAgents"; "parallel"; "streaming"; "batched"] ++ ["sequential"]).
  rewrite ChainFacts.chain_app, Hturns.
  unfold chain, attempt, _isStrategyAvailable, _isStrategySuitable. simpl.
  unfold _executeStrategy, _executeSequentially. simpl. rewrite Hrun.
  rewrite TimerFacts.race_timeoutFor. unfold settledBy.
  destruct (N.leb_spec ms' (timeoutFor options "sequential")) as [_|E]; [|lia].
  reflexivity.
Qed.

End WithAdapter.

(** C3, as stated, fails for a task with more than ten files: the
    [batched] strategy is always available and suitable for it, so an
    adapter without advanced capabilities resolves via [batched] after
    three skips. *)
Lemma eleven_files_resolve_via_batched :
  _getExplicitStrategy Fixtures.basicAdapter Fixtures.elevenFilesTask = None
  /\ (forall f, supportsFeature Fixtures.basicAdapter f = false)
  /\ (forall calls t,
        executeTask Fixtures.basicAdapter calls t
        = (Resolved (Fixtures.completed "ok") 0%N, S calls))
  /\ (exists r,
        fst (execute Fixtures.basicAdapter Fixtures.elevenFilesTask noOptions (0, create))
        = Returned r
        /\ res_strategy r = Some "batched"
        /\ option_map (map att_status) (res_attempts r)
           = Some [skipped; skipped; skipped; success])
  /\ ~ fourSkipsThenSuccess
         (fst (execute Fixtures.basicAdapter Fixtures.elevenFilesTask noOptions (0, create))).
Proof.
  split; [reflexivity|]. split; [reflexivity|]. split; [reflexivity|].
  split.
  - eexists. split; [vm_compute; reflexivity|]. split; reflexivity.
  - intros [r [Hr [Hs _]]]. vm_compute in Hr. injection Hr as <-. discriminate.
Qed.

(** C4, as stated, fails: for a validation task naming [parallel], run
    through an adapter with parallel execution whose first two calls
    are rejected, [execute] resolves via [sequential], but the trail
    opens with the skipped [subAgents] entry, and its second entry is a
    second, failed execution of [parallel] made by the chain. *)
Lemma explicit_parallel_retried_and_unrecorded :
  let out := execute Fixtures.twiceFailingAdapter Fixtures.explicitParallelTask noOptions
                     (0, create) in
  _getExplicitStrategy Fixtures.twiceFailingAdapter Fixtures.explicitParallelTask
  = Some "parallel"
  /\ fst (_executeStrategy Fixtures.twiceFailingAdapter "parallel"
            Fixtures.explicitParallelTask noOptions (0, create))
     = Rejected "Parallel failed" 0%N
  /\ (exists r,
        fst out = Returned r
        /\ res_strategy r = Some "sequential"
        /\ option_map (map (fun a => (att_strategy a, att_status a))) (res_attempts r)
           = Some [("subAgents", skipped); ("parallel", failed); ("streaming", skipped);
                   ("batched", skipped); ("sequential", success)])
  /\ fst (snd out) = 3
  /\ option_map attempts (OMap.get "parallel" (strategyStats (snd (snd out)))) = Some 2
  /\ ~ explicitFailureLeadsTrail "parallel" (fst out).
Proof.
  split; [reflexivity|]. split; [reflexivity|]. split.
  { eexists. split; [vm_compute; reflexivity|]. split; reflexivity. }
  split; [reflexivity|]. split; [reflexivity|].
  intros [r [first [rest [Hr [Htrail [Hname _]]]]]].
  vm_compute in Hr. injection Hr as <-. simpl in Htrail.
  injection Htrail as <- _. discriminate.
Qed.

(** C5 (as the code behaves).  A success obtained through the explicit
    strategy resolves with the adapter's result alone: the returned
    object has no [attempts], no [strategy] and no [totalDuration].
    The input is that of the test "should honor explicit strategy in
    vendor extensions". *)
Theorem explicit_success_returns_bare_result :
  let out := execute Fixtures.streamingAdapter Fixtures.explicitStreamingTask noOptions
                     (0, create) in
  _getExplicitStrategy Fixtures.streamingAdapter Fixtures.explicitStreamingTask
  = Some "streaming"
  /\ fst out
     = Returned {| payload := Fixtures.statusOnly; res_strategy := None;
                   res_attempts := None; res_totalDuration := None |}
  /\ ~ carriesTrail (fst out).
Proof.
  split; [reflexivity|]. split; [reflexivity|].
  intros [trail Htrail]. discriminate.
Qed.

End ExecuteClaims.

(* ================================================================== *)
(** ** Routing cache *)
(* ================================================================== *)

Module RouterFacts.
Import TaskRouter.

Section WithAdapterState.
Context {St : Type}.



Lemma insertByTime_length (x : string * RoutingDecision St) (l : list (string * RoutingDecision St)) :
  List.length (insertByTime x l) = S (List.length l).
Proof.
  induction l as [|y l IH]; simpl; [reflexivity|].
  destruct (Z.ltb _ _); simpl; [rewrite IH|]; reflexivity.
Qed.

Lemma sortByTime_length (l : list (string * RoutingDecision St)) : List.length (sortByTime l) = List.length l.
Proof.
  unfold sortByTime. induction l as [|x l IH]; simpl; [reflexivity|].
  rewrite insertByTime_length, IH. reflexivity.
Qed.

Lemma In_insertByTime (x y : string * RoutingDecision St) (l : list (string * RoutingDecision St)) :
  In y (insertByTime x l) -> y = x \/ In y l.
Proof.
  induction l as [|z l IH]; simpl; [intuition congruence|].
  destruct (Z.ltb _ _); simpl; intuition congruence.
Qed.

Lemma In_sortByTime (y : string * RoutingDecision St) (l : list (string * RoutingDecision St)) : In y (sortByTime l) -> In y l.
Proof.
  unfold sortByTime. induction l as [|x l IH]; simpl; [tauto|].
  intros H. apply In_insertByTime in H. intuition congruence.
Qed.





Lemma In_delete (k key : string) (e : RoutingDecision St) (c : OMap.t (RoutingDecision St)) :
  In (k, e) (OMap.delete key c) -> In (k, e) c.
Proof.
  induction c as [|[k0 v0] c IH]; simpl; [tauto|].
  destruct (String.eqb key k0); simpl; intuition.
Qed.

(** After a lookup that finds nothing usable, the key is not cached. *)
Lemma miss_leaves_key_free (rt rt' : Router St) (key : string) (now : Z) :
  _getCachedRoute rt key now = (None, rt') ->
  OMap.get key (_routingCache rt') = None
  /\ (forall k e, In (k, e) (_routingCache rt') -> In (k, e) (_routingCache rt))
  /\ nextOid rt' = nextOid rt /\ registryQueries rt' = registryQueries rt.
Proof.
  unfold _getCachedRoute.
  destruct (OMap.get key (_routingCache rt)) as [cached|] eqn:E.
  - destruct (Z.gtb _ _); [|discriminate]. intros [= <-]. simpl.
    rewrite OMapFacts.get_delete, String.eqb_refl.
    split; [reflexivity|]. split; [|split; reflexivity].
    intros k e. apply In_delete.
  - intros [= <-]. split; [exact E|]. split; [tauto | split; reflexivity].
Qed.

(** A lookup that succeeds returns the cached decision and changes nothing. *)
Lemma hit_returns_entry (rt rt' : Router St) (key : string) (now : Z)
    (d : RoutingDecision St) :
  _getCachedRoute rt key now = (Some d, rt') ->
  rt' = rt /\ OMap.get key (_routingCache rt) = Some d.
Proof.
  unfold _getCachedRoute.
  destruct (OMap.get key (_routingCache rt)) as [cached|]; [|discriminate].
  destruct (Z.gtb _ _); [discriminate|]. intros [= <- <-]. split; reflexivity.
Qed.



Lemma In_set (k key : string) (e d : RoutingDecision St) (c : OMap.t (RoutingDecision St)) :
  In (k, e) (OMap.set key d c) -> (k, e) = (key, d) \/ In (k, e) c.
Proof.
  induction c as [|[k0 v0] c IH]; simpl; [intuition congruence|].
  destruct (String.eqb key k0); simpl; intuition congruence.
Qed.

Lemma In_after_deletes (x : string * RoutingDecision St)
    (es : list (string * RoutingDecision St)) (c : OMap.t (RoutingDecision St)) :
  In x (fold_left (fun acc e => OMap.delete (fst e) acc) es c) -> In x c.
Proof.
  revert c. induction es as [|e es IH]; intros c; simpl; [tauto|].
  intros H. apply IH in H. destruct x as [k v]. exact (In_delete _ _ _ _ H).
Qed.

Lemma cacheRoute_entries (rt : Router St) (key k : string) (d e : RoutingDecision St) :
  In (k, e) (_routingCache (_cacheRoute rt key d)) ->
  (k, e) = (key, d) \/ In (k, e) (_routingCache rt).
Proof.
  unfold _cacheRoute.
  destruct (Nat.ltb 1000 (OMap.size (OMap.set key d (_routingCache rt))));
    unfold withCache; cbn [_routingCache]; intros H.
  - apply In_after_deletes in H. exact (In_set _ _ _ _ _ H).
  - exact (In_set _ _ _ _ _ H).
Qed.

Lemma cacheRoute_nextOid (rt : Router St) (key : string) (d : RoutingDecision St) :
  nextOid (_cacheRoute rt key d) = nextOid rt.
Proof. unfold _cacheRoute. destruct (Nat.ltb _ _); reflexivity. Qed.

(** [route] hands out object identities in increasing order: a decision
    it returns is either one that was cached already, or a new object
    whose identity no cached decision has. *)
Lemma route_allocates (registry : AdapterRegistry.Registry St) (rt rt1 : Router St)
    (task : Task) (nowCheck nowStamp : Z) (d : RoutingDecision St) :
  oidsAllocated rt ->
  route registry rt task nowCheck nowStamp = (Normal d, rt1) ->
  oidsAllocated rt1
  /\ ((exists k, In (k, d) (_routingCache rt))
      \/ (oid d = nextOid rt
          /\ forall k e, In (k, e) (_routingCache rt) -> oid e <> oid d)).
Proof.
  intros Halloc. unfold route.
  destruct (_generateCacheKey task) as [key|]; [|discriminate].
  destruct (_getCachedRoute rt key nowCheck) as [[cached|] rt'] eqn:Elookup.
  - apply hit_returns_entry in Elookup. destruct Elookup as [-> Hget].
    intros [= <- <-]. split; [exact Halloc|]. left. exists key.
    clear - Hget. unfold OMap.get in Hget.
    induction (_routingCache rt) as [|[k0 v0] c IH]; simpl in *; [discriminate|].
    destruct (String.eqb_spec key k0) as [->|_]; [left; congruence | right; auto].
  - apply miss_leaves_key_free in Elookup.
    destruct Elookup as [_ [Hsub [Hoid _]]].
    destruct (analyzeTask task) as [reqs|]; [|discriminate].
    destruct (AdapterRegistry.selectOptimalAdapter _ _ _) as [selection|]; [|discriminate].
    intros [= <- <-]. split.
    + intros k e He. unfold emit in He. cbn [_routingCache] in He.
      apply cacheRoute_entries in He.
      unfold emit. cbn [nextOid]. rewrite cacheRoute_nextOid. cbn [nextOid].
      destruct He as [[= _ ->]|He]; simpl in *.
      * lia.
      * apply Hsub, Halloc in He. lia.
    + right. simpl. split; [exact Hoid|].
      intros k e He. apply Halloc in He. lia.
Qed.

(** A clock that does not step back keeps the stamps of the cache
    behind it: after a [route] call stamped no later than [bound], no
    cached decision is stamped later than [bound] if none was before. *)
Lemma route_keeps_stamps_behind (registry : AdapterRegistry.Registry St) (rt : Router St)
    (task : Task) (nowCheck nowStamp bound : Z) :
  (forall k e, In (k, e) (_routingCache rt) -> (timestamp e <= bound)%Z) ->
  (nowStamp <= bound)%Z ->
  forall k e,
    In (k, e) (_routingCache (snd (route registry rt task nowCheck nowStamp))) ->
    (timestamp e <= bound)%Z.
Proof.
  intros Hold Hnow k e. unfold route.
  destruct (_generateCacheKey task) as [key|]; [|apply Hold].
  destruct (_getCachedRoute rt key nowCheck) as [[cached|] rt'] eqn:Elookup.
  - apply hit_returns_entry in Elookup. destruct Elookup as [-> _]. apply Hold.
  - apply miss_leaves_key_free in Elookup. destruct Elookup as [_ [Hsub _]].
    destruct (analyzeTask task) as [reqs|]; [|intros H; apply (Hold k), Hsub, H].
    destruct (AdapterRegistry.selectOptimalAdapter _ _ _) as [selection|];
      [|intros H; apply (Hold k), Hsub, H].
    cbn [snd]. unfold emit. cbn [_routingCache]. intros H.
    apply cacheRoute_entries in H. cbn [_routingCache] in H.
    destruct H as [[= _ ->]|H]; [exact Hnow | apply (Hold k), Hsub, H].
Qed.


End WithAdapterState.


End RouterFacts.

(* ================================================================== *)
(** ** Instances on concrete adapters and tasks *)
(* ================================================================== *)

Module Instances.
Import OrchestrationStrategy.

(** An adapter that supports [generation] but not the required
    [testing] scores 0. *)
Lemma generation_only_scores_zero :
  AdapterRegistry._calculateCapabilityScore Fixtures.generationOnly Fixtures.needsTesting
  = 0%Q.
Proof.
  exact (proj1 (RegistryClaims.unsupported_required_feature_scores_zero
                  Fixtures.generationOnly Fixtures.needsTesting
                  ["generation"; "testing"] "testing"
                  eq_refl (or_intror (or_introl eq_refl)) eq_refl)).
Defined.

(** An adapter that knows python but not rust, asked for both, scores 0. *)
Lemma python_without_rust_scores_zero :
  AdapterRegistry._calculateCapabilityScore Fixtures.basicAdapter
    (Fixtures.languagesOnly ["python"; "rust"]) = 0%Q.
Proof.
  exact (proj1 (proj2 (RegistryClaims.partial_language_match_is_disqualified
                         Fixtures.basicAdapter (Fixtures.languagesOnly ["python"; "rust"])
                         ["python"; "rust"] eq_refl (conj (le_n 1) (le_n 2))))).
Defined.

(** The test "should try strategies in order until one succeeds" *)
Lemma three_files_resolve_sequentially :
  fourSkipsThenSuccess
    (fst (execute Fixtures.basicAdapter Fixtures.threeFilesTask noOptions (0, create))).
Proof.
  refine (proj1 (proj2 (ExecuteClaims.basic_adapter_resolves_sequentially
                          Fixtures.basicAdapter Fixtures.threeFilesTask noOptions 0 1 create
                          (Fixtures.completed "ok") 0%N
                          eq_refl eq_refl eq_refl eq_refl eq_refl _ eq_refl _))).
  - unfold fileCount. simpl. repeat constructor.
  - reflexivity.
Defined.

(** The explicit [parallel] of a validation task fails, the chain tries
    [parallel] again, and [sequential] succeeds. *)
Lemma explicit_parallel_example :
  exists entries,
    (exists lead,
       fst (execute Fixtures.twiceFailingAdapter Fixtures.explicitParallelTask noOptions
                    (0, create))
       = Returned {| payload := Fixtures.completed "ok"; res_strategy := Some "sequential";
                     res_attempts :=
                       Some (lead ++ entries ++ [successAttempt "sequential" 0%N]);
                     res_totalDuration := Some 0%N |})
    /\ map att_strategy entries = ["subAgents"; "parallel"; "streaming"; "batched"]
    /\ Forall (fun a => att_status a <> success) entries.
Proof.
  eexists.
  refine (ExecuteClaims.failed_explicit_parallel_falls_back
            Fixtures.twiceFailingAdapter Fixtures.explicitParallelTask noOptions
            (0, create) _ _ _ _ 0%N 0%N _ _ _
            eq_refl eq_refl eq_refl eq_refl _ eq_refl _).
  - repeat constructor.
  - reflexivity.
Defined.

(** The first registered version is the default; once it is removed the
    remaining version takes over. *)
Lemma version_history_default :
  exists! d,
    OMap.get "claude-code"
      (AdapterRegistry._defaultVersions (AdapterRegistry.after Fixtures.versionHistory))
    = Some d
    /\ OMap.has d [("2.0.0", Fixtures.basicAdapter)] = true.
Proof.
  exact (proj2 (proj1 (RegistryClaims.one_default_version_per_registered_name
                         Fixtures.versionHistory)
                      "claude-code" [("2.0.0", Fixtures.basicAdapter)] eq_refl)).
Defined.


(** A profile with [subAgents: {supported: false}] *)
Lemma subAgents_off_still_available :
  AIAgentAdapter.supportsFeature (toJs Fixtures.subAgentsOffCaps) "subAgents"
  = Normal (JBool true)
  /\ _isStrategyAvailable (Fixtures.profileAdapter Fixtures.subAgentsOffCaps) "subAgents"
     = true.
Proof.
  exact (CapabilityClaims.subAgents_object_counts_as_supported
           (match toJs Fixtures.subAgentsOffCaps with JObj fs => fs | _ => [] end)
           [("supported", JBool false)]
           (Fixtures.profileAdapter Fixtures.subAgentsOffCaps)
           eq_refl (fun f => eq_refl)).
Defined.

(** An unknown explicit strategy that takes ten minutes is returned all
    the same, through the sequential path. *)
Lemma unknown_slow_explicit_strategy :
  execute Fixtures.slowAdapter Fixtures.turboTask noOptions (0, create)
  = (Returned {| payload := Fixtures.completed "late"; res_strategy := None;
                 res_attempts := None; res_totalDuration := None |},
     (1, _recordSuccess create "turbo" 600000%N)).
Proof.
  exact (proj1 (ExecuteClaims.explicit_strategy_runs_unchecked
                  Fixtures.slowAdapter Fixtures.turboTask noOptions (0, create) "turbo"
                  eq_refl)
               (Fixtures.completed "late") 600000%N (1, create) eq_refl).
Defined.

End Instances.

(* ================================================================== *)
(** ** The embedding on inputs of the repository's test-suite *)
(* ================================================================== *)

Module ModelChecks.
Import OrchestrationStrategy.

(** "should find adapters matching capability requirements": only
    [adapter1] matches, with score 20 + 5 + 1/4 + 5 + 3. *)
Example registry_high_requirements :
  map (fun m => (AdapterRegistry.m_name m, Qeq_bool (AdapterRegistry.m_score m) (133 # 4)))
      (AdapterRegistry.findMatchingAdapters Fixtures.twoAdapters Fixtures.highRequirements)
  = [("adapter1", true)].
Proof. vm_compute. reflexivity. Qed.

(** "should analyze task to determine capability requirements" *)
Example analyze_react_task :
  TaskRouter.analyzeTask Fixtures.reactTask
  = Normal {| req_features := Some ["generation"; "refactoring"];
              minContextTokens := 1507;
              req_languages := Some ["typescript"];
              req_multiFile := true; req_streaming := true; req_subAgents := false |}.
Proof. vm_compute. reflexivity. Qed.

(** "should batch large file sets": 25 files, 5 batches, 5 adapter calls *)
Example twenty_five_files_in_five_batches :
  let out := execute Fixtures.basicAdapter Fixtures.twentyFiveFilesTask noOptions
                     (0, create) in
  match fst out with
  | Returned r => (res_strategy r, batchCount (payload r), fst (snd out))
  | _ => (None, None, 0)
  end = (Some "batched", Some 5, 5).
Proof. vm_compute. reflexivity. Qed.

(** "should fall back if explicit strategy fails", on the test's own
    input: the call resolves via [sequential] after five chain entries,
    the first of which is the skipped [subAgents]. *)
Example fallback_test_input :
  match fst (execute Fixtures.onceFailingAdapter Fixtures.fallbackTestTask noOptions
                     (0, create)) with
  | Returned r =>
      (res_strategy r,
       option_map (map (fun a => (att_strategy a, att_status a))) (res_attempts r))
  | _ => (None, None)
  end
  = (Some "sequential",
     Some [("subAgents", skipped); ("parallel", skipped); ("streaming", skipped);
           ("batched", skipped); ("sequential", success)]).
Proof. vm_compute. reflexivity. Qed.

(** The dotted query reads the [supported] flag that the plain query ignores. *)
Example dotted_query_reads_flag :
  AIAgentAdapter.supportsFeature (toJs Fixtures.subAgentsOffCaps) "subAgents.supported"
  = Normal (JBool false).
Proof. reflexivity. Qed.

(** A registry holding only an adapter with partial language coverage
    returns no match at all. *)
Example partial_languages_no_match :
  AdapterRegistry.findMatchingAdapters
    (AdapterRegistry.after
       [AdapterRegistry.CallRegister "basic" (Some Fixtures.basicAdapter) None true])
    (Fixtures.languagesOnly ["python"; "rust"])
  = [].
Proof. reflexivity. Qed.

(** A registered adapter without recorded executions and without a
    colliding name answers with the default record. *)
Example registered_adapter_default_metrics :
  AdapterRegistry.getAdapterMetrics
    (AdapterRegistry.after
       [AdapterRegistry.CallRegister "claude-code" (Some Fixtures.basicAdapter)
          (Some "2.0.0") true])
    "claude-code" "2.0.0"
  = AdapterRegistry.defaultMetrics.
Proof. reflexivity. Qed.

End ModelChecks.

(* ================================================================== *)
(** ** Capability queries on schema-shaped profiles *)
(* ================================================================== *)

Module CapabilityExtras.
Import AdapterBase.

Lemma assoc_flags (f : string) (fl : list (string * FeatureFlag)) :
  assoc f (map (fun kv => (fst kv, flagToJs (snd kv))) fl) = option_map flagToJs (assoc f fl).
Proof.
  induction fl as [|[k v] fl IH]; simpl; [reflexivity|].
  destruct (String.eqb f k); [reflexivity | exact IH].
Qed.

(** The own properties of the stored profile *)
Lemma toJs_fields (caps : Capabilities) :
  exists fields,
    toJs caps = JObj fields
    /\ assoc "features" fields
       = Some (JObj (map (fun kv => (fst kv, flagToJs (snd kv))) (cap_features caps)))
    /\ (forall f, assoc f fields = None <-> ~ In f (topLevelKeys caps))
    /\ (forall f v, assoc f fields = Some v -> v <> JNull /\ v <> JUndefined).
Proof.
  unfold toJs, topLevelKeys. eexists. split; [reflexivity|].
  destruct (cap_subAgents caps) as [sa|]; simpl.
  - split; [reflexivity|]. split.
    + intros f.
      destruct (String.eqb_spec f "maxContextTokens"); [subst; split; [discriminate | intros H; exfalso; apply H; simpl; auto 10]|].
      destruct (String.eqb_spec f "supportedLanguages"); [subst; split; [discriminate | intros H; exfalso; apply H; simpl; auto 10]|].
      destruct (String.eqb_spec f "multiFile"); [subst; split; [discriminate | intros H; exfalso; apply H; simpl; auto 10]|].
      destruct (String.eqb_spec f "streaming"); [subst; split; [discriminate | intros H; exfalso; apply H; simpl; auto 10]|].
      destruct (String.eqb_spec f "subAgents"); [subst; split; [discriminate | intros H; exfalso; apply H; simpl; auto 10]|].
      destruct (String.eqb_spec f "features"); [subst; split; [discriminate | intros H; exfalso; apply H; simpl; auto 10]|].
      split; [intros _; intuition congruence | reflexivity].
    + intros f v.
      destruct (String.eqb f "maxContextTokens"); [intros [= <-]; split; discriminate|].
      destruct (String.eqb f "supportedLanguages"); [intros [= <-]; split; discriminate|].
      destruct (String.eqb f "multiFile"); [intros [= <-]; split; discriminate|].
      destruct (String.eqb f "streaming"); [intros [= <-]; split; discriminate|].
      destruct (String.eqb f "subAgents"); [intros [= <-]; split; discriminate|].
      destruct (String.eqb f "features"); [intros [= <-]; split; discriminate|].
      discriminate.
  - split; [reflexivity|]. split.
    + intros f.
      destruct (String.eqb_spec f "maxContextTokens"); [subst; split; [discriminate | intros H; exfalso; apply H; simpl; auto 10]|].
      destruct (String.eqb_spec f "supportedLanguages"); [subst; split; [discriminate | intros H; exfalso; apply H; simpl; auto 10]|].
      destruct (String.eqb_spec f "multiFile"); [subst; split; [discriminate | intros H; exfalso; apply H; simpl; auto 10]|].
      destruct (String.eqb_spec f "streaming"); [subst; split; [discriminate | intros H; exfalso; apply H; simpl; auto 10]|].
      destruct (String.eqb_spec f "features"); [subst; split; [discriminate | intros H; exfalso; apply H; simpl; auto 10]|].
      split; [intros _; intuition congruence | reflexivity].
    + intros f v.
      destruct (String.eqb f "maxContextTokens"); [intros [= <-]; split; discriminate|].
      destruct (String.eqb f "supportedLanguages"); [intros [= <-]; split; discriminate|].
      destruct (String.eqb f "multiFile"); [intros [= <-]; split; discriminate|].
      destruct (String.eqb f "streaming"); [intros [= <-]; split; discriminate|].
      destruct (String.eqb f "features"); [intros [= <-]; split; discriminate|].
      discriminate.
Qed.

(** The three-step lookup on an object whose feature table holds flags *)
Lemma lookup_steps (fields : list (string * JsVal)) (fl : list (string * FeatureFlag))
    (f : string) :
  assoc "features" fields = Some (JObj (map (fun kv => (fst kv, flagToJs (snd kv))) fl)) ->
  (forall g v, assoc g fields = Some v -> v <> JNull /\ v <> JUndefined) ->
  AIAgentAdapter.supportsFeature (JObj fields) f
  = match assoc f fields with
    | Some v => Normal (JBool (truthy v))
    | None =>
        match assoc f fl with
        | Some flag => Normal (JBool (flagEnabled flag))
        | None =>
            if includes "." f then
              match splitDot f with
              | parent :: child :: _ =>
                  match assoc parent fields with
                  | Some (JObj o) =>
                      match assoc child o with
                      | Some x => Normal (JBool (truthy x))
                      | None => Normal (JBool false)
                      end
                  | Some (JArr xs) =>
                      if (String.eqb child "length"
                          || match indexOfKey child (List.length xs) with
                             | Some _ => true
                             | None => false
                             end)%bool
                      then Normal (JBool (truthy (getProp (JArr xs) child)))
                      else Normal (JBool false)
                  | _ => Normal (JBool false)
                  end
              | _ => Normal (JBool false)
              end
            else Normal (JBool false)
        end
    end.
Proof.
  intros Hfeatures Hvalues. unfold AIAgentAdapter.supportsFeature. simpl.
  destruct (assoc f fields) as [v|] eqn:Etop; simpl; [reflexivity|].
  rewrite Hfeatures. simpl. rewrite assoc_flags.
  destruct (assoc f fl) as [flag|]; simpl.
  - destruct flag as [b|e c]; simpl; [reflexivity|]. destruct e; reflexivity.
  - destruct (includes "." f); [|reflexivity].
    destruct (splitDot f) as [|parent [|child rest]]; try reflexivity.
    destruct (assoc parent fields) as [pv|] eqn:Eparent; simpl; [|reflexivity].
    destruct (Hvalues _ _ Eparent) as [Hnull Hundef].
    destruct pv as [| |b|n|s|xs|o]; simpl; try reflexivity; try congruence.
    + destruct b; reflexivity.
    + destruct (negb (Z.eqb n 0)); reflexivity.
    + destruct (negb (String.eqb s "")); reflexivity.
    + destruct (assoc child o); reflexivity.
Qed.

(** X1.  On a profile of the schema's shape [supportsFeature] never
    throws and always answers with a boolean, whatever name is asked. *)
Theorem supportsFeature_total_on_profiles (caps : Capabilities) (f : string) :
  exists b, AIAgentAdapter.supportsFeature (toJs caps) f = Normal (JBool b).
Proof.
  destruct (toJs_fields caps) as [fields [-> [Hfeatures [_ Hvalues]]]].
  rewrite (lookup_steps fields (cap_features caps) f Hfeatures Hvalues).
  destruct (assoc f fields); [eexists; reflexivity|].
  destruct (assoc f (cap_features caps)); [eexists; reflexivity|].
  destruct (includes "." f); [|eexists; reflexivity].
  destruct (splitDot f) as [|parent [|child rest]]; try (eexists; reflexivity).
  destruct (assoc parent fields) as [[| |b|n|s|xs|o]|]; try (eexists; reflexivity).
  - destruct (_ || _)%bool; eexists; reflexivity.
  - destruct (assoc child o); eexists; reflexivity.
Qed.

(** X2.  Resolution order of [supportsFeature]: a top-level name of the
    profile is answered from the profile alone, whatever the feature
    table says under the same name; any other name (names inherited
    from [Object.prototype] apart) is answered by its feature flag (the
    boolean, or [enabled]); a name that is neither and contains no dot
    is unsupported. *)
Theorem supportsFeature_resolution_order (caps : Capabilities) (f : string) :
  (In f (topLevelKeys caps) ->
   AIAgentAdapter.supportsFeature (toJs caps) f
   = Normal (JBool (truthy (getProp (toJs caps) f))))
  /\ (forall flag,
        ~ In f (topLevelKeys caps) ->
        ~ In f objectPrototypeNames ->
        assoc f (cap_features caps) = Some flag ->
        AIAgentAdapter.supportsFeature (toJs caps) f = Normal (JBool (flagEnabled flag)))
  /\ (~ In f (topLevelKeys caps) ->
      ~ In f objectPrototypeNames ->
      assoc f (cap_features caps) = None ->
      includes "." f = false ->
      AIAgentAdapter.supportsFeature (toJs caps) f = Normal (JBool false)).
Proof.
  destruct (toJs_fields caps) as [fields [E [Hfeatures [Htop Hvalues]]]].
  rewrite E. rewrite (lookup_steps fields (cap_features caps) f Hfeatures Hvalues).
  split; [|split].
  - intros Hin. destruct (assoc f fields) as [v|] eqn:Ef.
    + simpl. rewrite Ef. reflexivity.
    + apply Htop in Ef. contradiction.
  - intros flag Hout _ Hflag. apply Htop in Hout. rewrite Hout, Hflag. reflexivity.
  - intros Hout _ Hflag Hdot. apply Htop in Hout. rewrite Hout, Hflag, Hdot. reflexivity.
Qed.

(** X3.  [getFeatureConfig] on a profile of the schema's shape never
    throws: a detailed feature entry gives its [config] when that is
    truthy, whether or not the entry is enabled; a boolean flag, a
    missing feature and a falsy [config] give [null]. *)
Theorem getFeatureConfig_ignores_enabled (caps : Capabilities) (f : string) :
  AIAgentAdapter.getFeatureConfig (toJs caps) f
  = Normal match assoc f (cap_features caps) with
           | Some (FlagDetailed _ config) => if truthy config then config else JNull
           | _ => JNull
           end.
Proof.
  destruct (toJs_fields caps) as [fields [E [Hfeatures _]]].
  rewrite E. unfold AIAgentAdapter.getFeatureConfig, getProp.
  rewrite Hfeatures. cbn [truthy negb]. rewrite assoc_flags.
  destruct (assoc f (cap_features caps)) as [[b|e c]|]; reflexivity.
Qed.

(** X4.  Vendor extensions round trip: after [addVendorExtensions] the
    vendor's entry is the one just added, every other vendor's entry
    (names inherited from [Object.prototype] apart) is what it was, and
    the task's other fields are unchanged. *)
Theorem vendor_extensions_round_trip (task : Task) (vendor other : string) (ext : VendorExt) :
  (other = vendor \/ ~ In other objectPrototypeNames ->
   getVendorExtensions (addVendorExtensions task vendor ext) other
   = (if String.eqb other vendor then Some ext else getVendorExtensions task other))
  /\ id (addVendorExtensions task vendor ext) = id task
  /\ type (addVendorExtensions task vendor ext) = type task
  /\ description (addVendorExtensions task vendor ext) = description task
  /\ context (addVendorExtensions task vendor ext) = context task.
Proof.
  split; [intros _|repeat split].
  unfold getVendorExtensions, addVendorExtensions. cbn [extensions].
  change (assoc other (OMap.set vendor ext
                         match extensions task with Some es => es | None => [] end))
    with (OMap.get other (OMap.set vendor ext
                            match extensions task with Some es => es | None => [] end)).
  rewrite OMapFacts.get_set. destruct (String.eqb other vendor); [reflexivity|].
  destruct (extensions task); reflexivity.
Qed.

End CapabilityExtras.

(* ================================================================== *)
(** ** More facts about insertion-ordered maps *)
(* ================================================================== *)

Module OMapMore.
Import OMap.

Lemma omap_In_set {V : Type} (k key : string) (v x : V) (m : t V) :
  In (k, v) (set key x m) -> (k, v) = (key, x) \/ In (k, v) m.
Proof.
  induction m as [|[k0 v0] m IH]; simpl; [intuition congruence|].
  destruct (String.eqb key k0); simpl; intuition congruence.
Qed.

Lemma omap_In_delete {V : Type} (k key : string) (v : V) (m : t V) :
  In (k, v) (delete key m) -> In (k, v) m /\ k <> key.
Proof.
  induction m as [|[k0 v0] m IH]; simpl; [tauto|].
  destruct (String.eqb_spec key k0) as [->|Hne]; simpl.
  - intros H. destruct (IH H). tauto.
  - intros [[= <- <-]|H]; [split; [tauto | congruence]|].
    destruct (IH H). tauto.
Qed.

Lemma get_In {V : Type} (k : string) (v : V) (m : t V) :
  get k m = Some v -> In (k, v) m.
Proof.
  unfold get. induction m as [|[k0 v0] m IH]; simpl; [discriminate|].
  destruct (String.eqb_spec k k0) as [->|_]; [intros [= ->]; tauto | auto].
Qed.

Lemma In_get {V : Type} (k : string) (v : V) (m : t V) :
  wf m -> In (k, v) m -> get k m = Some v.
Proof.
  unfold wf, keys, get. induction m as [|[k0 v0] m IH]; simpl; [tauto|].
  intros Hnd. inversion Hnd as [|? ? Hnotin Hnd']; subst.
  intros [[= -> ->]|Hin].
  - rewrite String.eqb_refl. reflexivity.
  - destruct (String.eqb_spec k k0) as [->|_]; [|exact (IH Hnd' Hin)].
    exfalso. apply Hnotin. apply (in_map fst) in Hin. exact Hin.
Qed.

Lemma keys_set {V : Type} (key : string) (x : V) (m : t V) :
  keys (set key x m) = if has key m then keys m else keys m ++ [key].
Proof.
  unfold keys, has, get. induction m as [|[k0 v0] m IH]; simpl; [reflexivity|].
  destruct (String.eqb key k0) eqn:E; simpl.
  - apply String.eqb_eq in E. subst. reflexivity.
  - rewrite IH. destruct (assoc key m); reflexivity.
Qed.

Lemma has_In_keys {V : Type} (key : string) (m : t V) :
  has key m = true <-> In key (keys m).
Proof.
  unfold has, get, keys. induction m as [|[k0 v0] m IH]; simpl; [intuition discriminate|].
  destruct (String.eqb_spec key k0) as [->|Hne]; [tauto|].
  rewrite IH. intuition congruence.
Qed.

Lemma wf_set {V : Type} (key : string) (x : V) (m : t V) : wf m -> wf (set key x m).
Proof.
  unfold wf. rewrite keys_set. intros Hnd.
  destruct (has key m) eqn:E; [exact Hnd|].
  apply NoDup_app; [exact Hnd | constructor; [tauto | constructor] |].
  intros k Hin [<-|[]]. apply has_In_keys in Hin. congruence.
Qed.

Lemma keys_delete {V : Type} (key : string) (m : t V) :
  keys (delete key m) = filter (fun k => negb (String.eqb key k)) (keys m).
Proof.
  unfold keys. induction m as [|[k0 v0] m IH]; simpl; [reflexivity|].
  destruct (String.eqb key k0); simpl; rewrite IH; reflexivity.
Qed.

Lemma wf_delete {V : Type} (key : string) (m : t V) : wf m -> wf (delete key m).
Proof. unfold wf. rewrite keys_delete. apply NoDup_filter. Qed.

(** Deleting a key that is present, from a map without repeated keys,
    removes exactly one entry. *)
Lemma size_delete {V : Type} (key : string) (m : t V) :
  wf m -> has key m = true -> S (size (delete key m)) = size m.
Proof.
  unfold wf, keys, has, get, size. induction m as [|[k0 v0] m IH]; simpl; [discriminate|].
  intros Hnd. inversion Hnd as [|? ? Hnotin Hnd']; subst.
  destruct (String.eqb_spec key k0) as [->|Hne].
  - intros _. f_equal. clear IH Hnd Hnd'.
    induction m as [|[k1 v1] m IH]; simpl in *; [reflexivity|].
    destruct (String.eqb_spec k0 k1) as [->|_]; [tauto|].
    simpl. f_equal. apply IH. tauto.
  - intros H. simpl. f_equal. exact (IH Hnd' H).
Qed.

End OMapMore.

(* ================================================================== *)
(** ** The chain, turn by turn *)
(* ================================================================== *)

Module EngineFacts.
Import OrchestrationStrategy.

Section WithAdapter.
Context {St : Type}.
Variable adapter : Adapter St.

(** The race settles, and no later than the timer fires. *)
Lemma race_settles {A : Type} (promise : Settle A) (timeout : N) :
  match _executeWithTimeout promise timeout with
  | Resolved _ ms => (ms <= timerDelay timeout)%N
  | Rejected _ ms => (ms <= timerDelay timeout)%N
  | Pending => False
  end.
Proof.
  unfold _executeWithTimeout. cbv zeta.
  destruct promise as [a ms|m ms|]; [| |lia];
    destruct (N.leb_spec ms (timerDelay timeout)); lia.
Qed.

(** What one turn of the loop does. *)
Lemma attempt_spec s task options elapsed trail (w : World (St := St)) :
  match attempt adapter s task options elapsed trail w with
  | Continue elapsed' trail' _ =>
      exists a,
        trail' = trail ++ [a] /\ att_strategy a = s /\ passedOver options a
        /\ elapsed' = (elapsed + att_duration a)%N
  | Leave o _ =>
      exists result ms,
        o = Returned {| payload := result; res_strategy := Some s;
                        res_attempts := Some (trail ++ [successAttempt s ms]);
                        res_totalDuration := Some (elapsed + ms)%N |}
        /\ (ms <= timeoutFor options s)%N
  end.
Proof.
  unfold attempt, passedOver.
  destruct (negb (_isStrategyAvailable adapter s)).
  { eexists. split; [reflexivity|]. simpl. repeat split; [discriminate | lia | lia]. }
  destruct (_isStrategySuitable s task) as [[|]|msg].
  - destruct (_executeStrategy adapter s task options w) as [settled w1].
    pose proof (race_settles settled (timeoutFor options s)) as Hrace.
    rewrite TimerFacts.timeoutFor_delay in Hrace.
    destruct (_executeWithTimeout settled (timeoutFor options s)) as [r ms|m ms|].
    + exists r, ms. split; [reflexivity | exact Hrace].
    + unfold onFailure. eexists. split; [reflexivity|]. simpl.
      repeat split; [discriminate | exact Hrace].
    + destruct Hrace.
  - eexists. split; [reflexivity|]. simpl. repeat split; [discriminate | lia | lia].
  - unfold onFailure. eexists. split; [reflexivity|]. simpl.
    repeat split; [discriminate | lia | lia].
Qed.

(** What the loop over a candidate list ends with. *)
Lemma chain_spec l task options elapsed trail (w : World (St := St)) :
  match fst (chain adapter l task options elapsed trail w) with
  | Thrown e =>
      exists entries,
        err_attempts e = trail ++ entries
        /\ map att_strategy entries = l
        /\ Forall (passedOver options) entries
        /\ err_duration e = (elapsed + trailDuration entries)%N
        /\ message e = "All execution strategies failed"
  | Returned r =>
      exists pre s post entries ms,
        l = pre ++ s :: post
        /\ res_strategy r = Some s
        /\ res_attempts r = Some (trail ++ entries ++ [successAttempt s ms])
        /\ map att_strategy entries = pre
        /\ Forall (passedOver options) entries
        /\ (ms <= timeoutFor options s)%N
        /\ res_totalDuration r = Some (elapsed + trailDuration entries + ms)%N
  | Hangs => False
  end.
Proof.
  revert elapsed trail w. induction l as [|s l IH]; intros elapsed trail w; simpl.
  - exists []. rewrite app_nil_r. simpl. repeat split; [constructor | lia].
  - pose proof (attempt_spec s task options elapsed trail w) as Hturn.
    destruct (attempt adapter s task options elapsed trail w) as [o w'|e1 t1 w1]; simpl.
    + destruct Hturn as [result [ms [-> Hms]]].
      exists [], s, l, [], ms. simpl. repeat split; [constructor | exact Hms |].
      f_equal. lia.
    + destruct Hturn as [a [-> [Hs [Ha ->]]]].
      specialize (IH (elapsed + att_duration a)%N (trail ++ [a]) w1).
      destruct (fst (chain adapter l task options (elapsed + att_duration a) (trail ++ [a]) w1))
        as [r|e|]; [| |exact IH].
      * destruct IH as [pre [s' [post [entries [ms [-> [Hvia [Htrail [Hpre [Hall [Hms Htotal]]]]]]]]]]].
        exists (s :: pre), s', post, (a :: entries), ms. simpl.
        rewrite Htrail, <- app_assoc. simpl.
        repeat split; try assumption; [congruence | constructor; assumption |].
        rewrite Htotal. f_equal. lia.
      * destruct IH as [entries [Htrail [Hnames [Hall [Hdur Hmsg]]]]].
        exists (a :: entries). simpl. rewrite Htrail, <- app_assoc. simpl.
        repeat split; try assumption; [congruence | constructor; assumption |].
        rewrite Hdur. lia.
Qed.

(** An attempt within its timeout stays within the budget of the list. *)
Lemma passedOver_budget options (entries : list StrategyAttempt) :
  Forall (passedOver options) entries ->
  (trailDuration entries <= timeBudget options (map att_strategy entries))%N.
Proof.
  induction 1 as [|a entries [_ Ha] _ IH]; simpl; lia.
Qed.

Lemma timeBudget_app options (l1 l2 : list string) :
  timeBudget options (l1 ++ l2) = (timeBudget options l1 + timeBudget options l2)%N.
Proof. induction l1 as [|s l1 IH]; simpl; [reflexivity | rewrite IH; lia]. Qed.

End WithAdapter.
End EngineFacts.

(* ================================================================== *)
(** ** Stable descending sort *)
(* ================================================================== *)

Module SortFacts.

Section WithKey.
Context {A : Type}.
Variable key : A -> Q.

Lemma Qltb_false (x y : Q) : Qltb x y = false -> (y <= x)%Q.
Proof.
  unfold Qltb. intros H. apply negb_false_iff in H. apply Qle_bool_iff. exact H.
Qed.

Lemma Qltb_true (x y : Q) : Qltb x y = true -> (x < y)%Q.
Proof.
  unfold Qltb. intros H. apply negb_true_iff in H.
  apply Qnot_le_lt. intros Hle. apply Qle_bool_iff in Hle. congruence.
Qed.

Lemma insertDesc_perm (x : A) (l : list A) : Permutation (insertDesc key x l) (x :: l).
Proof.
  induction l as [|y l IH]; simpl; [reflexivity|].
  destruct (Qltb (key x) (key y)); [|reflexivity].
  rewrite IH. apply perm_swap.
Qed.

Lemma sortDesc_perm (l : list A) : Permutation (sortDesc key l) l.
Proof.
  unfold sortDesc. induction l as [|x l IH]; simpl; [reflexivity|].
  rewrite insertDesc_perm. constructor. exact IH.
Qed.

Lemma insertDesc_sorted (x : A) (l : list A) :
  StronglySorted (fun a b => (key b <= key a)%Q) l ->
  StronglySorted (fun a b => (key b <= key a)%Q) (insertDesc key x l).
Proof.
  induction 1 as [|y l Hsorted IH Hall]; simpl; [repeat constructor|].
  destruct (Qltb (key x) (key y)) eqn:E.
  - constructor; [exact IH|].
    apply Forall_forall. intros z Hz.
    apply (Permutation_in _ (insertDesc_perm x l)) in Hz. destruct Hz as [<-|Hz].
    + apply Qlt_le_weak, Qltb_true, E.
    + rewrite Forall_forall in Hall. exact (Hall z Hz).
  - apply Qltb_false in E. constructor; [constructor; assumption|].
    constructor; [exact E|].
    apply Forall_forall. intros z Hz. rewrite Forall_forall in Hall.
    apply Qle_trans with (key y); [exact (Hall z Hz) | exact E].
Qed.

(** The sorted list is in descending order of [key]. *)
Lemma sortDesc_sorted (l : list A) :
  StronglySorted (fun a b => (key b <= key a)%Q) (sortDesc key l).
Proof.
  unfold sortDesc. induction l as [|x l IH]; simpl; [constructor|].
  apply insertDesc_sorted, IH.
Qed.

(** The head of the sorted list has the greatest key. *)
Lemma sortDesc_head_max (l : list A) (m : A) :
  hd_error (sortDesc key l) = Some m -> forall x, In x l -> (key x <= key m)%Q.
Proof.
  intros Hhd x Hx. pose proof (sortDesc_sorted l) as Hsorted.
  apply (Permutation_in _ (Permutation_sym (sortDesc_perm l))) in Hx.
  destruct (sortDesc key l) as [|y s]; [discriminate|].
  injection Hhd as ->. inversion Hsorted as [|? ? _ Hall]; subst.
  destruct Hx as [->|Hx]; [apply Qle_refl|].
  rewrite Forall_forall in Hall. exact (Hall x Hx).
Qed.

End WithKey.
End SortFacts.

(* ================================================================== *)
(** ** Orchestration: trails, time and statistics *)
(* ================================================================== *)

Module EngineExtras.
Import OrchestrationStrategy.

Section WithAdapter.
Context {St : Type}.
Variable adapter : Adapter St.

(** X5.  When [execute] throws, the error says "All execution strategies
    failed" and its attempt list has exactly one entry per candidate
    strategy, in candidate order; each entry is skipped or failed
    (skipped candidates are listed too) and lasted no longer than its
    strategy's timeout, and the error's duration covers them all. *)
Theorem exhausted_error_lists_every_candidate
    (task : Task) (options : Options) (w : World (St := St)) (e : ExhaustedError) :
  fst (execute adapter task options w) = Thrown e ->
  message e = "All execution strategies failed"
  /\ map att_strategy (err_attempts e) = candidatesOf options
  /\ Forall (passedOver options) (err_attempts e)
  /\ (trailDuration (err_attempts e) <= err_duration e)%N.
Proof.
  unfold execute. fold (candidatesOf options).
  assert (Hchain : forall elapsed w',
            fst (chain adapter (candidatesOf options) task options elapsed [] w') = Thrown e ->
            message e = "All execution strategies failed"
            /\ map att_strategy (err_attempts e) = candidatesOf options
            /\ Forall (passedOver options) (err_attempts e)
            /\ (trailDuration (err_attempts e) <= err_duration e)%N).
  { intros elapsed w' H.
    pose proof (EngineFacts.chain_spec adapter (candidatesOf options) task options
                  elapsed [] w') as Hspec.
    rewrite H in Hspec. destruct Hspec as [entries [Htrail [Hnames [Hall [Hdur Hmsg]]]]].
    simpl in Htrail. rewrite Htrail, Hdur. repeat split; try assumption. lia. }
  destruct (_getExplicitStrategy adapter task) as [explicit|]; [|apply Hchain].
  destruct (_executeStrategy adapter explicit task options w) as [[r ms|msg ms|] w1];
    simpl; [discriminate | apply Hchain | discriminate].
Qed.

(** X6.  When [execute] returns a result that carries an attempt trail,
    the trail is one skipped or failed entry for each candidate ahead
    of the strategy that succeeded, in candidate order, then the
    success entry of that strategy, which is the [strategy] reported;
    later candidates leave no entry.  No entry lasted longer than its
    strategy's timeout. *)
Theorem returned_trail_stops_at_first_success
    (task : Task) (options : Options) (w : World (St := St)) (r : ExecutionResult)
    (trail : list StrategyAttempt) :
  fst (execute adapter task options w) = Returned r ->
  res_attempts r = Some trail ->
  exists pre s post entries ms,
    candidatesOf options = pre ++ s :: post
    /\ res_strategy r = Some s
    /\ trail = entries ++ [successAttempt s ms]
    /\ map att_strategy entries = pre
    /\ Forall (passedOver options) entries
    /\ (ms <= timeoutFor options s)%N.
Proof.
  unfold execute. fold (candidatesOf options). intros Hout Htrail.
  assert (Hchain : forall elapsed w',
            fst (chain adapter (candidatesOf options) task options elapsed [] w') = Returned r ->
            exists pre s post entries ms,
              candidatesOf options = pre ++ s :: post
              /\ res_strategy r = Some s
              /\ trail = entries ++ [successAttempt s ms]
              /\ map att_strategy entries = pre
              /\ Forall (passedOver options) entries
              /\ (ms <= timeoutFor options s)%N).
  { intros elapsed w' H.
    pose proof (EngineFacts.chain_spec adapter (candidatesOf options) task options
                  elapsed [] w') as Hspec.
    rewrite H in Hspec.
    destruct Hspec as [pre [s [post [entries [ms [Hl [Hvia [Hatt [Hpre [Hall [Hms _]]]]]]]]]]].
    exists pre, s, post, entries, ms. simpl in Hatt.
    repeat split; try assumption. congruence. }
  destruct (_getExplicitStrategy adapter task) as [explicit|]; [|exact (Hchain _ _ Hout)].
  destruct (_executeStrategy adapter explicit task options w) as [[r0 ms|msg ms|] w1];
    simpl in Hout; [|exact (Hchain _ _ Hout) | discriminate].
  injection Hout as <-. discriminate.
Qed.

(** X7.  For a task without an explicit strategy [execute] always
    settles: it returns or throws, and the total duration it reports is
    at most the sum of the timeouts of the candidate strategies. *)
Theorem execute_settles_within_timeouts
    (task : Task) (options : Options) (w : World (St := St)) :
  _getExplicitStrategy adapter task = None ->
  match fst (execute adapter task options w) with
  | Returned r =>
      exists d, res_totalDuration r = Some d
                /\ (d <= timeBudget options (candidatesOf options))%N
  | Thrown e => (err_duration e <= timeBudget options (candidatesOf options))%N
  | Hangs => False
  end.
Proof.
  intros Hexplicit. unfold execute. rewrite Hexplicit. fold (candidatesOf options).
  pose proof (EngineFacts.chain_spec adapter (candidatesOf options) task options
                0%N [] w) as Hspec.
  destruct (fst (chain adapter (candidatesOf options) task options 0%N [] w)) as [r|e|];
    [| |exact Hspec].
  - destruct Hspec as [pre [s [post [entries [ms [Hl [_ [_ [Hpre [Hall [Hms Htotal]]]]]]]]]]].
    eexists. split; [exact Htotal|].
    rewrite Hl, EngineFacts.timeBudget_app. simpl.
    pose proof (EngineFacts.passedOver_budget options entries Hall) as Hbudget.
    rewrite Hpre in Hbudget. lia.
  - destruct Hspec as [entries [_ [Hnames [Hall [Hdur _]]]]].
    pose proof (EngineFacts.passedOver_budget options entries Hall) as Hbudget.
    rewrite Hnames in Hbudget. lia.
Qed.

End WithAdapter.
End EngineExtras.

(* ================================================================== *)
(** ** Orchestration: statistics *)
(* ================================================================== *)

Module EngineStats.
Import OrchestrationStrategy.

Lemma balanced_same_table (e1 e2 : Engine) :
  strategyStats e1 = strategyStats e2 -> statsBalanced e1 -> statsBalanced e2.
Proof. unfold statsBalanced. intros <-. tauto. Qed.

Lemma statsOf_balanced (e : Engine) (strategy : string) :
  statsBalanced e ->
  attempts (statsOf e strategy) = successes (statsOf e strategy) + failures (statsOf e strategy)
  /\ reasonTotal (statsOf e strategy) = failures (statsOf e strategy).
Proof.
  intros Hbal. unfold statsOf.
  destruct (OMap.get strategy (strategyStats e)) as [data|] eqn:E.
  - exact (Hbal strategy data (OMapMore.get_In _ _ _ E)).
  - split; reflexivity.
Qed.

Lemma recordSuccess_balanced (e : Engine) (strategy : string) (duration : N) :
  statsBalanced e -> statsBalanced (_recordSuccess e strategy duration).
Proof.
  intros Hbal s data Hin. unfold _recordSuccess in Hin. simpl in Hin.
  apply OMapMore.omap_In_set in Hin. destruct Hin as [[= -> ->]|Hin]; [|exact (Hbal s data Hin)].
  destruct (statsOf_balanced e strategy Hbal) as [Hatt Hreasons].
  unfold reasonTotal in *. simpl. split; [lia | exact Hreasons].
Qed.

Lemma sum_after_increment (reason : string) (reasons : OMap.t nat) :
  list_sum (map snd
              (OMap.set reason
                 (match OMap.get reason reasons with Some c => c | None => 0 end + 1)
                 reasons))
  = S (list_sum (map snd reasons)).
Proof.
  unfold OMap.get. induction reasons as [|[k c] reasons IH]; simpl; [reflexivity|].
  destruct (String.eqb reason k); simpl; [lia|]. rewrite IH. lia.
Qed.

Lemma recordFailure_balanced (e : Engine) (strategy reason : string) :
  statsBalanced e -> statsBalanced (_recordFailure e strategy reason).
Proof.
  intros Hbal s data Hin. unfold _recordFailure in Hin. simpl in Hin.
  apply OMapMore.omap_In_set in Hin. destruct Hin as [[= -> ->]|Hin]; [|exact (Hbal s data Hin)].
  destruct (statsOf_balanced e strategy Hbal) as [Hatt Hreasons].
  unfold reasonTotal in *. simpl. rewrite sum_after_increment. split; [lia|].
  destruct (failureReasons (statsOf e strategy)); simpl in *; lia.
Qed.

Section WithAdapter.
Context {St : Type}.
Variable adapter : Adapter St.

Lemma runBatches_keeps_stats originalId total batches results elapsed (w : World (St := St)) :
  strategyStats (snd (snd (runBatches adapter originalId total batches results elapsed w)))
  = strategyStats (snd w).
Proof.
  revert results elapsed w.
  induction batches as [|b batches IH]; intros results elapsed w; simpl; [reflexivity|].
  destruct (executeTask adapter (fst w) b) as [[x ms|msg ms|] st]; simpl; try reflexivity.
  rewrite IH. reflexivity.
Qed.

(** No strategy implementation touches the statistics. *)
Lemma executeStrategy_keeps_stats s task options (w : World (St := St)) :
  strategyStats (snd (snd (_executeStrategy adapter s task options w)))
  = strategyStats (snd w).
Proof.
  assert (Hseq : strategyStats (snd (snd (_executeSequentially adapter task w)))
                 = strategyStats (snd w)).
  { unfold _executeSequentially. destruct (executeTask adapter (fst w) task). reflexivity. }
  unfold _executeStrategy.
  destruct (String.eqb s "subAgents").
  { unfold _executeWithSubAgents.
    destruct (negb (supportsFeature adapter "subAgents")); [reflexivity|].
    destruct (executeWithSubAgents adapter) as [run|]; [|reflexivity].
    destruct (run (fst w) _). reflexivity. }
  destruct (String.eqb s "parallel").
  { unfold _executeInParallel.
    destruct (negb (supportsFeature adapter "parallelExecution")); [reflexivity|].
    destruct (Nat.leb _ 1); [exact Hseq|].
    destruct (runParallelBatches adapter _ [] 0%N (fst w)) as [[[results ms]|] st];
      [|reflexivity].
    destruct (_aggregateParallelResults results task); reflexivity. }
  destruct (String.eqb s "streaming").
  { unfold _executeWithStreaming.
    destruct (negb (supportsFeature adapter "streaming")); [reflexivity|].
    destruct (executeWithStreaming adapter) as [native|].
    - destruct (native (fst w) _). reflexivity.
    - destruct (executeTask adapter (fst w) task) as [[result ms|msg ms|] st];
        try reflexivity.
      destruct (negb (String.eqb _ "") && opt_onChunk options); reflexivity. }
  destruct (String.eqb s "batched"); [|exact Hseq].
  unfold _executeInBatches.
  destruct (negb _ || Nat.leb (fileCount task) (batchSizeOf options)); [exact Hseq|].
  pose proof (runBatches_keeps_stats (id task)
                (List.length
                   (map (fun s0 : nat * list string =>
                           withFiles task (id task ++ "-batch-" ++ natToString (fst s0))
                                     (snd s0))
                        (slices (batchSizeOf options) (taskFiles task))))
                (map (fun s0 : nat * list string =>
                        withFiles task (id task ++ "-batch-" ++ natToString (fst s0))
                                  (snd s0))
                     (slices (batchSizeOf options) (taskFiles task)))
                [] 0%N w) as Hrun.
  destruct (runBatches adapter _ _ _ [] 0%N w) as [[results ms|msg ms|] w']; exact Hrun.
Qed.

Lemma runBatchesUntil_keeps_stats deadline originalId total batches results elapsed
    (w : World (St := St)) :
  strategyStats (snd (runBatchesUntil adapter deadline originalId total batches results
                                      elapsed w))
  = strategyStats (snd w).
Proof.
  revert results elapsed w.
  induction batches as [|b batches IH]; intros results elapsed w; simpl; [reflexivity|].
  destruct (executeTask adapter (fst w) b) as [[x ms|msg ms|] st]; simpl; try reflexivity.
  destruct (N.leb (elapsed + ms) deadline); [|reflexivity].
  rewrite IH. reflexivity.
Qed.

(** Nor does a strategy overtaken by the timer. *)
Lemma executeStrategyUntil_keeps_stats deadline s task options (w : World (St := St)) :
  strategyStats (snd (_executeStrategyUntil adapter deadline s task options w))
  = strategyStats (snd w).
Proof.
  assert (Hseq : strategyStats (snd (snd (_executeSequentially adapter task w)))
                 = strategyStats (snd w)).
  { unfold _executeSequentially. destruct (executeTask adapter (fst w) task). reflexivity. }
  unfold _executeStrategyUntil.
  destruct (String.eqb s "parallel").
  { unfold _executeInParallelUntil.
    destruct (negb (supportsFeature adapter "parallelExecution")); [reflexivity|].
    destruct (Nat.leb _ 1); [exact Hseq | reflexivity]. }
  destruct (String.eqb s "batched"); [|reflexivity].
  unfold _executeInBatchesUntil.
  destruct (negb _ || Nat.leb (fileCount task) (batchSizeOf options)); [exact Hseq|].
  apply runBatchesUntil_keeps_stats.
Qed.

(** The world a failed attempt hands on has the statistics it started with. *)
Lemma handed_on_keeps_stats s task options (w w1 : World (St := St))
    (settled : Settle Result) :
  strategyStats (snd w1) = strategyStats (snd w) ->
  strategyStats
    (snd (if settledBy settled (timeoutFor options s) then w1
          else _executeStrategyUntil adapter (timeoutFor options s) s task options w))
  = strategyStats (snd w).
Proof.
  intros Hkeep. destruct (settledBy settled (timeoutFor options s)); [exact Hkeep|].
  apply executeStrategyUntil_keeps_stats.
Qed.

Lemma attempt_balanced s task options elapsed trail (w : World (St := St)) :
  statsBalanced (snd w) ->
  match attempt adapter s task options elapsed trail w with
  | Leave _ w' => statsBalanced (snd w')
  | Continue _ _ w' => statsBalanced (snd w')
  end.
Proof.
  intros Hbal. unfold attempt.
  destruct (negb (_isStrategyAvailable adapter s)); [exact Hbal|].
  destruct (_isStrategySuitable s task) as [[|]|msg]; [|exact Hbal|].
  - pose proof (executeStrategy_keeps_stats s task options w) as Hkeep.
    pose proof (handed_on_keeps_stats s task options w
                  (snd (_executeStrategy adapter s task options w))
                  (fst (_executeStrategy adapter s task options w)) Hkeep) as Hhand.
    destruct (_executeStrategy adapter s task options w) as [settled w1].
    cbn [fst snd] in Hkeep, Hhand.
    assert (Hbal1 : statsBalanced (snd w1))
      by (apply (balanced_same_table (snd w)); [symmetry; exact Hkeep | exact Hbal]).
    destruct (_executeWithTimeout settled (timeoutFor options s)) as [r ms|m ms|]; simpl.
    + apply (balanced_same_table (_recordSuccess (snd w1) s ms)); [reflexivity|].
      apply recordSuccess_balanced, Hbal1.
    + set (w2 := if settledBy settled (timeoutFor options s) then w1
                 else _executeStrategyUntil adapter (timeoutFor options s) s task options w)
        in *.
      apply (balanced_same_table (_recordFailure (snd w2) s m)); [reflexivity|].
      apply recordFailure_balanced.
      apply (balanced_same_table (snd w)); [symmetry; exact Hhand | exact Hbal].
    + exact Hbal1.
  - simpl. apply (balanced_same_table (_recordFailure (snd w) s msg)); [reflexivity|].
    apply recordFailure_balanced, Hbal.
Qed.

Lemma chain_balanced l task options elapsed trail (w : World (St := St)) :
  statsBalanced (snd w) ->
  statsBalanced (snd (snd (chain adapter l task options elapsed trail w))).
Proof.
  revert elapsed trail w. induction l as [|s l IH]; intros elapsed trail w Hbal; simpl.
  - exact Hbal.
  - pose proof (attempt_balanced s task options elapsed trail w Hbal) as Hturn.
    destruct (attempt adapter s task options elapsed trail w) as [o w'|e1 t1 w1]; simpl.
    + exact Hturn.
    + apply IH, Hturn.
Qed.

Lemma statsOf_same_table (e1 e2 : Engine) (s : string) :
  strategyStats e1 = strategyStats e2 -> statsOf e1 s = statsOf e2 s.
Proof. unfold statsOf. intros ->. reflexivity. Qed.

Lemma attempts_after_success (e : Engine) (s0 s : string) (d : N) :
  attempts (statsOf (_recordSuccess e s0 d) s)
  = attempts (statsOf e s) + (if String.eqb s0 s then 1 else 0).
Proof.
  unfold _recordSuccess, statsOf at 1. cbn [strategyStats].
  rewrite OMapFacts.get_set, String.eqb_sym.
  destruct (String.eqb_spec s0 s) as [->|_]; simpl; [|fold (statsOf e s)]; lia.
Qed.

Lemma attempts_after_failure (e : Engine) (s0 s reason : string) :
  attempts (statsOf (_recordFailure e s0 reason) s)
  = attempts (statsOf e s) + (if String.eqb s0 s then 1 else 0).
Proof.
  unfold _recordFailure, statsOf at 1. cbn [strategyStats].
  rewrite OMapFacts.get_set, String.eqb_sym.
  destruct (String.eqb_spec s0 s) as [->|_]; simpl; [|fold (statsOf e s)]; lia.
Qed.

Lemma executions_snoc (s : string) (trail : list StrategyAttempt) (a : StrategyAttempt) :
  executions s (trail ++ [a]) = executions s trail + (if executed s a then 1 else 0).
Proof.
  unfold executions. rewrite filter_app, length_app. simpl.
  destruct (executed s a); reflexivity.
Qed.

(** One turn of the loop counts an attempt exactly when it pushes an
    entry that is not skipped. *)
Lemma attempt_counts s0 task options elapsed trail (w : World (St := St)) (s : string) :
  match attempt adapter s0 task options elapsed trail w with
  | Continue _ trail' w' =>
      attempts (statsOf (snd w') s) + executions s trail
      = attempts (statsOf (snd w) s) + executions s trail'
  | Leave o w' =>
      o <> Hangs
      /\ attempts (statsOf (snd w') s) + executions s trail
         = attempts (statsOf (snd w) s) + executions s (trailOf o)
  end.
Proof.
  unfold attempt.
  destruct (negb (_isStrategyAvailable adapter s0)).
  { rewrite executions_snoc. unfold executed. simpl. rewrite andb_false_r. lia. }
  destruct (_isStrategySuitable s0 task) as [[|]|msg].
  - pose proof (executeStrategy_keeps_stats s0 task options w) as Hkeep.
    pose proof (handed_on_keeps_stats s0 task options w
                  (snd (_executeStrategy adapter s0 task options w))
                  (fst (_executeStrategy adapter s0 task options w)) Hkeep) as Hhand.
    destruct (_executeStrategy adapter s0 task options w) as [settled w1].
    cbn [fst snd] in Hkeep, Hhand.
    pose proof (EngineFacts.race_settles settled (timeoutFor options s0)) as Hrace.
    destruct (_executeWithTimeout settled (timeoutFor options s0)) as [r ms|m ms|].
    + split; [discriminate|]. cbn [snd trailOf res_attempts].
      rewrite executions_snoc. unfold executed, emit, successAttempt.
      cbn [att_strategy att_status]. rewrite andb_true_r.
      rewrite (statsOf_same_table _ (_recordSuccess (snd w1) s0 ms)) by reflexivity.
      rewrite attempts_after_success, (statsOf_same_table _ _ s Hkeep). lia.
    + unfold onFailure. cbn [snd].
      rewrite executions_snoc. unfold executed, emit, failedAttempt.
      cbn [att_strategy att_status]. rewrite andb_true_r.
      match goal with
      | |- attempts (statsOf {| strategyStats := strategyStats ?e; emitted := _ |} s) + _ = _ =>
          rewrite (statsOf_same_table _ e) by reflexivity
      end.
      rewrite attempts_after_failure.
      destruct (settledBy settled (timeoutFor options s0));
        rewrite (statsOf_same_table _ _ s Hhand); lia.
    + destruct Hrace.
  - rewrite executions_snoc. unfold executed. simpl. rewrite andb_false_r. lia.
  - unfold onFailure. cbn [snd].
    rewrite executions_snoc. unfold executed, emit, failedAttempt.
    cbn [att_strategy att_status]. rewrite andb_true_r.
    rewrite (statsOf_same_table _ (_recordFailure (snd w) s0 msg)) by reflexivity.
    rewrite attempts_after_failure. lia.
Qed.

Lemma chain_counts l task options elapsed trail (w : World (St := St)) (s : string) :
  fst (chain adapter l task options elapsed trail w) <> Hangs
  /\ attempts (statsOf (snd (snd (chain adapter l task options elapsed trail w))) s)
     + executions s trail
     = attempts (statsOf (snd w) s)
       + executions s (trailOf (fst (chain adapter l task options elapsed trail w))).
Proof.
  revert elapsed trail w. induction l as [|s0 l IH]; intros elapsed trail w; simpl.
  - split; [discriminate | reflexivity].
  - pose proof (attempt_counts s0 task options elapsed trail w s) as Hturn.
    destruct (attempt adapter s0 task options elapsed trail w) as [o w'|e1 t1 w1]; simpl.
    + exact Hturn.
    + destruct (IH e1 t1 w1) as [Hsettles Hcount]. split; [exact Hsettles | lia].
Qed.

(** X8.  [execute] keeps the statistics balanced: for every strategy the
    attempts recorded are the successes plus the failures, and the
    counts kept per failure reason add up to the failures.  Skipped
    strategies are not counted: when [execute] returns or throws, the
    attempts recorded for a strategy have grown by the number of
    entries of the trail that are not skipped, and by one for the
    explicit strategy of the task. *)
Theorem execute_keeps_statistics_balanced
    (task : Task) (options : Options) (w : World (St := St)) :
  statsBalanced (snd w) ->
  statsBalanced (snd (snd (execute adapter task options w)))
  /\ (fst (execute adapter task options w) <> Hangs ->
      forall s,
        attempts (statsOf (snd (snd (execute adapter task options w))) s)
        = attempts (statsOf (snd w) s)
          + explicitRuns adapter task s
          + executions s (trailOf (fst (execute adapter task options w)))).
Proof.
  intros Hbal. split.
  - unfold execute.
    destruct (_getExplicitStrategy adapter task) as [explicit|];
      [|apply chain_balanced, Hbal].
    pose proof (executeStrategy_keeps_stats explicit task options w) as Hkeep.
    destruct (_executeStrategy adapter explicit task options w) as [[r ms|msg ms|] w1];
      simpl in Hkeep;
      assert (Hbal1 : statsBalanced (snd w1))
        by (apply (balanced_same_table (snd w)); [symmetry; exact Hkeep | exact Hbal]).
    + simpl. apply recordSuccess_balanced, Hbal1.
    + apply chain_balanced. simpl. apply recordFailure_balanced, Hbal1.
    + exact Hbal1.
  - unfold execute, explicitRuns.
    destruct (_getExplicitStrategy adapter task) as [explicit|].
    + pose proof (executeStrategy_keeps_stats explicit task options w) as Hkeep.
      destruct (_executeStrategy adapter explicit task options w) as [[r ms|msg ms|] w1];
        simpl in Hkeep; intros Hsettles s.
      * cbn [fst snd trailOf res_attempts]. unfold executions. simpl.
        rewrite attempts_after_success, (statsOf_same_table _ _ s Hkeep). lia.
      * destruct (chain_counts (match opt_strategies options with
                                | Some l => l
                                | None => defaultStrategies
                                end) task options ms []
                               (fst w1, _recordFailure (snd w1) explicit msg) s)
          as [_ Hcount].
        cbn [snd] in Hcount. rewrite attempts_after_failure in Hcount.
        rewrite (statsOf_same_table _ _ s Hkeep) in Hcount.
        unfold executions at 1 in Hcount. simpl in Hcount. lia.
      * contradiction Hsettles. reflexivity.
    + intros _ s.
      destruct (chain_counts (match opt_strategies options with
                              | Some l => l
                              | None => defaultStrategies
                              end) task options 0%N [] w s) as [_ Hcount].
      unfold executions at 1 in Hcount. simpl in Hcount. lia.
Qed.

End WithAdapter.

Lemma sum_firstn_le (n : nat) (l : list nat) : list_sum (firstn n l) <= list_sum l.
Proof.
  revert n. induction l as [|x l IH]; intros [|n]; simpl; try lia.
  specialize (IH n). lia.
Qed.

Lemma sum_permutation (l1 l2 : list (string * nat)) :
  Permutation l1 l2 -> list_sum (map snd l1) = list_sum (map snd l2).
Proof. induction 1; simpl; lia. Qed.

Lemma StronglySorted_firstn {A : Type} (R : A -> A -> Prop) (n : nat) (l : list A) :
  StronglySorted R l -> StronglySorted R (firstn n l).
Proof.
  intros H. revert n. induction H as [|x l Hs IH Hall]; intros [|n]; simpl;
    try constructor; [apply IH|].
  rewrite Forall_forall in *. intros y Hy. apply Hall.
  rewrite <- (firstn_skipn n l). apply in_or_app. left. exact Hy.
Qed.

Lemma StronglySorted_weaken {A : Type} (R R' : A -> A -> Prop) (l : list A) :
  (forall a b, R a b -> R' a b) -> StronglySorted R l -> StronglySorted R' l.
Proof.
  intros Himp. induction 1 as [|x l Hs IH Hall]; constructor; [exact IH|].
  rewrite Forall_forall in *. intros y Hy. apply Himp, Hall, Hy.
Qed.

(** X9.  On balanced statistics every entry of [getStatistics] reports
    attempts equal to successes plus failures and a success rate
    between 0 and 1; its top failure reasons are at most three, stand
    in descending order of count, and their counts together do not
    exceed the failures. *)
Theorem getStatistics_reports (e : Engine) (strategy : string) (rep : StrategyReport) :
  statsBalanced e ->
  In (strategy, rep) (getStatistics e) ->
  rep_attempts rep = rep_successes rep + rep_failures rep
  /\ (0 <= successRate rep <= 1)%Q
  /\ forall top,
       topFailureReasons rep = Some top ->
       List.length top <= 3
       /\ StronglySorted (fun a b => snd b <= snd a) top
       /\ list_sum (map snd top) <= rep_failures rep.
Proof.
  intros Hbal Hin. unfold getStatistics in Hin. apply in_map_iff in Hin.
  destruct Hin as [[s data] [[= <- <-] Hin]].
  destruct (Hbal s data Hin) as [Hatt Hreasons].
  unfold reportOf.
  cbn [rep_attempts rep_successes rep_failures successRate topFailureReasons snd fst].
  split; [exact Hatt|]. split.
  - destruct (Nat.ltb_spec 0 (attempts data)) as [Hpos|_];
      [|split; [apply Qle_refl | discriminate]].
    assert (Hden : (0 < QofNat (attempts data))%Q).
    { unfold QofNat. rewrite <- (Zlt_Qlt 0). lia. }
    split.
    + apply Qle_shift_div_l; [exact Hden|]. rewrite Qmult_0_l.
      unfold QofNat. rewrite <- (Zle_Qle 0). lia.
    + apply Qle_shift_div_r; [exact Hden|]. rewrite Qmult_1_l.
      unfold QofNat. rewrite <- Zle_Qle. lia.
  - intros top Htop. unfold reasonTotal in Hreasons.
    destruct (failureReasons data) as [reasons|]; [|discriminate].
    assert (Hsame : top = firstn 3 (sortDesc (fun e0 : string * nat => QofNat (snd e0)) reasons))
      by congruence.
    rewrite Hsame. clear Htop Hsame.
    split; [rewrite length_firstn; lia|]. split.
    + apply StronglySorted_firstn.
      pose proof (SortFacts.sortDesc_sorted (fun e0 : string * nat => QofNat (snd e0)) reasons)
        as Hsorted.
      revert Hsorted. apply StronglySorted_weaken.
      intros a b Hle. unfold QofNat in Hle. rewrite <- Zle_Qle in Hle. lia.
    + rewrite <- firstn_map. etransitivity; [apply sum_firstn_le|].
      rewrite (sum_permutation _ _ (SortFacts.sortDesc_perm _ reasons)). lia.
Qed.

End EngineStats.

(* ================================================================== *)
(** ** Decomposition into slices *)
(* ================================================================== *)

Module SliceFacts.
Import OrchestrationStrategy.

Lemma ceilDiv_small (a n : nat) : 1 <= a <= n -> ceilDiv a n = 1.
Proof.
  intros H. unfold ceilDiv. symmetry.
  apply (Nat.div_unique (a + n - 1) n 1 (a - 1)); lia.
Qed.

Lemma ceilDiv_step (a n : nat) : 1 <= n -> n <= a -> ceilDiv a n = S (ceilDiv (a - n) n).
Proof.
  intros Hn Ha. unfold ceilDiv.
  replace (a + n - 1) with ((a - n + n - 1) + 1 * n) by lia.
  rewrite Nat.div_add by lia. lia.
Qed.

Lemma ceilDiv_zero (n : nat) : 1 <= n -> ceilDiv 0 n = 0.
Proof. intros H. unfold ceilDiv. apply Nat.div_small. lia. Qed.

(** [ceilDiv a n] slices of length [n] are enough for [a] items. *)
Lemma ceilDiv_covers (a n : nat) : 1 <= n -> a <= ceilDiv a n * n.
Proof.
  intros Hn. unfold ceilDiv.
  pose proof (Nat.div_mod (a + n - 1) n ltac:(lia)) as Hdiv.
  pose proof (Nat.mod_upper_bound (a + n - 1) n ltac:(lia)) as Hmod.
  nia.
Qed.

Lemma ceilDiv_upper (a c m : nat) : 1 <= c -> a <= m * c -> ceilDiv a c <= m.
Proof.
  intros Hc Ha. unfold ceilDiv.
  assert (H : (a + c - 1) / c < S m); [|lia].
  apply Nat.Div0.div_lt_upper_bound. lia.
Qed.

Section Slices.
Context {A : Type}.

(** The loop [for (i = start; i < length; i += n) slice(i, i + n)]:
    the slices are non-empty, at most [n] long, start at successive
    multiples of [n] and, put together, are the list again. *)
Lemma slicesFrom_spec (n : nat) :
  1 <= n ->
  forall (fuel i : nat) (l : list A),
    List.length l <= fuel ->
    List.concat (map snd (slicesFrom fuel i n l)) = l
    /\ Forall (fun s : nat * list A => 1 <= List.length (snd s) <= n) (slicesFrom fuel i n l)
    /\ List.length (slicesFrom fuel i n l) = ceilDiv (List.length l) n
    /\ map fst (slicesFrom fuel i n l)
       = map (fun k => i + k * n) (seq 0 (ceilDiv (List.length l) n)).
Proof.
  intros Hn. induction fuel as [|fuel IH]; intros i l Hfuel.
  - destruct l; [|cbn [List.length] in Hfuel; lia]. simpl. rewrite ceilDiv_zero by exact Hn.
    repeat split. constructor.
  - destruct l as [|x l]; simpl slicesFrom.
    + simpl. rewrite ceilDiv_zero by exact Hn. repeat split. constructor.
    + assert (Hrest : List.length (skipn n (x :: l)) <= fuel).
      { rewrite length_skipn. cbn [List.length] in *. lia. }
      destruct (IH (i + n) (skipn n (x :: l)) Hrest) as [Hcat [Hall [Hlen Hidx]]].
      assert (Hcount : ceilDiv (List.length (x :: l)) n
                       = S (ceilDiv (List.length (skipn n (x :: l))) n)).
      { rewrite length_skipn.
        destruct (Nat.le_gt_cases n (List.length (x :: l))) as [Hge|Hlt].
        - apply ceilDiv_step; assumption.
        - replace (List.length (x :: l) - n) with 0 by lia.
          rewrite ceilDiv_zero by exact Hn. apply ceilDiv_small. cbn [List.length] in *. lia. }
      split; [|split; [|split]].
      * cbn [map snd List.concat]. rewrite Hcat. apply firstn_skipn.
      * constructor; [|exact Hall]. cbn [snd]. rewrite length_firstn. cbn [List.length] in *. lia.
      * rewrite Hcount. cbn [List.length]. rewrite Hlen. reflexivity.
      * cbn [map fst]. rewrite Hidx, Hcount. cbn [seq map].
        f_equal; [lia|]. rewrite <- seq_shift, map_map.
        apply map_ext. intros k. lia.
Qed.

Lemma slices_spec (n : nat) (l : list A) :
  1 <= n ->
  List.concat (map snd (slices n l)) = l
  /\ Forall (fun s : nat * list A => 1 <= List.length (snd s) <= n) (slices n l)
  /\ List.length (slices n l) = ceilDiv (List.length l) n
  /\ map fst (slices n l) = map (fun k => k * n) (seq 0 (ceilDiv (List.length l) n)).
Proof.
  intros Hn. unfold slices.
  exact (slicesFrom_spec n Hn (List.length l) 0 l (le_n _)).
Qed.

End Slices.
End SliceFacts.

(* ================================================================== *)
(** ** Orchestration: decomposition and aggregation *)
(* ================================================================== *)

Module DecompositionExtras.
Import OrchestrationStrategy.

Lemma fileCount_taskFiles (task : Task) : fileCount task = List.length (taskFiles task).
Proof.
  unfold fileCount, taskFiles. destruct (context task) as [c|]; [|reflexivity].
  destruct (files c); reflexivity.
Qed.

(** X10.  The loop that cuts a list into slices of [n] (batches of
    files, batches of parallel sub-tasks, files per sub-agent) loses
    and repeats nothing: the slices, in order, make up the list again;
    each is non-empty and at most [n] long; there are
    [ceil(length / n)] of them, starting at 0, n, 2n, ... *)
Theorem slices_cover_list_once {A : Type} (n : nat) (l : list A) :
  1 <= n ->
  List.concat (map snd (slices n l)) = l
  /\ Forall (fun s : nat * list A => 1 <= List.length (snd s) <= n) (slices n l)
  /\ List.length (slices n l) = ceilDiv (List.length l) n
  /\ map fst (slices n l) = map (fun k => k * n) (seq 0 (ceilDiv (List.length l) n)).
Proof. apply SliceFacts.slices_spec. Qed.

Section WithAdapter.
Context {St : Type}.
Variable adapter : Adapter St.

Lemma runBatches_all_resolve originalId total :
  (forall st t, exists r ms st', executeTask adapter st t = (Resolved r ms, st')) ->
  forall batches results elapsed (w : World (St := St)),
  exists out ms w',
    runBatches adapter originalId total batches results elapsed w = (Resolved out ms, w')
    /\ List.length out = List.length results + List.length batches.
Proof.
  intros Hok. induction batches as [|b batches IH]; intros results elapsed w; simpl.
  - exists results, elapsed, w. split; [reflexivity | lia].
  - destruct (Hok (fst w) b) as [r [ms [st' ->]]].
    destruct (IH (results ++ [r]) (elapsed + ms)%N
                 (st', emit (snd w)
                         (BatchCompleted originalId (id b)
                            (QofNat (List.length (results ++ [r])) / QofNat total)%Q)))
      as [out [ms' [w' [-> Hlen]]]].
    exists out, ms', w'. split; [reflexivity|]. rewrite Hlen, length_app. simpl. lia.
Qed.

(** X11.  Batched execution through an adapter whose calls all resolve:
    for a task with more files than the batch size it resolves with
    status "completed", the task's id, and a [batchCount] of
    [ceil(files / batchSize)], the batch size being
    [options.batchSize || 5]. *)
Theorem batched_execution_reports_batch_count
    (task : Task) (options : Options) (w : World (St := St)) (c : Context) (fs : list string) :
  (forall st t, exists r ms st', executeTask adapter st t = (Resolved r ms, st')) ->
  context task = Some c ->
  files c = Some fs ->
  batchSizeOf options < List.length fs ->
  exists r ms w',
    _executeInBatches adapter task options w = (Resolved r ms, w')
    /\ batchCount r = Some (ceilDiv (List.length fs) (batchSizeOf options))
    /\ status r = Some "completed"
    /\ taskId r = Some (id task).
Proof.
  intros Hok Hc Hfs Hmany. unfold _executeInBatches.
  assert (Hcount : fileCount task = List.length fs)
    by (unfold fileCount; rewrite Hc, Hfs; reflexivity).
  assert (Hfiles : taskFiles task = fs) by (unfold taskFiles; rewrite Hc, Hfs; reflexivity).
  rewrite Hc, Hfs, Hcount, Hfiles. simpl negb. simpl orb.
  destruct (Nat.leb_spec (List.length fs) (batchSizeOf options)) as [Hle|_]; [lia|].
  set (batches := map (fun s : nat * list string =>
                         withFiles task (id task ++ "-batch-" ++ natToString (fst s)) (snd s))
                      (slices (batchSizeOf options) fs)).
  destruct (runBatches_all_resolve (id task) (List.length batches) Hok batches [] 0%N w)
    as [out [ms [w' [-> Hlen]]]].
  exists (_aggregateBatchResults out task), ms, w'.
  split; [reflexivity|]. simpl. split; [|split; reflexivity].
  rewrite Hlen. simpl. unfold batches. rewrite length_map.
  assert (Hsize : 1 <= batchSizeOf options).
  { unfold batchSizeOf. destruct (opt_batchSize options) as [[|n]|]; simpl; lia. }
  destruct (SliceFacts.slices_spec (batchSizeOf options) fs Hsize) as [_ [_ [-> _]]].
  reflexivity.
Qed.

End WithAdapter.

Lemma mapi_files (task : Task) (mk : nat -> string) (i : nat) (l : list string) :
  map taskFiles (mapi (fun k file => withFiles task (mk k) [file]) i l)
  = map (fun f => [f]) l.
Proof.
  revert i. induction l as [|x l IH]; intros i; simpl; [reflexivity|].
  rewrite IH. reflexivity.
Qed.

Lemma mapi_length {A B : Type} (f : nat -> A -> B) (i : nat) (l : list A) :
  List.length (mapi f i l) = List.length l.
Proof. revert i. induction l as [|x l IH]; intros i; simpl; [|rewrite IH]; reflexivity. Qed.

(** X12.  Parallel decomposition: a task with more than one file is
    split into one sub-task per file, in file order, each holding
    exactly that file; a task with at most one file is not split. *)
Theorem parallel_decomposition_one_file_each (task : Task) :
  (1 < fileCount task ->
   map taskFiles (_decomposeForParallel task) = map (fun f => [f]) (taskFiles task)
   /\ List.length (_decomposeForParallel task) = fileCount task)
  /\ (fileCount task <= 1 -> _decomposeForParallel task = [task]).
Proof.
  unfold _decomposeForParallel. split.
  - intros Hmany. destruct (Nat.ltb_spec 1 (fileCount task)) as [_|H]; [|lia].
    split; [apply mapi_files|]. rewrite mapi_length. symmetry. apply fileCount_taskFiles.
  - intros Hfew. destruct (Nat.ltb_spec 1 (fileCount task)) as [H|_]; [lia | reflexivity].
Qed.

(** X13.  Sub-agent decomposition never yields more sub-tasks than
    [maxAgents]; and when it splits by files (a task type other than
    generation and refactoring, more than one file) every file of the
    task goes to exactly one sub-task, in file order. *)
Theorem subagent_decomposition_within_limit (task : Task) (maxAgents : nat) :
  List.length (_decomposeForSubAgents task maxAgents) <= maxAgents
  /\ (1 <= maxAgents ->
      type task <> "generation" -> type task <> "refactoring" ->
      1 < fileCount task ->
      List.concat (map taskFiles (_decomposeForSubAgents task maxAgents)) = taskFiles task).
Proof.
  split.
  - unfold _decomposeForSubAgents. rewrite length_firstn. lia.
  - intros Hmax Hgen Href Hmany. unfold _decomposeForSubAgents.
    destruct (String.eqb_spec (type task) "generation") as [E|_]; [contradiction|].
    destruct (String.eqb_spec (type task) "refactoring") as [E|_]; [contradiction|].
    destruct (Nat.ltb_spec 1 (fileCount task)) as [_|H]; [|lia].
    rewrite fileCount_taskFiles in *.
    set (per := ceilDiv (List.length (taskFiles task)) maxAgents).
    pose proof (SliceFacts.ceilDiv_covers (List.length (taskFiles task)) maxAgents Hmax)
      as Hcover. fold per in Hcover.
    assert (Hper : 1 <= per) by (destruct per; simpl in *; lia).
    destruct (SliceFacts.slices_spec per (taskFiles task) Hper) as [Hcat [_ [Hlen _]]].
    rewrite firstn_all2.
    + rewrite map_map. simpl. exact Hcat.
    + rewrite length_map, Hlen. apply SliceFacts.ceilDiv_upper; [exact Hper | lia].
Qed.




End DecompositionExtras.

(* ================================================================== *)
(** ** Orchestration: simulated streaming *)
(* ================================================================== *)

Module StreamingExtras.
Import OrchestrationStrategy.

Lemma substring_empty (n m : nat) : String.substring n m EmptyString = EmptyString.
Proof. destruct n, m; reflexivity. Qed.

Lemma substring_drop (n j m : nat) (s : string) :
  String.substring (n + j) m s = String.substring j m (dropChars n s).
Proof.
  revert s. induction n as [|n IH]; intros s; [reflexivity|].
  destruct s as [|a s]; simpl.
  - symmetry. apply substring_empty.
  - apply IH.
Qed.

Lemma take_drop (c : nat) (s : string) :
  (String.substring 0 c s ++ dropChars c s)%string = s.
Proof.
  revert s. induction c as [|c IH]; intros s.
  - destruct s; reflexivity.
  - destruct s as [|a s]; simpl; [reflexivity|]. rewrite IH. reflexivity.
Qed.

Lemma length_drop (c : nat) (s : string) :
  String.length (dropChars c s) = String.length s - c.
Proof.
  revert s. induction c as [|c IH]; intros s; simpl; [lia|].
  destruct s as [|a s]; simpl; [reflexivity | apply IH].
Qed.

Lemma length_substring (n m : nat) (s : string) :
  String.length (String.substring n m s) = Nat.min m (String.length s - n).
Proof.
  revert n m. induction s as [|a s IH]; intros n m.
  - rewrite substring_empty. simpl. lia.
  - destruct n as [|n].
    + destruct m as [|m]; simpl; [reflexivity|]. rewrite IH. f_equal. f_equal. lia.
    + simpl. apply IH.
Qed.

Lemma below_ceilDiv (k a n : nat) : 1 <= n -> k < ceilDiv a n -> k * n < a.
Proof.
  intros Hn Hk. unfold ceilDiv in Hk.
  destruct (Nat.lt_ge_cases (k * n) a) as [H|H]; [exact H | exfalso].
  assert (Hle : (a + n - 1) / n <= k); [|lia].
  assert (Hlt : (a + n - 1) / n < S k); [|lia].
  apply Nat.Div0.div_lt_upper_bound. lia.
Qed.

Lemma chunks_rebuild (c : nat) :
  1 <= c ->
  forall (fuel : nat) (s : string),
    String.length s <= fuel ->
    String.concat EmptyString
      (map (fun k => String.substring (k * c) c s) (seq 0 (ceilDiv (String.length s) c)))
    = s.
Proof.
  intros Hc. induction fuel as [|fuel IH]; intros s Hlen.
  - destruct s; [|simpl in Hlen; lia]. simpl String.length.
    rewrite SliceFacts.ceilDiv_zero by exact Hc. reflexivity.
  - destruct (Nat.eq_dec (String.length s) 0) as [Hzero|Hpos].
    + destruct s; [|discriminate]. simpl String.length.
      rewrite SliceFacts.ceilDiv_zero by exact Hc. reflexivity.
    + destruct (Nat.le_gt_cases (String.length s) c) as [Hsmall|Hbig].
      * rewrite SliceFacts.ceilDiv_small by lia. cbn [seq map]. rewrite Nat.mul_0_l.
        cbn [String.concat].
        pose proof (take_drop c s) as Htd.
        assert (Hnil : dropChars c s = EmptyString).
        { pose proof (length_drop c s) as Hl.
          destruct (dropChars c s); [reflexivity | simpl in Hl; lia]. }
        rewrite Hnil in Htd. rewrite <- Htd at 2.
        generalize (String.substring 0 c s). intros t.
        induction t as [|a t IHt]; simpl; [reflexivity | rewrite <- IHt; reflexivity].
      * rewrite SliceFacts.ceilDiv_step by lia.
        rewrite <- (length_drop c s).
        assert (Hrest := IH (dropChars c s) ltac:(rewrite length_drop; lia)).
        remember (ceilDiv (String.length (dropChars c s)) c) as m eqn:Em.
        assert (Hm : 1 <= m).
        { subst m. pose proof (SliceFacts.ceilDiv_covers (String.length (dropChars c s)) c Hc).
          rewrite length_drop in *.
          destruct (ceilDiv (String.length s - c) c); simpl in *; lia. }
        rewrite <- cons_seq, <- seq_shift, map_cons, map_map. rewrite Nat.mul_0_l.
        assert (Hshift : map (fun k => String.substring (S k * c) c s) (seq 0 m)
                         = map (fun k => String.substring (k * c) c (dropChars c s)) (seq 0 m)).
        { apply map_ext. intros k. simpl Nat.mul. apply substring_drop. }
        rewrite Hshift.
        destruct m as [|m]; [lia|].
        destruct (map (fun k => String.substring (k * c) c (dropChars c s)) (seq 0 (S m)))
          as [|x xs] eqn:Exs; [discriminate|].
        change (String.concat EmptyString (String.substring 0 c s :: x :: xs))
          with (String.substring 0 c s ++ EmptyString
                ++ String.concat EmptyString (x :: xs))%string.
        rewrite Hrest. simpl String.append at 2. apply take_drop.
Qed.

Lemma progress_below_one (i n : nat) :
  i < n -> (0 <= QofNat i / QofNat n)%Q /\ (QofNat i / QofNat n < 1)%Q.
Proof.
  intros Hlt. unfold QofNat.
  assert (Hn : (0 < inject_Z (Z.of_nat n))%Q).
  { change 0%Q with (inject_Z 0). rewrite <- Zlt_Qlt. lia. }
  split.
  - apply Qle_shift_div_l; [exact Hn|]. rewrite Qmult_0_l.
    change 0%Q with (inject_Z 0). rewrite <- Zle_Qle. lia.
  - apply Qlt_shift_div_r; [exact Hn|]. rewrite Qmult_1_l.
    rewrite <- Zlt_Qlt. lia.
Qed.

Lemma chunks_spec (c : nat) (out : string) :
  1 <= c ->
  let chunks :=
    map (fun k => ChunkDelivered (String.substring (k * c) c out)
                                 (QofNat (k * c) / QofNat (String.length out))%Q)
        (seq 0 (ceilDiv (String.length out) c)) in
  String.concat EmptyString
    (flat_map (fun ev => match chunkOf ev with Some (chunk, _) => [chunk] | None => [] end)
              chunks) = out
  /\ List.length chunks = ceilDiv (String.length out) c
  /\ Forall (fun ev => exists chunk progress,
                 chunkOf ev = Some (chunk, progress)
                 /\ 1 <= String.length chunk <= c
                 /\ (0 <= progress)%Q /\ (progress < 1)%Q)
            chunks.
Proof.
  intros Hc chunks. subst chunks. split; [|split].
  - etransitivity; [|exact (chunks_rebuild c Hc (String.length out) out (le_n _))].
    f_equal. generalize (seq 0 (ceilDiv (String.length out) c)). intros ks.
    induction ks as [|k ks IH]; simpl; [reflexivity | rewrite IH; reflexivity].
  - rewrite length_map, length_seq. reflexivity.
  - apply Forall_forall. intros ev Hin.
    apply in_map_iff in Hin. destruct Hin as [k [<- Hk]].
    apply in_seq in Hk.
    assert (Hlt : k * c < String.length out) by (apply below_ceilDiv; [exact Hc | lia]).
    eexists. eexists. split; [reflexivity|]. split.
    + rewrite length_substring. lia.
    + apply progress_below_one. exact Hlt.
Qed.

(** X15.  Simulated streaming cuts the output into
    [ceil(length / 1000)] chunks; the chunks, in the order they are
    handed to the chunk callback, spell the output again; each has
    between 1 and 1000 characters; and the progress fraction reported
    with a chunk is at least 0 and stays below 1, also for the last
    chunk. *)
Theorem simulated_chunks_rebuild_output (out : string) :
  String.concat EmptyString
    (flat_map (fun ev => match chunkOf ev with Some (chunk, _) => [chunk] | None => [] end)
              (simulatedChunks out)) = out
  /\ List.length (simulatedChunks out) = ceilDiv (String.length out) 1000
  /\ Forall (fun ev => exists chunk progress,
                 chunkOf ev = Some (chunk, progress)
                 /\ 1 <= String.length chunk <= 1000
                 /\ (0 <= progress)%Q /\ (progress < 1)%Q)
            (simulatedChunks out).
Proof.
  apply (chunks_spec 1000 out). lia.
Qed.

End StreamingExtras.

(* ================================================================== *)
(** ** Registry: registration, lookup and removal *)
(* ================================================================== *)

Module RegistryExtras.
Import AdapterRegistry.

Section WithAdapterState.
Context {St : Type}.

(** X16.  Registration round trip: registering an adapter under a
    non-empty name and version succeeds; the adapter is then found
    under that name and version, and under the name alone when it was
    registered as default or the name had no default; lookups of other
    names, and of other versions of the same name, answer as before. *)
Theorem registered_adapter_is_retrievable
    (r : Registry St) (name : string) (a : Adapter St) (version : option string)
    (setAsDefault : bool) :
  name <> "" ->
  orElse version (apiVersion a) <> "" ->
  exists r',
    registerAdapter r name (Some a) version setAsDefault = Normal r'
    /\ getAdapter r' name (Some (orElse version (apiVersion a))) = Some a
    /\ (setAsDefault = true \/ OMap.has name (_defaultVersions r) = false ->
        getAdapter r' name None = Some a)
    /\ (forall other v, other <> name -> getAdapter r' other v = getAdapter r other v)
    /\ (forall v, v <> "" -> v <> orElse version (apiVersion a) ->
                  getAdapter r' name (Some v) = getAdapter r name (Some v)).
Proof.
  intros Hname Hversion. unfold registerAdapter.
  destruct (String.eqb_spec name "") as [E|_]; [contradiction|].
  set (ver := orElse version (apiVersion a)) in *.
  set (adapters1 := if negb (OMap.has name (_adapters r))
                    then OMap.set name OMap.empty (_adapters r) else _adapters r).
  set (versionMap := match OMap.get name adapters1 with Some vm => vm | None => OMap.empty end).
  assert (Hvm : versionMap = match OMap.get name (_adapters r) with
                             | Some vm => vm | None => OMap.empty end).
  { subst versionMap adapters1. unfold OMap.has.
    destruct (OMap.get name (_adapters r)) eqn:E; simpl; [rewrite E; reflexivity|].
    rewrite OMapFacts.get_set, String.eqb_refl. reflexivity. }
  assert (Hother : forall other, other <> name ->
                     OMap.get other adapters1 = OMap.get other (_adapters r)).
  { intros other Hne. subst adapters1.
    destruct (negb (OMap.has name (_adapters r))); [|reflexivity].
    rewrite OMapFacts.get_set. destruct (String.eqb_spec other name); [contradiction|].
    reflexivity. }
  assert (Hnonempty : String.eqb ver "" = false) by (apply String.eqb_neq; exact Hversion).
  eexists. split; [reflexivity|]. unfold getAdapter. cbn [_adapters _defaultVersions].
  split; [|split; [|split]].
  - rewrite OMapFacts.get_set, String.eqb_refl, Hnonempty, Hnonempty.
    rewrite OMapFacts.get_set, String.eqb_refl. reflexivity.
  - intros Hdefault. rewrite OMapFacts.get_set, String.eqb_refl.
    assert (Hcond : setAsDefault || negb (OMap.has name (_defaultVersions r)) = true).
    { destruct Hdefault as [->| ->]; [reflexivity | apply orb_true_r]. }
    rewrite Hcond. rewrite OMapFacts.get_set, String.eqb_refl, Hnonempty.
    rewrite OMapFacts.get_set, String.eqb_refl. reflexivity.
  - intros other v Hne. rewrite OMapFacts.get_set.
    destruct (String.eqb_spec other name) as [E|_]; [contradiction|].
    rewrite (Hother other Hne).
    assert (Hdef : OMap.get other
                     (if setAsDefault || negb (OMap.has name (_defaultVersions r))
                      then OMap.set name ver (_defaultVersions r) else _defaultVersions r)
                   = OMap.get other (_defaultVersions r)).
    { destruct (setAsDefault || negb (OMap.has name (_defaultVersions r))); [|reflexivity].
      rewrite OMapFacts.get_set. destruct (String.eqb_spec other name); [contradiction|].
      reflexivity. }
    rewrite Hdef. reflexivity.
  - intros v Hv Hne. rewrite OMapFacts.get_set, String.eqb_refl.
    assert (Ev : String.eqb v "" = false) by (apply String.eqb_neq; exact Hv).
    rewrite Ev, Ev. rewrite OMapFacts.get_set.
    destruct (String.eqb_spec v ver) as [E|_]; [contradiction|].
    rewrite Hvm. destruct (OMap.get name (_adapters r)); reflexivity.
Qed.

(** X17.  Removal: after [unregisterAdapter(name)] no version of the
    name is found any more; after [unregisterAdapter(name, version)]
    that version is not found while the name's other versions are found
    as before; other names are never affected, and the recorded metrics
    are kept. *)
Theorem unregistered_adapter_is_gone (r : Registry St) (name : string)
    (version : option string) :
  (version = None \/ version = Some "" ->
   forall v, getAdapter (unregisterAdapter r name version) name v = None)
  /\ (forall v, version = Some v -> v <> "" ->
        getAdapter (unregisterAdapter r name version) name (Some v) = None
        /\ forall v', v' <> "" -> v' <> v ->
             getAdapter (unregisterAdapter r name version) name (Some v')
             = getAdapter r name (Some v'))
  /\ (forall other v, other <> name ->
        getAdapter (unregisterAdapter r name version) other v = getAdapter r other v)
  /\ _metrics (unregisterAdapter r name version) = _metrics r.
Proof.
  split; [|split; [|split]].
  - intros Hall v. unfold unregisterAdapter.
    destruct (OMap.get name (_adapters r)) as [vm0|] eqn:Eget.
    + assert (Hspec : match version with
                      | Some v => if String.eqb v "" then None else Some v
                      | None => None
                      end = None) by (destruct Hall as [->| ->]; reflexivity).
      rewrite Hspec. unfold getAdapter. cbn [_adapters].
      rewrite OMapFacts.get_delete, String.eqb_refl. reflexivity.
    + unfold getAdapter. rewrite Eget. reflexivity.
  - intros v -> Hv. unfold unregisterAdapter.
    assert (Ev : String.eqb v "" = false) by (apply String.eqb_neq; exact Hv).
    destruct (OMap.get name (_adapters r)) as [vm0|] eqn:Eget.
    + rewrite Ev. destruct (Nat.eqb_spec (OMap.size (OMap.delete v vm0)) 0) as [Hlast|Hmore].
      * unfold getAdapter. cbn [_adapters].
        rewrite OMapFacts.get_delete, String.eqb_refl. split; [reflexivity|].
        intros v' Hv' Hne. rewrite Eget.
        assert (Ev' : String.eqb v' "" = false) by (apply String.eqb_neq; exact Hv').
        rewrite Ev', Ev'.
        pose proof (OMapFacts.get_delete v v' vm0) as Hdel.
        destruct (String.eqb_spec v' v) as [E|_]; [contradiction|].
        rewrite <- Hdel. destruct (OMap.delete v vm0); [reflexivity | discriminate].
      * match goal with
        | |- getAdapter (let '(adapters, defaults) := ?p in _) _ _ = _ /\ _ =>
            assert (Hp : fst p = OMap.set name (OMap.delete v vm0) (_adapters r));
            [|destruct p as [adapters defaults]]
        end.
        { destruct (OMap.get name (_defaultVersions r)) as [d|]; [|reflexivity].
          destruct (OMap.keys (OMap.delete v vm0)); [reflexivity|].
          destruct (String.eqb d v); reflexivity. }
        simpl in Hp.
        subst adapters. unfold getAdapter. cbn [_adapters _defaultVersions].
        rewrite OMapFacts.get_set, String.eqb_refl, Ev, Ev.
        rewrite OMapFacts.get_delete, String.eqb_refl. split; [reflexivity|].
        intros v' Hv' Hne. rewrite Eget.
        assert (Ev' : String.eqb v' "" = false) by (apply String.eqb_neq; exact Hv').
        rewrite Ev', Ev'. rewrite OMapFacts.get_delete.
        destruct (String.eqb_spec v' v) as [E|_]; [contradiction | reflexivity].
    + unfold getAdapter. rewrite Eget. split; [reflexivity|]. intros; reflexivity.
  - intros other v Hne. unfold unregisterAdapter.
    destruct (OMap.get name (_adapters r)) as [vm0|] eqn:Eget; [|reflexivity].
    assert (Hpair :
              forall p : OMap.t (OMap.t (Adapter St)) * OMap.t string,
                (p = (OMap.delete name (_adapters r), OMap.delete name (_defaultVersions r))
                 \/ (exists vm, p = (OMap.set name vm (_adapters r), _defaultVersions r))
                 \/ (exists vm d, p = (OMap.set name vm (_adapters r),
                                       OMap.set name d (_defaultVersions r)))) ->
                OMap.get other (fst p) = OMap.get other (_adapters r)
                /\ OMap.get other (snd p) = OMap.get other (_defaultVersions r)).
    { intros p [->|[[vm ->]|[vm [d ->]]]]; simpl;
        rewrite ?OMapFacts.get_delete, ?OMapFacts.get_set;
        destruct (String.eqb_spec other name); try contradiction; split; reflexivity. }
    match goal with
    | |- getAdapter (let '(adapters, defaults) := ?p in _) _ _ = _ =>
        assert (Hp : OMap.get other (fst p) = OMap.get other (_adapters r)
                     /\ OMap.get other (snd p) = OMap.get other (_defaultVersions r));
        [apply Hpair | destruct p as [adapters defaults]]
    end.
    + destruct version as [v0|]; [|left; reflexivity].
      destruct (String.eqb v0 ""); [left; reflexivity|].
      destruct (Nat.eqb (OMap.size (OMap.delete v0 vm0)) 0); [left; reflexivity|].
      destruct (OMap.get name (_defaultVersions r)) as [d|]; [|right; left; eexists; reflexivity].
      destruct (OMap.keys (OMap.delete v0 vm0)); [right; left; eexists; reflexivity|].
      destruct (String.eqb d v0); [right; right; eexists; eexists; reflexivity|].
      right; left; eexists; reflexivity.
    + simpl in Hp. destruct Hp as [Ha Hd]. unfold getAdapter. cbn [_adapters _defaultVersions].
      rewrite Ha, Hd. reflexivity.
  - unfold unregisterAdapter.
    destruct (OMap.get name (_adapters r)) as [vm0|]; [|reflexivity].
    match goal with
    | |- _metrics (let '(adapters, defaults) := ?p in _) = _ => destruct p; reflexivity
    end.
Qed.

(** X18.  [setDefaultVersion] throws exactly when the version is not
    registered under the name; when it returns, a lookup of the name
    alone finds that version's adapter, and lookups by explicit version
    answer as before. *)
Theorem setDefaultVersion_selects_registered_version
    (r : Registry St) (name version : string) :
  version <> "" ->
  match setDefaultVersion r name version with
  | Normal r' =>
      getAdapter r name (Some version) <> None
      /\ getAdapter r' name None = getAdapter r name (Some version)
      /\ forall other v, v <> "" -> getAdapter r' other (Some v) = getAdapter r other (Some v)
  | Throw msg =>
      getAdapter r name (Some version) = None
      /\ msg = ("Adapter " ++ name ++ " v" ++ version ++ " not found")%string
  end.
Proof.
  intros Hversion.
  assert (Ev : String.eqb version "" = false) by (apply String.eqb_neq; exact Hversion).
  unfold setDefaultVersion, getAdapter.
  destruct (OMap.get name (_adapters r)) as [vm|] eqn:Eget; [|split; reflexivity].
  rewrite Ev, Ev. unfold OMap.has.
  destruct (OMap.get version vm) as [a|] eqn:Ea; simpl; [|split; reflexivity].
  rewrite Eget. rewrite OMapFacts.get_set, String.eqb_refl, Ev, Ea.
  split; [discriminate|]. split; [reflexivity|].
  intros other v Hv.
  assert (Ev' : String.eqb v "" = false) by (apply String.eqb_neq; exact Hv).
  rewrite Ev'. reflexivity.
Qed.

Lemma Qltb_iff (x y : Q) : Qltb x y = true <-> (x < y)%Q.
Proof.
  split; [apply SortFacts.Qltb_true|].
  intros Hlt. unfold Qltb. apply negb_true_iff.
  destruct (Qle_bool y x) eqn:E; [|reflexivity].
  apply Qle_bool_iff in E. exfalso. exact (Qlt_not_le _ _ Hlt E).
Qed.

(** X19.  [findMatchingAdapters] returns exactly the registered
    (name, version, adapter) entries whose capability score for the
    requirements is positive, each with that score and the adapter's
    capability profile, in descending order of score. *)
Theorem matches_are_the_positive_scores (r : Registry St) (reqs : Requirements) :
  (forall m,
     In m (findMatchingAdapters r reqs) <->
     (exists versionMap,
        In (m_name m, versionMap) (_adapters r)
        /\ In (m_version m, m_adapter m) versionMap)
     /\ m_score m = _calculateCapabilityScore (m_adapter m) reqs
     /\ (0 < m_score m)%Q
     /\ m_capabilities m = capabilities (m_adapter m))
  /\ StronglySorted (fun a b => (m_score b <= m_score a)%Q) (findMatchingAdapters r reqs).
Proof.
  split; [|apply SortFacts.sortDesc_sorted].
  intros m. unfold findMatchingAdapters. rewrite ScoreFacts.In_sortDesc.
  unfold candidates. rewrite in_flat_map. split.
  - intros [[name vm] [Hname Hin]]. rewrite in_flat_map in Hin.
    destruct Hin as [[version a] [Hversion Hin]].
    destruct (Qltb 0 (_calculateCapabilityScore a reqs)) eqn:E; [|destruct Hin].
    destruct Hin as [<-|[]]. cbn [m_name m_version m_adapter m_score m_capabilities].
    split; [exists vm; split; assumption|].
    split; [reflexivity|]. split; [apply Qltb_iff; exact E | reflexivity].
  - intros [[vm [Hname Hversion]] [Hscore [Hpos Hcaps]]].
    exists (m_name m, vm). split; [exact Hname|].
    rewrite in_flat_map. exists (m_version m, m_adapter m). split; [exact Hversion|].
    rewrite <- Hscore. apply Qltb_iff in Hpos. rewrite Hpos.
    left. destruct m; simpl in *. subst. reflexivity.
Qed.

Lemma sortDesc_nil {A : Type} (key : A -> Q) (l : list A) :
  sortDesc key l = [] <-> l = [].
Proof.
  split; [|intros ->; reflexivity].
  intros H. pose proof (Permutation_length (SortFacts.sortDesc_perm key l)) as Hlen.
  rewrite H in Hlen. destruct l; [reflexivity | discriminate].
Qed.

Lemma applyPreference_same (preferred : list string) (m : Match St) :
  m_name (applyPreference preferred m) = m_name m
  /\ m_version (applyPreference preferred m) = m_version m
  /\ m_adapter (applyPreference preferred m) = m_adapter m.
Proof.
  unfold applyPreference. destruct (inList (m_name m) preferred); repeat split.
Qed.

Lemma applyPerformance_same (r : Registry St) (m : Match St) :
  m_name (applyPerformance r m) = m_name m
  /\ m_version (applyPerformance r m) = m_version m
  /\ m_adapter (applyPerformance r m) = m_adapter m.
Proof.
  unfold applyPerformance.
  destruct (avgDuration (getAdapterMetrics r (m_name m) (m_version m))) as [| |avg];
    [repeat split | repeat split |].
  destruct (numTruthy (Fin avg)); repeat split.
Qed.

(** Whatever the preferences, the selected entry is one of the matches
    with, possibly, a boosted score. *)
Lemma selection_is_a_match (r : Registry St) (reqs : Requirements) (prefs : Preferences)
    (m : Match St) :
  selectOptimalAdapter r reqs prefs = Some m ->
  exists m0,
    In m0 (findMatchingAdapters r reqs)
    /\ m_name m = m_name m0 /\ m_version m = m_version m0
    /\ m_adapter m = m_adapter m0.
Proof.
  unfold selectOptimalAdapter.
  set (matches := findMatchingAdapters r reqs).
  set (matches1 := match preferredAdapters prefs with
                   | Some preferred => sortDesc m_score (map (applyPreference preferred) matches)
                   | None => matches
                   end).
  assert (Hfrom1 : forall x, In x matches1 ->
            exists m0, In m0 matches /\ m_name x = m_name m0
                       /\ m_version x = m_version m0 /\ m_adapter x = m_adapter m0).
  { intros x Hin. subst matches1. destruct (preferredAdapters prefs) as [preferred|].
    - apply ScoreFacts.In_sortDesc, in_map_iff in Hin. destruct Hin as [m0 [<- Hin]].
      exists m0. split; [exact Hin | apply applyPreference_same].
    - exists x. repeat split. exact Hin. }
  intros Hsel. destruct matches as [|y ys] eqn:E; [discriminate|].
  assert (Hin : In m (if considerPerformance prefs
                      then sortDesc m_score (map (applyPerformance r) matches1)
                      else matches1)).
  { destruct (if considerPerformance prefs
              then sortDesc m_score (map (applyPerformance r) matches1)
              else matches1); [discriminate|].
    injection Hsel as ->. left. reflexivity. }
  destruct (considerPerformance prefs); [|auto].
  apply ScoreFacts.In_sortDesc, in_map_iff in Hin. destruct Hin as [m1 [<- Hin]].
  destruct (Hfrom1 m1 Hin) as [m0 [Hin0 [Hn [Hv Ha]]]].
  destruct (applyPerformance_same r m1) as [Hn' [Hv' Ha']].
  exists m0. split; [exact Hin0|]. repeat split; congruence.
Qed.

(** X20.  [selectOptimalAdapter] returns [null] exactly when no adapter
    matches the requirements; whatever the preferences, the selected
    entry is the name, version and adapter of one of the matches, so
    never an adapter with score 0; and without preferences it is a
    match of greatest capability score. *)
Theorem selected_adapter_is_a_match
    (r : Registry St) (reqs : Requirements) (prefs : Preferences) :
  (selectOptimalAdapter r reqs prefs = None <-> findMatchingAdapters r reqs = [])
  /\ (forall m,
        selectOptimalAdapter r reqs prefs = Some m ->
        exists m0,
          In m0 (findMatchingAdapters r reqs)
          /\ m_name m = m_name m0 /\ m_version m = m_version m0
          /\ m_adapter m = m_adapter m0)
  /\ (preferredAdapters prefs = None ->
      considerPerformance prefs = false ->
      forall m,
        selectOptimalAdapter r reqs prefs = Some m ->
        In m (findMatchingAdapters r reqs)
        /\ forall x, In x (findMatchingAdapters r reqs) -> (m_score x <= m_score m)%Q).
Proof.
  split; [|split; [intros m; apply selection_is_a_match|]].
  - unfold selectOptimalAdapter.
    set (matches := findMatchingAdapters r reqs).
    set (matches1 := match preferredAdapters prefs with
                     | Some preferred =>
                         sortDesc m_score (map (applyPreference preferred) matches)
                     | None => matches
                     end).
    set (matches2 := if considerPerformance prefs
                     then sortDesc m_score (map (applyPerformance r) matches1)
                     else matches1).
    assert (H1 : matches1 = [] <-> matches = []).
    { subst matches1. destruct (preferredAdapters prefs) as [preferred|]; [|tauto].
      rewrite sortDesc_nil. destruct matches; simpl; split; congruence. }
    assert (H2 : matches2 = [] <-> matches = []).
    { rewrite <- H1. subst matches2. destruct (considerPerformance prefs); [|tauto].
      rewrite sortDesc_nil. destruct matches1; simpl; split; congruence. }
    destruct matches as [|x xs] eqn:E; [tauto|].
    split; [|discriminate]. intros Hnone.
    destruct matches2; [apply H2; reflexivity | discriminate].
  - unfold selectOptimalAdapter. intros Hnone Hperf m Hsel. rewrite Hnone, Hperf in Hsel.
    assert (Hhd : hd_error (findMatchingAdapters r reqs) = Some m)
      by (destruct (findMatchingAdapters r reqs); [discriminate | exact Hsel]).
    split; [destruct (findMatchingAdapters r reqs); [discriminate|];
            injection Hhd as ->; left; reflexivity|].
    unfold findMatchingAdapters in *.
    intros x Hx. apply ScoreFacts.In_sortDesc in Hx.
    exact (SortFacts.sortDesc_head_max m_score _ m Hhd x Hx).
Qed.

End WithAdapterState.
End RegistryExtras.

(* ================================================================== *)
(** ** Registry: performance metrics *)
(* ================================================================== *)

Module MetricsExtras.
Import AdapterRegistry MetricsLog.

Lemma QofNat_S (n : nat) : (QofNat (S n) == QofNat n + 1)%Q.
Proof.
  unfold QofNat. rewrite Nat2Z.inj_succ. unfold Z.succ.
  rewrite inject_Z_plus. reflexivity.
Qed.

Lemma QofNat_nonneg (n : nat) : (0 <= QofNat n)%Q.
Proof. unfold QofNat. change 0%Q with (inject_Z 0). rewrite <- Zle_Qle. lia. Qed.

Lemma QofNat_le (n m : nat) : n <= m -> (QofNat n <= QofNat m)%Q.
Proof. intros H. unfold QofNat. rewrite <- Zle_Qle. lia. Qed.

Lemma Qsum_snoc (l : list Q) (d : Q) : (Qsum (l ++ [d]) == Qsum l + d)%Q.
Proof.
  unfold Qsum. induction l as [|x l IH]; simpl; [lra|]. rewrite IH. lra.
Qed.

Lemma positive_not_zero (q : Q) : (0 < q)%Q -> Qeq_bool q 0 = false.
Proof.
  intros Hpos. destruct (Qeq_bool q 0) eqn:E; [|reflexivity].
  apply Qeq_bool_iff in E. lra.
Qed.

Section WithAdapterState.
Context {St : Type}.

(** The entry that one [recordMetrics] call leaves under the key *)
Lemma entry_after_record (r : Registry St) (name version : string)
    (duration : option Q) (failed : bool) (now : Z) :
  let cur := match OMap.get (metricsKey name version) (_metrics r) with
             | Some s => s
             | None => freshStats
             end in
  exists s',
    OMap.get (metricsKey name version)
             (_metrics (recordMetrics r name version duration failed now)) = Some s'
    /\ totalExecutions s' = numIncr (totalExecutions cur)
    /\ totalDuration s'
       = numAdd (totalDuration cur) (match duration with Some d => d | None => 0%Q end)
    /\ failures s' = (if failed then numIncr (failures cur) else failures cur)
    /\ avgDuration s' = numDiv (totalDuration s') (totalExecutions s')
    /\ successRate s'
       = numDiv (numSub (totalExecutions s') (failures s')) (totalExecutions s')
    /\ lastUpdated s' = Some now.
Proof.
  intros cur. unfold recordMetrics. cbn [_metrics].
  rewrite OMapFacts.get_set, String.eqb_refl.
  eexists. split; [reflexivity|]. repeat split.
Qed.

(** The counters of the entry after the samples *)
Lemma counters_accumulate (r : Registry St) (name version : string) :
  OMap.get (metricsKey name version) (_metrics r) = None ->
  forall samples,
    let cur := match OMap.get (metricsKey name version)
                       (_metrics (recordAll r name version samples)) with
               | Some s => s
               | None => freshStats
               end in
    exists te td fl,
      totalExecutions cur = Fin te /\ (te == QofNat (List.length samples))%Q
      /\ totalDuration cur = Fin td /\ (td == Qsum (map durationOf samples))%Q
      /\ failures cur = Fin fl
      /\ (fl == QofNat (List.length (filter s_failed samples)))%Q.
Proof.
  intros Hfresh samples. induction samples as [|s samples IH] using rev_ind.
  - simpl. rewrite Hfresh. exists 0%Q, 0%Q, 0%Q. simpl.
    repeat split; reflexivity.
  - cbv zeta in *. destruct IH as [te [td [fl [Hte [Ete [Htd [Etd [Hfl Efl]]]]]]]].
    unfold recordAll in *. rewrite fold_left_app. cbn [fold_left].
    destruct (entry_after_record
                (fold_left (fun acc s => recordMetrics acc name version
                                           (s_duration s) (s_failed s) (s_at s)) samples r)
                name version (s_duration s) (s_failed s) (s_at s))
      as [s' [-> [Hte' [Htd' [Hfl' _]]]]].
    rewrite Hte in Hte'. rewrite Htd in Htd'. rewrite Hfl in Hfl'.
    rewrite length_app, map_app, filter_app, length_app. cbn [List.length map filter].
    exists (te + 1)%Q, (td + durationOf s)%Q, (if s_failed s then fl + 1 else fl)%Q.
    split; [exact Hte'|]. split.
    { rewrite Nat.add_1_r, QofNat_S, Ete. reflexivity. }
    split; [exact Htd'|]. split.
    { rewrite Qsum_snoc, Etd. reflexivity. }
    split; [rewrite Hfl'; destruct (s_failed s); reflexivity|].
    destruct (s_failed s); cbn [List.length].
    + rewrite Nat.add_1_r, QofNat_S, Efl. reflexivity.
    + rewrite Nat.add_0_r. exact Efl.
Qed.

(** X21.  Metrics accumulate: for an adapter and version whose key is
    not yet in the metrics table, after a non-empty series of
    [recordMetrics] calls [getAdapterMetrics] reports the number of
    calls, the sum of the durations (a missing duration counts 0), the
    number of failed calls, their quotient as average duration, a
    success rate of (calls - failures) / calls, which lies between 0
    and 1, and the time of the last call. *)
Theorem metrics_accumulate (r : Registry St) (name version : string)
    (samples : list Sample) :
  OMap.get (metricsKey name version) (_metrics r) = None ->
  samples <> [] ->
  exists te td fl av sr,
    let m := getAdapterMetrics (recordAll r name version samples) name version in
    totalExecutions m = Fin te /\ (te == QofNat (List.length samples))%Q
    /\ totalDuration m = Fin td /\ (td == Qsum (map durationOf samples))%Q
    /\ failures m = Fin fl /\ (fl == QofNat (List.length (filter s_failed samples)))%Q
    /\ avgDuration m = Fin av /\ (av == td / te)%Q
    /\ successRate m = Fin sr /\ (sr == (te - fl) / te)%Q
    /\ (0 <= sr)%Q /\ (sr <= 1)%Q
    /\ lastUpdated m = Some (last (map s_at samples) 0%Z).
Proof.
  intros Hfresh Hsome.
  destruct (exists_last Hsome) as [front [s ->]].
  destruct (counters_accumulate r name version Hfresh front)
    as [te [td [fl [Hte [Ete [Htd [Etd [Hfl Efl]]]]]]]].
  cbv zeta in *.
  pose proof (QofNat_nonneg (List.length front)) as Hlen.
  pose proof (QofNat_nonneg (List.length (filter s_failed front))) as Hfails.
  pose proof (QofNat_le _ _ (filter_length_le s_failed front)) as Hle.
  assert (Hpos : (0 < te + 1)%Q) by lra.
  exists (te + 1)%Q, (td + durationOf s)%Q, (if s_failed s then fl + 1 else fl)%Q,
         ((td + durationOf s) / (te + 1))%Q,
         ((te + 1 - (if s_failed s then fl + 1 else fl)) / (te + 1))%Q.
  unfold getAdapterMetrics, recordAll in *. rewrite fold_left_app. cbn [fold_left].
  destruct (entry_after_record
              (fold_left (fun acc s => recordMetrics acc name version
                                         (s_duration s) (s_failed s) (s_at s)) front r)
              name version (s_duration s) (s_failed s) (s_at s))
    as [s' [-> [Hte' [Htd' [Hfl' [Hav [Hsr Hlast]]]]]]].
  rewrite Hte in Hte'. rewrite Htd in Htd'. rewrite Hfl in Hfl'.
  assert (Hfl'' : failures s' = Fin (if s_failed s then fl + 1 else fl)%Q)
    by (rewrite Hfl'; destruct (s_failed s); reflexivity).
  rewrite Hte', Htd' in Hav. rewrite Hte', Hfl'' in Hsr.
  cbn [numIncr numAdd numSub numDiv] in *.
  rewrite (positive_not_zero _ Hpos) in Hav, Hsr.
  rewrite length_app, map_app, filter_app, length_app, map_app.
  cbn [List.length map filter].
  split; [exact Hte'|]. split.
  { rewrite Nat.add_1_r, QofNat_S, Ete. reflexivity. }
  split; [exact Htd'|]. split.
  { rewrite Qsum_snoc, Etd. reflexivity. }
  split; [exact Hfl''|]. split.
  { destruct (s_failed s); cbn [List.length].
    - rewrite Nat.add_1_r, QofNat_S, Efl. reflexivity.
    - rewrite Nat.add_0_r. exact Efl. }
  split; [exact Hav|]. split; [reflexivity|].
  split; [exact Hsr|]. split; [reflexivity|]. split.
  { apply Qle_shift_div_l; [exact Hpos|]. destruct (s_failed s); lra. }
  split.
  { apply Qle_shift_div_r; [exact Hpos|]. destruct (s_failed s); lra. }
  rewrite Hlast, last_last. reflexivity.
Qed.

(** X22.  The performance boost of [selectOptimalAdapter], in exact
    arithmetic (the code computes in doubles, where every operation
    rounds): the score of a match whose adapter has a positive average
    duration on record is multiplied by a factor above 1 and at most
    13/10, so that a positive score is raised by at most 30%; the
    match is left as it is when the average is missing, [NaN] or 0. *)
Theorem performance_boost_bounded (r : Registry St) (m : Match St) :
  (forall avg,
     avgDuration (getAdapterMetrics r (m_name m) (m_version m)) = Fin avg ->
     (0 < avg)%Q ->
     exists factor,
       m_score (applyPerformance r m) = (m_score m * factor)%Q
       /\ (1 < factor)%Q /\ (factor <= 13 # 10)%Q
       /\ ((0 < m_score m)%Q ->
           (m_score m < m_score (applyPerformance r m))%Q
           /\ (m_score (applyPerformance r m) <= m_score m * (13 # 10))%Q))
  /\ (numTruthy (avgDuration (getAdapterMetrics r (m_name m) (m_version m))) = false ->
      applyPerformance r m = m).
Proof.
  split.
  - intros avg Havg Hpos. unfold applyPerformance. rewrite Havg.
    unfold numTruthy. rewrite (positive_not_zero _ Hpos). cbn [negb withScore m_score].
    set (boost := Qminb (1000 / avg * (1 # 10)) (3 # 10)).
    assert (Hboost : (0 < boost)%Q /\ (boost <= 3 # 10)%Q).
    { subst boost. unfold Qminb.
      assert (Hspeed : (0 < 1000 / avg)%Q).
      { apply Qlt_shift_div_l; [exact Hpos | lra]. }
      destruct (Qle_bool (1000 / avg * (1 # 10)) (3 # 10)) eqn:E.
      - apply Qle_bool_iff in E. split; [lra | exact E].
      - split; lra. }
    destruct Hboost as [Hlow Hhigh].
    exists (1 + boost)%Q. split; [reflexivity|]. split; [lra|]. split; [lra|].
    intros Hscore. split; nra.
  - intros Hfalsy. unfold applyPerformance.
    destruct (avgDuration (getAdapterMetrics r (m_name m) (m_version m))) as [| |avg];
      [reflexivity | reflexivity |].
    rewrite Hfalsy. reflexivity.
Qed.

End WithAdapterState.
End MetricsExtras.

(* ================================================================== *)
(** ** Router: strategy choice, cache bound and expiry *)
(* ================================================================== *)

Module RouterExtras.
Import TaskRouter.

Section WithAdapterState.
Context {St : Type}.

Lemma firstStrategy_usable (adapter : Adapter St) (reqs : Requirements) (l : list string) :
  firstStrategy adapter reqs l = "sequential"
  \/ (In (firstStrategy adapter reqs l) l
      /\ ((firstStrategy adapter reqs l = "subAgents"
           /\ req_subAgents reqs = true /\ supportsFeature adapter "subAgents" = true)
          \/ (firstStrategy adapter reqs l = "parallel"
              /\ supportsFeature adapter "parallelExecution" = true)
          \/ (firstStrategy adapter reqs l = "streaming"
              /\ req_streaming reqs = true /\ supportsFeature adapter "streaming" = true))).
Proof.
  induction l as [|s l IH]; [left; reflexivity|].
  assert (Hrest : firstStrategy adapter reqs l = "sequential"
                  \/ (In (firstStrategy adapter reqs l) (s :: l)
                      /\ ((firstStrategy adapter reqs l = "subAgents"
                           /\ req_subAgents reqs = true
                           /\ supportsFeature adapter "subAgents" = true)
                          \/ (firstStrategy adapter reqs l = "parallel"
                              /\ supportsFeature adapter "parallelExecution" = true)
                          \/ (firstStrategy adapter reqs l = "streaming"
                              /\ req_streaming reqs = true
                              /\ supportsFeature adapter "streaming" = true)))).
  { destruct IH as [IH|[Hin IH]]; [left; exact IH | right; split; [right; exact Hin | exact IH]]. }
  cbn [firstStrategy].
  destruct (String.eqb_spec s "subAgents") as [->|_].
  { destruct (req_subAgents reqs) eqn:Ereq; [|exact Hrest].
    destruct (supportsFeature adapter "subAgents") eqn:Esup; [|exact Hrest].
    right. split; [left; reflexivity|]. left. repeat split. }
  destruct (String.eqb_spec s "parallel") as [->|_].
  { destruct (supportsFeature adapter "parallelExecution") eqn:Esup; [|exact Hrest].
    right. split; [left; reflexivity|]. right. left. repeat split. }
  destruct (String.eqb_spec s "streaming") as [->|_].
  { destruct (req_streaming reqs) eqn:Ereq; [|exact Hrest].
    destruct (supportsFeature adapter "streaming") eqn:Esup; [|exact Hrest].
    right. split; [left; reflexivity|]. right. right. repeat split. }
  destruct (String.eqb_spec s "sequential") as [->|_]; [left; reflexivity | exact Hrest].
Qed.

(** X23.  The strategy the router puts into a decision is the explicit
    (truthy) [executionStrategy] of the task's extension for the
    adapter, or "sequential", or one of the preferred fallback
    strategies "subAgents", "parallel", "streaming" that the adapter
    supports (and, for sub-agents and streaming, that the requirements
    ask for); no other name is ever chosen. *)
Theorem selected_strategy_is_usable (rt : Router St) (adapter : Adapter St) (task : Task)
    (reqs : Requirements) :
  (exists e,
      hasGetVendorExtensions adapter = true
      /\ vendorExtension task (name adapter) = Some e
      /\ ext_executionStrategy e = Some (_selectStrategy rt adapter task reqs)
      /\ _selectStrategy rt adapter task reqs <> "")
  \/ _selectStrategy rt adapter task reqs = "sequential"
  \/ (In (_selectStrategy rt adapter task reqs)
         (AdapterRegistry.fallbackStrategies (preferences rt))
      /\ ((_selectStrategy rt adapter task reqs = "subAgents"
           /\ req_subAgents reqs = true /\ supportsFeature adapter "subAgents" = true)
          \/ (_selectStrategy rt adapter task reqs = "parallel"
              /\ supportsFeature adapter "parallelExecution" = true)
          \/ (_selectStrategy rt adapter task reqs = "streaming"
              /\ req_streaming reqs = true /\ supportsFeature adapter "streaming" = true))).
Proof.
  unfold _selectStrategy.
  destruct (hasGetVendorExtensions adapter) eqn:Ehas;
    [|right; apply firstStrategy_usable].
  destruct (vendorExtension task (name adapter)) as [e|] eqn:Eext;
    [|right; apply firstStrategy_usable].
  unfold truthyName. destruct (ext_executionStrategy e) as [s|] eqn:Es;
    [|right; apply firstStrategy_usable].
  destruct (String.eqb_spec s "") as [->|Hne]; [right; apply firstStrategy_usable|].
  left. exists e. repeat split; assumption.
Qed.

Lemma size_set_le {V : Type} (k : string) (v : V) (m : OMap.t V) :
  OMap.size (OMap.set k v m) <= S (OMap.size m).
Proof.
  unfold OMap.size. induction m as [|[k0 v0] m IH]; simpl; [lia|].
  destruct (String.eqb k k0); simpl; lia.
Qed.

Lemma size_delete_le {V : Type} (k : string) (m : OMap.t V) :
  OMap.size (OMap.delete k m) <= OMap.size m.
Proof.
  unfold OMap.size. induction m as [|[k0 v0] m IH]; simpl; [lia|].
  destruct (String.eqb k k0); simpl; lia.
Qed.

Lemma size_delete_present {V : Type} (k : string) (v : V) (m : OMap.t V) :
  In (k, v) m -> OMap.size (OMap.delete k m) < OMap.size m.
Proof.
  unfold OMap.size. induction m as [|[k0 v0] m IH]; simpl; [tauto|].
  intros [[= -> ->]|Hin].
  - rewrite String.eqb_refl. pose proof (size_delete_le k m). unfold OMap.size in *. lia.
  - specialize (IH Hin). destruct (String.eqb k k0); simpl; lia.
Qed.

Lemma size_after_deletes (es : list (string * RoutingDecision St))
    (c : OMap.t (RoutingDecision St)) :
  OMap.size (fold_left (fun acc e => OMap.delete (fst e) acc) es c) <= OMap.size c.
Proof.
  revert c. induction es as [|e es IH]; intros c; simpl; [lia|].
  pose proof (IH (OMap.delete (fst e) c)). pose proof (size_delete_le (fst e) c). lia.
Qed.

Lemma cacheRoute_bounded (rt : Router St) (key : string) (d : RoutingDecision St) :
  OMap.size (_routingCache rt) <= 1000 ->
  OMap.size (_routingCache (_cacheRoute rt key d)) <= 1000.
Proof.
  intros Hsize. unfold _cacheRoute.
  pose proof (size_set_le key d (_routingCache rt)) as Hset.
  set (cache := OMap.set key d (_routingCache rt)) in *.
  destruct (Nat.ltb_spec 1000 (OMap.size cache)) as [Hbig|Hok];
    unfold withCache; cbn [_routingCache]; [|exact Hok].
  pose proof (RouterFacts.sortByTime_length cache) as Hlen.
  destruct (sortByTime cache) as [|[k0 e0] es] eqn:Esorted.
  { unfold OMap.size in Hbig. simpl in Hlen. lia. }
  assert (Hin : In (k0, e0) cache).
  { apply RouterFacts.In_sortByTime. rewrite Esorted. left. reflexivity. }
  rewrite firstn_cons. cbn [fold_left fst].
  pose proof (size_after_deletes (firstn 99 es) (OMap.delete k0 cache)) as Hrest.
  pose proof (size_delete_present k0 e0 cache Hin) as Hfirst.
  lia.
Qed.

(** X24.  The routing cache is bounded: a [route] call on a router
    whose cache holds at most 1000 decisions leaves at most 1000 in it,
    whether it hits, misses or throws. *)
Theorem route_keeps_cache_bounded (registry : AdapterRegistry.Registry St)
    (rt : Router St) (task : Task) (nowCheck nowStamp : Z) :
  OMap.size (_routingCache rt) <= 1000 ->
  OMap.size (_routingCache (snd (route registry rt task nowCheck nowStamp))) <= 1000.
Proof.
  intros Hsize. unfold route.
  destruct (_generateCacheKey task) as [key|]; [|exact Hsize].
  assert (Hlookup : OMap.size (_routingCache (snd (_getCachedRoute rt key nowCheck))) <= 1000).
  { unfold _getCachedRoute.
    destruct (OMap.get key (_routingCache rt)) as [cached|]; [|exact Hsize].
    destruct (Z.gtb _ _); [|exact Hsize].
    unfold withCache. cbn [snd _routingCache].
    pose proof (size_delete_le key (_routingCache rt)). lia. }
  destruct (_getCachedRoute rt key nowCheck) as [[cached|] rt1]; cbn [snd] in *.
  - exact Hlookup.
  - destruct (analyzeTask task) as [reqs|]; [|exact Hlookup].
    destruct (AdapterRegistry.selectOptimalAdapter _ _ _) as [selection|]; [|exact Hlookup].
    cbn [snd]. unfold emit. cbn [_routingCache].
    apply cacheRoute_bounded. exact Hlookup.
Qed.

(** X25.  A decision returned by [route] is either one that was in the
    cache, or a new one: stamped with the current time, holding the
    requirements that [analyzeTask] finds for the task, the name,
    version and adapter of one of the registry's matches for these
    requirements, and the strategy selected for that adapter. *)
Theorem routed_adapter_meets_requirements (registry : AdapterRegistry.Registry St)
    (rt rt1 : Router St) (task : Task) (nowCheck nowStamp : Z) (d : RoutingDecision St) :
  route registry rt task nowCheck nowStamp = (Normal d, rt1) ->
  (exists k, In (k, d) (_routingCache rt))
  \/ (analyzeTask task = Normal (requirements d)
      /\ timestamp d = nowStamp
      /\ strategy d = _selectStrategy rt (rd_adapter d) task (requirements d)
      /\ exists m,
           In m (AdapterRegistry.findMatchingAdapters registry (requirements d))
           /\ adapterName d = AdapterRegistry.m_name m
           /\ adapterVersion d = AdapterRegistry.m_version m
           /\ rd_adapter d = AdapterRegistry.m_adapter m).
Proof.
  unfold route.
  destruct (_generateCacheKey task) as [key|]; [|discriminate].
  destruct (_getCachedRoute rt key nowCheck) as [[cached|] rt'] eqn:Elookup.
  - apply RouterFacts.hit_returns_entry in Elookup. destruct Elookup as [-> Hget].
    intros [= <- <-]. left. exists key. apply OMapMore.get_In. exact Hget.
  - assert (Hprefs : preferences rt' = preferences rt).
    { unfold _getCachedRoute in Elookup.
      destruct (OMap.get key (_routingCache rt)); [|congruence].
      destruct (Z.gtb _ _); [|discriminate]. injection Elookup as <-. reflexivity. }
    destruct (analyzeTask task) as [reqs|]; [|discriminate].
    destruct (AdapterRegistry.selectOptimalAdapter _ _ _) as [selection|] eqn:Esel;
      [|discriminate].
    intros [= <- <-]. right. cbn [requirements timestamp strategy rd_adapter adapterName
                                    adapterVersion].
    split; [reflexivity|]. split; [reflexivity|]. split.
    { unfold _selectStrategy. cbn [preferences]. rewrite Hprefs. reflexivity. }
    destruct (RegistryExtras.selection_is_a_match _ _ _ _ Esel) as [m [Hin [Hn [Hv Ha]]]].
    exists m. repeat split; assumption.
Qed.

(** X26.  Expiry: when the decision cached under the task's key is more
    than 5 minutes old at the time of the call, [route] does not return
    it: the registry is asked again, and a decision that is returned is
    a new object stamped with the current time. *)
Theorem expired_decision_is_not_served (registry : AdapterRegistry.Registry St)
    (rt : Router St) (task : Task) (nowCheck nowStamp : Z) (key : string)
    (cached : RoutingDecision St) :
  _generateCacheKey task = Normal key ->
  OMap.get key (_routingCache rt) = Some cached ->
  (nowCheck - timestamp cached > _cacheTTL)%Z ->
  registryQueries (snd (route registry rt task nowCheck nowStamp)) = S (registryQueries rt)
  /\ forall d,
       fst (route registry rt task nowCheck nowStamp) = Normal d ->
       oid d = nextOid rt /\ timestamp d = nowStamp.
Proof.
  intros Hkey Hcached Hold. unfold route. rewrite Hkey.
  unfold _getCachedRoute. rewrite Hcached.
  assert (Hgt : Z.gtb (nowCheck - timestamp cached) _cacheTTL = true)
    by (apply Z.gtb_lt; lia).
  rewrite Hgt.
  assert (Hanalysis : exists reqs, analyzeTask task = Normal reqs).
  { unfold _generateCacheKey in Hkey.
    destruct (analyzeTask task) as [reqs|]; [exists reqs; reflexivity | discriminate]. }
  destruct Hanalysis as [reqs ->].
  destruct (AdapterRegistry.selectOptimalAdapter _ _ _) as [selection|].
  - cbn [fst snd]. split.
    + unfold emit. cbn [registryQueries]. unfold _cacheRoute.
      destruct (Nat.ltb _ _); reflexivity.
    + intros d [= <-]. split; reflexivity.
  - cbn [fst snd]. split; [reflexivity | discriminate].
Qed.

End WithAdapterState.
End RouterExtras.

(* ================================================================== *)
(** ** Router: grouping and batch routing *)
(* ================================================================== *)

Module GroupingExtras.
Import TaskRouter TaskGrouping.

Lemma inList_iff (x : string) (l : list string) : inList x l = true <-> In x l.
Proof.
  unfold inList. rewrite existsb_exists. split.
  - intros [y [Hin Heq]]. apply String.eqb_eq in Heq. subst. exact Hin.
  - intros Hin. exists x. split; [exact Hin | apply String.eqb_refl].
Qed.

Lemma NoDup_snoc {A : Type} (l : list A) (x : A) : NoDup l -> ~ In x l -> NoDup (l ++ [x]).
Proof.
  intros Hnd Hnotin. apply NoDup_app; [exact Hnd | repeat constructor; simpl; tauto|].
  intros y Hy [<-|[]]. contradiction.
Qed.

(** The inner loop adds tasks that are similar to [task] and not yet
    processed, and records their ids. *)
Lemma gather_spec (task : Task) (todo : list Task) :
  forall group processed,
    NoDup processed ->
    exists added,
      gather task todo (group, processed) = (group ++ added, processed ++ map id added)
      /\ NoDup (processed ++ map id added)
      /\ Forall (fun x => In x todo /\ _areSimilarTasks task x = true) added.
Proof.
  unfold gather. induction todo as [|other todo IH]; intros group processed Hnd.
  - exists []. simpl. rewrite !app_nil_r. repeat split; [exact Hnd | constructor].
  - cbn [fold_left].
    assert (Hskip : exists added,
               fold_left
                 (fun (acc : list Task * list string) (other0 : Task) =>
                    let '(group0, processed0) := acc in
                    if inList (id other0) processed0 then acc
                    else if _areSimilarTasks task other0
                         then (group0 ++ [other0], processed0 ++ [id other0])
                         else acc) todo (group, processed)
               = (group ++ added, processed ++ map id added)
               /\ NoDup (processed ++ map id added)
               /\ Forall (fun x => In x (other :: todo) /\ _areSimilarTasks task x = true)
                         added).
    { destruct (IH group processed Hnd) as [added [E [Hnd' Hall]]].
      exists added. split; [exact E|]. split; [exact Hnd'|].
      eapply Forall_impl; [|exact Hall]. simpl. tauto. }
    destruct (inList (id other) processed) eqn:Eseen; [exact Hskip|].
    destruct (_areSimilarTasks task other) eqn:Esim; [|exact Hskip].
    assert (Hnew : ~ In (id other) processed).
    { intros Hin. apply inList_iff in Hin. congruence. }
    destruct (IH (group ++ [other]) (processed ++ [id other]) (NoDup_snoc _ _ Hnd Hnew))
      as [added [E [Hnd' Hall]]].
    exists (other :: added). rewrite E. cbn [map]. rewrite <- !app_assoc. simpl.
    split; [reflexivity|]. split; [rewrite <- app_assoc in Hnd'; exact Hnd'|].
    constructor; [split; [left; reflexivity | exact Esim]|].
    eapply Forall_impl; [|exact Hall]. simpl. tauto.
Qed.

Lemma groupLoop_spec (tasks todo : list Task) :
  incl todo tasks ->
  forall groups processed,
    map id (List.concat groups) = processed ->
    NoDup processed ->
    Forall (wellGrouped tasks) groups ->
    map id (List.concat (fst (groupLoop tasks todo (groups, processed))))
    = snd (groupLoop tasks todo (groups, processed))
    /\ NoDup (snd (groupLoop tasks todo (groups, processed)))
    /\ Forall (wellGrouped tasks) (fst (groupLoop tasks todo (groups, processed)))
    /\ incl processed (snd (groupLoop tasks todo (groups, processed)))
    /\ forall t, In t todo -> In (id t) (snd (groupLoop tasks todo (groups, processed))).
Proof.
  unfold groupLoop. induction todo as [|task todo IH]; intros Hincl groups processed Hids Hnd Hall.
  - simpl. repeat split; try assumption; [apply incl_refl | intros t []].
  - cbn [fold_left].
    assert (Htodo : incl todo tasks) by (intros x Hx; apply Hincl; right; exact Hx).
    destruct (inList (id task) processed) eqn:Eseen.
    + destruct (IH Htodo groups processed Hids Hnd Hall) as [H1 [H2 [H3 [H4 H5]]]].
      repeat split; try assumption.
      intros t [<-|Ht]; [apply H4, inList_iff, Eseen | apply H5, Ht].
    + assert (Hnew : ~ In (id task) processed).
      { intros Hin. apply inList_iff in Hin. congruence. }
      destruct (gather_spec task tasks [task] (processed ++ [id task])
                            (NoDup_snoc _ _ Hnd Hnew)) as [added [-> [Hnd' Hadded]]].
      assert (Hids' : map id (List.concat (groups ++ [[task] ++ added]))
                      = (processed ++ [id task]) ++ map id added).
      { rewrite concat_app, map_app, Hids. simpl. rewrite app_nil_r.
        rewrite <- app_assoc. reflexivity. }
      assert (Hall' : Forall (wellGrouped tasks) (groups ++ [[task] ++ added])).
      { apply Forall_app. split; [exact Hall|]. constructor; [|constructor].
        exists task, added. split; [reflexivity|]. split; [|exact Hadded].
        apply Hincl. left. reflexivity. }
      destruct (IH Htodo _ _ Hids' Hnd' Hall') as [H1 [H2 [H3 [H4 H5]]]].
      repeat split; try assumption.
      * intros x Hx. apply H4. apply in_or_app. left. apply in_or_app. left. exact Hx.
      * intros t [<-|Ht]; [|apply H5, Ht].
        apply H4. apply in_or_app. left. apply in_or_app. right. left. reflexivity.
Qed.

Lemma same_id_same_task (tasks : list Task) (a b : Task) :
  NoDup (map id tasks) -> In a tasks -> In b tasks -> id a = id b -> a = b.
Proof.
  induction tasks as [|t tasks IH]; simpl; [tauto|].
  intros Hnd. inversion Hnd as [|? ? Hnotin Hnd']; subst.
  intros [->|Ha] [->|Hb] Heq; [reflexivity | | |exact (IH Hnd' Ha Hb Heq)];
    exfalso; apply Hnotin.
  - rewrite Heq. apply in_map. exact Hb.
  - rewrite <- Heq. apply in_map. exact Ha.
Qed.

Lemma wellGrouped_members (tasks : list Task) (groups : list (list Task)) (x : Task) :
  Forall (wellGrouped tasks) groups -> In x (List.concat groups) -> In x tasks.
Proof.
  intros Hall Hin. apply in_concat in Hin. destruct Hin as [g [Hg Hx]].
  rewrite Forall_forall in Hall. destruct (Hall g Hg) as [primary [members [-> [Hp Hm]]]].
  destruct Hx as [<-|Hx]; [exact Hp|].
  rewrite Forall_forall in Hm. apply (Hm x Hx).
Qed.

(** X27.  [_groupSimilarTasks]: every group is a primary task followed
    by tasks of the input that are similar to the primary; no task id
    occurs twice in the groups and every id of the input occurs; so
    when the ids of the input are distinct the groups are a partition
    of the input: each task is in exactly one group. *)
Theorem grouping_partitions_tasks (tasks : list Task) :
  Forall (wellGrouped tasks) (_groupSimilarTasks tasks)
  /\ NoDup (map id (List.concat (_groupSimilarTasks tasks)))
  /\ (forall t, In t tasks -> In (id t) (map id (List.concat (_groupSimilarTasks tasks))))
  /\ (NoDup (map id tasks) -> Permutation (List.concat (_groupSimilarTasks tasks)) tasks).
Proof.
  unfold _groupSimilarTasks.
  destruct (groupLoop_spec tasks tasks (incl_refl _) [] [] eq_refl (NoDup_nil _)
                           (Forall_nil _)) as [Hids [Hnd [Hall [_ Hevery]]]].
  rewrite Hids. repeat split; try assumption.
  intros Hdistinct. apply NoDup_Permutation.
  - apply (NoDup_map_inv id). rewrite Hids. exact Hnd.
  - apply (NoDup_map_inv id). exact Hdistinct.
  - intros x. split; [apply (wellGrouped_members _ _ _ Hall)|].
    intros Hx. pose proof (Hevery x Hx) as Hid. rewrite <- Hids in Hid.
    apply in_map_iff in Hid. destruct Hid as [y [Heq Hy]].
    assert (y = x); [|subst; exact Hy].
    apply (same_id_same_task tasks); [exact Hdistinct | | exact Hx | exact Heq].
    apply (wellGrouped_members _ _ _ Hall). exact Hy.
Qed.

Section WithAdapterState.
Context {St : Type}.

Lemma route_queries (registry : AdapterRegistry.Registry St) (rt : Router St) (task : Task)
    (nowCheck nowStamp : Z) :
  registryQueries (snd (route registry rt task nowCheck nowStamp)) <= S (registryQueries rt).
Proof.
  unfold route. destruct (_generateCacheKey task) as [key|]; [|simpl; lia].
  assert (Hsame : registryQueries (snd (_getCachedRoute rt key nowCheck)) = registryQueries rt).
  { unfold _getCachedRoute. destruct (OMap.get key (_routingCache rt)); [|reflexivity].
    destruct (Z.gtb _ _); reflexivity. }
  destruct (_getCachedRoute rt key nowCheck) as [[cached|] rt1]; cbn [snd] in *.
  - unfold emit. cbn [registryQueries]. lia.
  - destruct (analyzeTask task) as [reqs|]; [|simpl; lia].
    destruct (AdapterRegistry.selectOptimalAdapter _ _ _) as [selection|]; cbn [snd].
    + unfold emit. cbn [registryQueries]. unfold _cacheRoute.
      destruct (Nat.ltb _ _); unfold withCache; cbn [registryQueries]; lia.
    + cbn [registryQueries]. lia.
Qed.

Lemma routeGroups_spec (registry : AdapterRegistry.Registry St) (clock : nat -> Z * Z)
    (groups : list (list Task)) :
  forall (rt rt' : Router St) (k : nat) (acc ds : list (BatchDecision St)),
    routeGroups registry rt groups clock k acc = (Normal ds, rt') ->
    map bd_taskId ds = map bd_taskId acc ++ map id (List.concat groups)
    /\ registryQueries rt' <= registryQueries rt + List.length groups
    /\ (Forall (fun d => groupedRouting d = true) acc ->
        Forall (fun d => groupedRouting d = true) ds).
Proof.
  induction groups as [|group groups IH]; intros rt rt' k acc ds; cbn [routeGroups].
  - intros [= <- <-]. simpl. rewrite app_nil_r. split; [reflexivity|]. split; [lia | tauto].
  - destruct group as [|primary others]; [discriminate|].
    pose proof (route_queries registry rt primary (fst (clock k)) (snd (clock k))) as Hq.
    destruct (route registry rt primary (fst (clock k)) (snd (clock k)))
      as [[primaryRoute|m] rt1]; [|discriminate].
    cbn [snd] in Hq. intros Hrun. apply IH in Hrun. destruct Hrun as [Hids [Hqueries Hflag]].
    split; [|split].
    + rewrite Hids, map_app, map_map. cbn [bd_taskId List.concat].
      rewrite map_app, <- app_assoc. reflexivity.
    + cbn [List.length]. lia.
    + intros Hacc. apply Hflag. apply Forall_app. split; [exact Hacc|].
      apply Forall_forall. intros d Hd. apply in_map_iff in Hd.
      destruct Hd as [t [<- _]]. reflexivity.
Qed.

(** X28.  When [routeBatch] returns, it gives one decision per grouped
    task, marked [groupedRouting], in the order of the groups (which
    need not be the order of the input); when the ids of the input are
    distinct the decisions' task ids are exactly the input's ids; and
    the registry has been asked at most once per group. *)
Theorem routeBatch_answers_every_task (registry : AdapterRegistry.Registry St)
    (rt rt' : Router St) (tasks : list Task) (clock : nat -> Z * Z)
    (ds : list (BatchDecision St)) :
  routeBatch registry rt tasks clock = (Normal ds, rt') ->
  map bd_taskId ds = map id (List.concat (_groupSimilarTasks tasks))
  /\ Forall (fun d => groupedRouting d = true) ds
  /\ (NoDup (map id tasks) -> Permutation (map bd_taskId ds) (map id tasks))
  /\ registryQueries rt' <= registryQueries rt + List.length (_groupSimilarTasks tasks).
Proof.
  unfold routeBatch. intros Hrun. apply routeGroups_spec in Hrun.
  destruct Hrun as [Hids [Hqueries Hflag]]. simpl in Hids.
  split; [exact Hids|]. split; [apply Hflag; constructor|]. split; [|exact Hqueries].
  intros Hdistinct. rewrite Hids. apply Permutation_map.
  unfold _groupSimilarTasks.
  destruct (groupLoop_spec tasks tasks (incl_refl _) [] [] eq_refl (NoDup_nil _)
                           (Forall_nil _)) as [Hcat [Hnd [Hall [_ Hevery]]]].
  apply NoDup_Permutation.
  - apply (NoDup_map_inv id). rewrite Hcat. exact Hnd.
  - apply (NoDup_map_inv id). exact Hdistinct.
  - intros x. split; [apply (wellGrouped_members _ _ _ Hall)|].
    intros Hx. pose proof (Hevery x Hx) as Hid. rewrite <- Hcat in Hid.
    apply in_map_iff in Hid. destruct Hid as [y [Heq Hy]].
    assert (y = x); [|subst; exact Hy].
    apply (same_id_same_task tasks); [exact Hdistinct | | exact Hx | exact Heq].
    apply (wellGrouped_members _ _ _ Hall). exact Hy.
Qed.

End WithAdapterState.
End GroupingExtras.

(* ================================================================== *)
(** ** Router: task analysis *)
(* ================================================================== *)

Module AnalysisExtras.
Import TaskRouter AdapterBase.

Lemma In_dedupe (x : string) (l : list string) : In x (dedupe l) <-> In x l.
Proof.
  induction l as [|a l IH]; simpl; [tauto|].
  rewrite filter_In, IH, negb_true_iff, String.eqb_neq.
  destruct (String.eqb_spec a x); tauto.
Qed.

Lemma NoDup_dedupe (l : list string) : NoDup (dedupe l).
Proof.
  induction l as [|a l IH]; simpl; constructor.
  - rewrite filter_In, String.eqb_refl. simpl. intros [_ H]. discriminate.
  - apply NoDup_filter, IH.
Qed.

Lemma NoDup_filtered_keys {A B : Type} (f : A * B -> bool) (l : list (A * B)) :
  NoDup (map fst l) -> NoDup (map fst (filter f l)).
Proof.
  induction l as [|x l IH]; simpl; [constructor|].
  intros Hnd. inversion Hnd as [|? ? Hnotin Hnd']; subst.
  destruct (f x); simpl; [|exact (IH Hnd')].
  constructor; [|exact (IH Hnd')].
  intros Hin. apply Hnotin. apply in_map_iff in Hin. destruct Hin as [y [Hy Hin]].
  apply filter_In in Hin. rewrite <- Hy. apply in_map. tauto.
Qed.

Lemma languages_distinct : NoDup (map fst languagePatterns).
Proof.
  unfold languagePatterns. cbn [map fst].
  repeat (constructor; [simpl; intuition discriminate|]). constructor.
Qed.

(** X29.  [analyzeTask] throws exactly when the task has no
    description (for a task type that is not a name inherited from
    [Object.prototype]).  Otherwise the required features have no
    duplicates and include the features of the task type and every
    feature that any vendor's extension asks for; a [subAgents] or
    [streaming] flag in any vendor's extension makes it a requirement;
    the detected languages are distinct names of the language table;
    and the context estimate is not negative. *)
Theorem analyzeTask_requirements (task : Task) :
  ~ In (type task) objectPrototypeNames ->
  match analyzeTask task with
  | Throw _ => description task = None
  | Normal reqs =>
      description task <> None
      /\ exists fs ls,
           req_features reqs = Some fs /\ NoDup fs
           /\ req_languages reqs = Some ls /\ NoDup ls
           /\ incl ls (map fst languagePatterns)
           /\ (0 <= minContextTokens reqs)%Z
           /\ (forall l, assoc (type task) taskTypeFeatures = Some l -> incl l fs)
           /\ forall es vendor e,
                extensions task = Some es -> In (vendor, e) es ->
                (ext_subAgents e = true -> req_subAgents reqs = true)
                /\ (ext_streaming e = true -> req_streaming reqs = true)
                /\ (forall l, ext_features e = Some l -> incl l fs)
  end.
Proof.
  intros _. unfold analyzeTask.
  set (sizes := match context task with
                | Some c =>
                    (Z.of_nat (_estimateContextSize c),
                     match files c with
                     | Some fs => Nat.ltb 1 (List.length fs)
                     | None => false
                     end)
                | None => (0%Z, false)
                end).
  assert (Hsize : (0 <= fst sizes)%Z).
  { subst sizes. destruct (context task); simpl; lia. }
  destruct sizes as [minTokens multi]. cbn [fst] in Hsize.
  destruct (description task) as [d|]; [|reflexivity].
  split; [discriminate|].
  eexists. eexists. cbn [req_features req_languages minContextTokens req_subAgents
                           req_streaming].
  split; [reflexivity|]. split; [apply NoDup_dedupe|].
  split; [reflexivity|]. split; [apply NoDup_filtered_keys, languages_distinct|].
  split.
  { intros x Hx. apply in_map_iff in Hx. destruct Hx as [y [<- Hy]].
    apply filter_In in Hy. apply in_map. tauto. }
  split; [exact Hsize|]. split.
  { intros l Hl x Hx. apply In_dedupe. apply in_or_app. left. rewrite Hl. exact Hx. }
  intros es vendor e Hes Hin. rewrite Hes.
  assert (Hext : In e (map snd es)) by (apply in_map_iff; exists (vendor, e); tauto).
  split; [|split].
  - intros Hflag. apply orb_true_iff. right. apply existsb_exists. exists e. tauto.
  - intros Hflag. apply orb_true_iff. right. apply existsb_exists. exists e. tauto.
  - intros l Hl x Hx. apply In_dedupe. apply in_or_app. right.
    apply in_flat_map. exists e. split; [exact Hext|]. rewrite Hl. exact Hx.
Qed.

End AnalysisExtras.

(* ================================================================== *)
(** ** Instances of the theorems above *)
(* ================================================================== *)

Module ExtraInstances.
Import OrchestrationStrategy.

(** Every candidate fails or is skipped: the error lists all five. *)
Lemma failing_adapter_error_lists_five :
  exists e,
    fst (execute Fixtures.failingAdapter Fixtures.threeFilesTask noOptions (0, create))
    = Thrown e
    /\ message e = "All execution strategies failed"
    /\ map att_strategy (err_attempts e) = candidatesOf noOptions
    /\ Forall (passedOver noOptions) (err_attempts e)
    /\ (trailDuration (err_attempts e) <= err_duration e)%N.
Proof.
  eexists. split; [vm_compute; reflexivity|].
  apply (EngineExtras.exhausted_error_lists_every_candidate
           Fixtures.failingAdapter Fixtures.threeFilesTask noOptions (0, create)).
  vm_compute. reflexivity.
Defined.

(** Four candidates are passed over, then [sequential] succeeds. *)
Lemma basic_adapter_trail_ends_with_success :
  exists r trail,
    fst (execute Fixtures.basicAdapter Fixtures.threeFilesTask noOptions (0, create))
    = Returned r
    /\ res_attempts r = Some trail
    /\ exists pre s post entries ms,
         candidatesOf noOptions = pre ++ s :: post
         /\ res_strategy r = Some s
         /\ trail = entries ++ [successAttempt s ms]
         /\ map att_strategy entries = pre
         /\ Forall (passedOver noOptions) entries
         /\ (ms <= timeoutFor noOptions s)%N.
Proof.
  eexists. eexists. split; [vm_compute; reflexivity|]. split; [reflexivity|].
  apply (EngineExtras.returned_trail_stops_at_first_success
           Fixtures.basicAdapter Fixtures.threeFilesTask noOptions (0, create));
    vm_compute; reflexivity.
Defined.

Lemma slow_adapter_settles_in_time :
  match fst (execute Fixtures.slowAdapter Fixtures.threeFilesTask noOptions (0, create)) with
  | Returned r =>
      exists d, res_totalDuration r = Some d
                /\ (d <= timeBudget noOptions (candidatesOf noOptions))%N
  | Thrown e => (err_duration e <= timeBudget noOptions (candidatesOf noOptions))%N
  | Hangs => False
  end.
Proof.
  apply (EngineExtras.execute_settles_within_timeouts
           Fixtures.slowAdapter Fixtures.threeFilesTask noOptions (0, create)).
  reflexivity.
Defined.

(** The explicit [parallel] fails; the chain skips four candidates and
    succeeds with [sequential]: one attempt is counted for each of the
    two strategies that were run. *)
Lemma statistics_balanced_after_fallback :
  statsBalanced
    (snd (snd (execute Fixtures.onceFailingAdapter Fixtures.fallbackTestTask noOptions
                       (0, create))))
  /\ (fst (execute Fixtures.onceFailingAdapter Fixtures.fallbackTestTask noOptions
                   (0, create)) <> Hangs ->
      forall s,
        attempts (statsOf (snd (snd (execute Fixtures.onceFailingAdapter
                                       Fixtures.fallbackTestTask noOptions (0, create)))) s)
        = attempts (statsOf create s)
          + explicitRuns Fixtures.onceFailingAdapter Fixtures.fallbackTestTask s
          + executions s (trailOf (fst (execute Fixtures.onceFailingAdapter
                                          Fixtures.fallbackTestTask noOptions (0, create))))).
Proof.
  apply (EngineStats.execute_keeps_statistics_balanced
           Fixtures.onceFailingAdapter Fixtures.fallbackTestTask noOptions (0, create)).
  intros strategy data Hin. simpl in Hin. destruct Hin.
Defined.

Lemma used_engine_report :
  exists rep,
    In ("parallel", rep) (getStatistics Fixtures.usedEngine)
    /\ rep_attempts rep = rep_successes rep + rep_failures rep
    /\ (0 <= successRate rep <= 1)%Q
    /\ forall top,
         topFailureReasons rep = Some top ->
         List.length top <= 3
         /\ StronglySorted (fun a b => snd b <= snd a) top
         /\ list_sum (map snd top) <= rep_failures rep.
Proof.
  eexists. split; [left; reflexivity|].
  apply (EngineStats.getStatistics_reports Fixtures.usedEngine "parallel").
  - unfold Fixtures.usedEngine.
    apply EngineStats.recordFailure_balanced, EngineStats.recordFailure_balanced,
          EngineStats.recordSuccess_balanced.
    intros strategy data Hin. simpl in Hin. destruct Hin.
  - left. reflexivity.
Defined.

Lemma twelve_files_in_slices_of_five :
  List.concat (map snd (slices 5 (Fixtures.fileNames 12))) = Fixtures.fileNames 12
  /\ Forall (fun s : nat * list string => 1 <= List.length (snd s) <= 5)
            (slices 5 (Fixtures.fileNames 12))
  /\ List.length (slices 5 (Fixtures.fileNames 12))
     = ceilDiv (List.length (Fixtures.fileNames 12)) 5
  /\ map fst (slices 5 (Fixtures.fileNames 12))
     = map (fun k => k * 5) (seq 0 (ceilDiv (List.length (Fixtures.fileNames 12)) 5)).
Proof.
  apply (DecompositionExtras.slices_cover_list_once 5 (Fixtures.fileNames 12)). lia.
Defined.

(** The test "should use batched strategy for large file counts" *)
Lemma twenty_five_files_batch_count :
  exists r ms w',
    _executeInBatches Fixtures.basicAdapter Fixtures.twentyFiveFilesTask noOptions (0, create)
    = (Resolved r ms, w')
    /\ batchCount r
       = Some (ceilDiv (List.length (Fixtures.fileNames 25)) (batchSizeOf noOptions))
    /\ status r = Some "completed"
    /\ taskId r = Some (id Fixtures.twentyFiveFilesTask).
Proof.
  apply (DecompositionExtras.batched_execution_reports_batch_count
           Fixtures.basicAdapter Fixtures.twentyFiveFilesTask noOptions (0, create)
           {| files := Some (Fixtures.fileNames 25); content := None; code := None |}
           (Fixtures.fileNames 25)).
  - intros st t. eexists. eexists. eexists. reflexivity.
  - reflexivity.
  - reflexivity.
  - vm_compute. lia.
Defined.

Lemma first_registration_round_trip :
  exists r',
    AdapterRegistry.registerAdapter AdapterRegistry.create "adapter1"
      (Some Fixtures.adapter1) None true = Normal r'
    /\ AdapterRegistry.getAdapter r' "adapter1"
         (Some (AdapterRegistry.orElse None (apiVersion Fixtures.adapter1)))
       = Some Fixtures.adapter1
    /\ (true = true \/ OMap.has "adapter1"
                         (AdapterRegistry._defaultVersions (@AdapterRegistry.create nat))
                       = false ->
        AdapterRegistry.getAdapter r' "adapter1" None = Some Fixtures.adapter1)
    /\ (forall other v, other <> "adapter1" ->
          AdapterRegistry.getAdapter r' other v
          = AdapterRegistry.getAdapter AdapterRegistry.create other v)
    /\ (forall v, v <> "" ->
          v <> AdapterRegistry.orElse None (apiVersion Fixtures.adapter1) ->
          AdapterRegistry.getAdapter r' "adapter1" (Some v)
          = AdapterRegistry.getAdapter AdapterRegistry.create "adapter1" (Some v)).
Proof.
  apply (RegistryExtras.registered_adapter_is_retrievable
           AdapterRegistry.create "adapter1" Fixtures.adapter1 None true).
  - discriminate.
  - vm_compute. discriminate.
Defined.

Lemma remaining_version_made_default :
  match AdapterRegistry.setDefaultVersion
          (AdapterRegistry.after Fixtures.versionHistory) "claude-code" "2.0.0" with
  | Normal r' =>
      AdapterRegistry.getAdapter (AdapterRegistry.after Fixtures.versionHistory)
        "claude-code" (Some "2.0.0") <> None
      /\ AdapterRegistry.getAdapter r' "claude-code" None
         = AdapterRegistry.getAdapter (AdapterRegistry.after Fixtures.versionHistory)
             "claude-code" (Some "2.0.0")
      /\ forall other v, v <> "" ->
           AdapterRegistry.getAdapter r' other (Some v)
           = AdapterRegistry.getAdapter (AdapterRegistry.after Fixtures.versionHistory)
               other (Some v)
  | Throw msg =>
      AdapterRegistry.getAdapter (AdapterRegistry.after Fixtures.versionHistory)
        "claude-code" (Some "2.0.0") = None
      /\ msg = ("Adapter " ++ "claude-code" ++ " v" ++ "2.0.0" ++ " not found")%string
  end.
Proof.
  apply (RegistryExtras.setDefaultVersion_selects_registered_version
           (AdapterRegistry.after Fixtures.versionHistory) "claude-code" "2.0.0").
  discriminate.
Defined.

Lemma two_samples_accumulate :
  exists te td fl av sr,
    let m := AdapterRegistry.getAdapterMetrics
               (MetricsLog.recordAll (@AdapterRegistry.create nat) "adapter1" "1.0.0"
                  Fixtures.twoSamples) "adapter1" "1.0.0" in
    AdapterRegistry.totalExecutions m = AdapterRegistry.Fin te
    /\ (te == QofNat (List.length Fixtures.twoSamples))%Q
    /\ AdapterRegistry.totalDuration m = AdapterRegistry.Fin td
    /\ (td == MetricsLog.Qsum (map MetricsLog.durationOf Fixtures.twoSamples))%Q
    /\ AdapterRegistry.failures m = AdapterRegistry.Fin fl
    /\ (fl == QofNat (List.length (filter MetricsLog.s_failed Fixtures.twoSamples)))%Q
    /\ AdapterRegistry.avgDuration m = AdapterRegistry.Fin av /\ (av == td / te)%Q
    /\ AdapterRegistry.successRate m = AdapterRegistry.Fin sr
    /\ (sr == (te - fl) / te)%Q
    /\ (0 <= sr)%Q /\ (sr <= 1)%Q
    /\ AdapterRegistry.lastUpdated m
       = Some (last (map MetricsLog.s_at Fixtures.twoSamples) 0%Z).
Proof.
  apply (MetricsExtras.metrics_accumulate
           (@AdapterRegistry.create nat) "adapter1" "1.0.0" Fixtures.twoSamples).
  - reflexivity.
  - discriminate.
Defined.

Lemma first_route_keeps_cache_bounded :
  OMap.size (TaskRouter._routingCache
               (snd (TaskRouter.route Fixtures.oneAdapterRegistry
                       (TaskRouter.create TaskRouter.defaultPreferences)
                       Fixtures.firstTask 0 0))) <= 1000.
Proof.
  apply (RouterExtras.route_keeps_cache_bounded
           Fixtures.oneAdapterRegistry (TaskRouter.create TaskRouter.defaultPreferences)
           Fixtures.firstTask 0 0).
  apply Nat.le_0_l.
Defined.

Lemma first_route_names_a_match :
  exists d rt1,
    TaskRouter.route Fixtures.oneAdapterRegistry
      (TaskRouter.create TaskRouter.defaultPreferences) Fixtures.firstTask 0 0
    = (Normal d, rt1)
    /\ ((exists k, In (k, d) (TaskRouter._routingCache
                                (TaskRouter.create (St := nat)
                                   TaskRouter.defaultPreferences)))
        \/ (TaskRouter.analyzeTask Fixtures.firstTask
            = Normal (TaskRouter.requirements d)
            /\ TaskRouter.timestamp d = 0%Z
            /\ TaskRouter.strategy d
               = TaskRouter._selectStrategy
                   (TaskRouter.create TaskRouter.defaultPreferences)
                   (TaskRouter.rd_adapter d) Fixtures.firstTask (TaskRouter.requirements d)
            /\ exists m,
                 In m (AdapterRegistry.findMatchingAdapters Fixtures.oneAdapterRegistry
                         (TaskRouter.requirements d))
                 /\ TaskRouter.adapterName d = AdapterRegistry.m_name m
                 /\ TaskRouter.adapterVersion d = AdapterRegistry.m_version m
                 /\ TaskRouter.rd_adapter d = AdapterRegistry.m_adapter m)).
Proof.
  eexists. eexists. split; [vm_compute; reflexivity|].
  eapply (RouterExtras.routed_adapter_meets_requirements
            Fixtures.oneAdapterRegistry (TaskRouter.create TaskRouter.defaultPreferences)
            _ Fixtures.firstTask 0 0).
  vm_compute. reflexivity.
Defined.

(** Five minutes and one millisecond after the first call *)
Lemma stale_decision_is_replaced :
  TaskRouter.registryQueries
    (snd (TaskRouter.route Fixtures.oneAdapterRegistry Fixtures.routedOnce
            Fixtures.secondTask 300001 300001))
  = S (TaskRouter.registryQueries Fixtures.routedOnce)
  /\ forall d,
       fst (TaskRouter.route Fixtures.oneAdapterRegistry Fixtures.routedOnce
              Fixtures.secondTask 300001 300001) = Normal d ->
       TaskRouter.oid d = TaskRouter.nextOid Fixtures.routedOnce
       /\ TaskRouter.timestamp d = 300001%Z.
Proof.
  eapply (RouterExtras.expired_decision_is_not_served
            Fixtures.oneAdapterRegistry Fixtures.routedOnce Fixtures.secondTask
            300001 300001).
  - vm_compute. reflexivity.
  - vm_compute. reflexivity.
  - vm_compute. reflexivity.
Defined.

Lemma batch_of_three_is_answered :
  exists ds rt',
    TaskGrouping.routeBatch Fixtures.oneAdapterRegistry
      (TaskRouter.create TaskRouter.defaultPreferences) Fixtures.batchTasks
      (fun _ => (0%Z, 0%Z)) = (Normal ds, rt')
    /\ map TaskGrouping.bd_taskId ds
       = map id (List.concat (TaskGrouping._groupSimilarTasks Fixtures.batchTasks))
    /\ Forall (fun d => TaskGrouping.groupedRouting d = true) ds
    /\ (NoDup (map id Fixtures.batchTasks) ->
        Permutation (map TaskGrouping.bd_taskId ds) (map id Fixtures.batchTasks))
    /\ TaskRouter.registryQueries rt'
       <= TaskRouter.registryQueries
            (TaskRouter.create (St := nat) TaskRouter.defaultPreferences)
          + List.length (TaskGrouping._groupSimilarTasks Fixtures.batchTasks).
Proof.
  eexists. eexists. split; [vm_compute; reflexivity|].
  eapply (GroupingExtras.routeBatch_answers_every_task
            Fixtures.oneAdapterRegistry (TaskRouter.create TaskRouter.defaultPreferences)
            _ Fixtures.batchTasks (fun _ => (0%Z, 0%Z))).
  vm_compute. reflexivity.
Defined.

Lemma react_task_requirements :
  match TaskRouter.analyzeTask Fixtures.reactTask with
  | Throw _ => description Fixtures.reactTask = None
  | Normal reqs =>
      description Fixtures.reactTask <> None
      /\ exists fs ls,
           req_features reqs = Some fs /\ NoDup fs
           /\ req_languages reqs = Some ls /\ NoDup ls
           /\ incl ls (map fst TaskRouter.languagePatterns)
           /\ (0 <= minContextTokens reqs)%Z
           /\ (forall l, assoc (type Fixtures.reactTask) TaskRouter.taskTypeFeatures = Some l ->
                         incl l fs)
           /\ forall es vendor e,
                extensions Fixtures.reactTask = Some es -> In (vendor, e) es ->
                (ext_subAgents e = true -> req_subAgents reqs = true)
                /\ (ext_streaming e = true -> req_streaming reqs = true)
                /\ (forall l, ext_features e = Some l -> incl l fs)
  end.
Proof.
  apply (AnalysisExtras.analyzeTask_requirements Fixtures.reactTask).
  simpl. intuition discriminate.
Defined.

End ExtraInstances.
